(** * The ESP example workflow of the SendPost Go SDK, embedded in Rocq

    The program under study is [main.go]: one [ESPExample] object, one method
    per workflow step, and [RunCompleteWorkflow] that calls the steps in a
    fixed order.  Every step talks to the SendPost SDK, prints what it got
    and may record an identifier in the [ESPExample] object.

    The embedding is shallow.  A method with receiver [e *ESPExample] is a
    computation in a small monad [M] that threads the object and the
    observable world (console output, the requests put on the wire, the
    number of clock readings) and that can stop in a Go run-time panic.
    The SDK client and the wall clock are inputs of the model: nothing is
    assumed about what the remote service answers. *)

From Stdlib Require Import ZArith List String Ascii Bool Lia.
Import ListNotations.

Open Scope string_scope.
Open Scope Z_scope.

(** ** Go's [strconv] and [fmt] *)

Module strconv.

Definition digit (d : Z) : string :=
  String (ascii_of_nat (48 + Z.to_nat d)) EmptyString.

(** Decimal digits of a non-negative number, most significant first.
    The fuel is a bound on the number of digits. *)
Fixpoint digits (fuel : nat) (u : Z) : string :=
  match fuel with
  | O => EmptyString
  | S fuel' =>
      if u <? 10 then digit u
      else digits fuel' (u / 10) ++ digit (u mod 10)
  end.

Definition utoa (u : Z) : string := digits (S (Z.to_nat (Z.log2 u))) u.

(** [strconv.FormatInt(i, 10)]. *)
Definition FormatInt (i : Z) : string :=
  if i <? 0 then "-" ++ utoa (- i) else utoa i.

End strconv.

Module fmt.

(** An operand of a formatting verb. *)
Inductive Arg : Type :=
| AInt (z : Z)
| AStr (s : string)
| ABool (b : bool)
| AErr (msg : string).

Definition verb (a : Arg) : string :=
  match a with
  | AInt z => strconv.FormatInt z
  | AStr s => s
  | ABool true => "true"
  | ABool false => "false"
  | AErr msg => msg
  end.

(** [fmt.Sprintf] for the verbs the program uses ([%d], [%s], [%v]):
    each verb consumes the next operand. *)
Fixpoint Sprintf (format : string) (args : list Arg) : string :=
  match format with
  | EmptyString => EmptyString
  | String "%"%char (String _ rest) =>
      match args with
      | a :: args' => verb a ++ Sprintf rest args'
      | [] => "%!(MISSING)" ++ Sprintf rest []
      end
  | String c rest => String c (Sprintf rest args)
  end.

(** What the program writes to standard output, one entry per call. *)
Inductive Output : Type :=
| Println (s : string)
| Printf (format : string) (args : list Arg).

Definition newline : string := String (ascii_of_nat 10) EmptyString.

Definition text (o : Output) : string :=
  match o with
  | Println s => s ++ newline
  | Printf format args => Sprintf format args
  end.

End fmt.

(** ** Go's [time] package: civil dates

    A [Time] is an instant (seconds since the Unix epoch) together with
    the location it is shown in.  A location is known by its [lookup]: the
    zone in use at an instant, with its offset from UTC and the instants
    between which it is in use.  Sub-second precision is left out: the
    program only reads [Unix()] and the calendar date.  Go's machine
    integers are unbounded integers here; calendar years stay far from
    their range. *)

Module time.

(** What [lookup] returns of a zone: its offset in seconds east of UTC,
    and the instants at which it starts and ends to be in use. *)
Record Zone : Type := mkZone { offset : Z; start : Z; end_ : Z }.

(** A [*Location], as its method [lookup]. *)
Definition Location : Type := Z -> Zone.

Record Time : Type := mkTime { sec : Z; loc : Location }.

(** A location with one zone at all times, as [time.FixedZone] makes it,
    and [time.UTC]. *)
Definition alpha := - 2 ^ 63.
Definition omega := 2 ^ 63 - 1.
Definition FixedZone (off : Z) : Location := fun _ => mkZone off alpha omega.
Definition UTC : Location := FixedZone 0.

Definition secondsPerMinute := 60.
Definition secondsPerHour := 60 * secondsPerMinute.
Definition secondsPerDay := 24 * secondsPerHour.
Definition daysPer400Years := 365 * 400 + 97.
Definition daysPer100Years := 365 * 100 + 24.
Definition daysPer4Years := 365 * 4 + 1.

(** Seconds from January 1 of year 1 to the Unix epoch. *)
Definition unixToInternal := (1969 * 365 + 1969 / 4 - 1969 / 100 + 1969 / 400) * secondsPerDay.

(** [daysBefore[m]]: days in a non-leap year before month [m+1]. *)
Definition daysBefore (i : Z) : Z :=
  match i with
  | 0 => 0 | 1 => 31 | 2 => 59 | 3 => 90 | 4 => 120 | 5 => 151 | 6 => 181
  | 7 => 212 | 8 => 243 | 9 => 273 | 10 => 304 | 11 => 334 | 12 => 365
  | _ => 0
  end.

Definition isLeap (year : Z) : bool :=
  (Z.rem year 4 =? 0) && (negb (Z.rem year 100 =? 0) || (Z.rem year 400 =? 0)).

(** Local seconds since January 1 of year 1, by the zone in use at the
    instant, and the local day number. *)
Definition abs (t : Time) : Z := sec t + offset (loc t (sec t)) + unixToInternal.
Definition absDays (t : Time) : Z := abs t / secondsPerDay.

(** Days from January 1 of year 1 to January 1 of [year]. *)
Definition daysSinceEpoch (year : Z) : Z :=
  let y := year - 1 in
  let n := y / 400 in
  let y := y - 400 * n in
  let d := daysPer400Years * n in
  let n := y / 100 in
  let y := y - 100 * n in
  let d := d + daysPer100Years * n in
  let n := y / 4 in
  let y := y - 4 * n in
  let d := d + daysPer4Years * n in
  d + 365 * y.

(** Year and zero-based day of the year of a day number. *)
Definition absYearDay (d : Z) : Z * Z :=
  let n := d / daysPer400Years in
  let y := 400 * n in
  let d := d - daysPer400Years * n in
  let n := d / daysPer100Years in
  let n := n - Z.shiftr n 2 in
  let y := y + 100 * n in
  let d := d - daysPer100Years * n in
  let n := d / daysPer4Years in
  let y := y + 4 * n in
  let d := d - daysPer4Years * n in
  let n := d / 365 in
  let n := n - Z.shiftr n 2 in
  let y := y + n in
  let d := d - 365 * n in
  (y + 1, d).

(** Month and day of the month of a zero-based day of the year. *)
Definition monthDay (leap : bool) (yday : Z) : Z * Z :=
  if leap && (yday =? 31 + 29 - 1) then (2, 29)
  else
    let day := if leap && (yday >? 31 + 29 - 1) then yday - 1 else yday in
    let month := day / 31 in
    let e := daysBefore (month + 1) in
    let '(month, begin) :=
      if day >=? e then (month + 1, e) else (month, daysBefore month) in
    (month + 1, day - begin + 1).

Definition absDate (d : Z) : Z * Z * Z :=
  let '(year, yday) := absYearDay d in
  let '(month, day) := monthDay (isLeap year) yday in
  (year, month, day).

(** [t.Date()] and [t.Clock()]. *)
Definition DateOf (t : Time) : Z * Z * Z := absDate (absDays t).

Definition Clock (t : Time) : Z * Z * Z :=
  let s := abs t mod secondsPerDay in
  let hour := s / secondsPerHour in
  let s := s - hour * secondsPerHour in
  let min := s / secondsPerMinute in
  (hour, min, s - min * secondsPerMinute).

(** [norm(hi, lo, base)]: carry [lo] into [hi] until [0 <= lo < base]. *)
Definition norm (hi lo base : Z) : Z * Z :=
  let '(hi, lo) :=
    if lo <? 0 then
      let n := Z.quot (- lo - 1) base + 1 in (hi - n, lo + n * base)
    else (hi, lo) in
  if lo >=? base then
    let n := Z.quot lo base in (hi + n, lo - n * base)
  else (hi, lo).

(** Day number of a civil date whose month is in range; the day of the
    month may lie outside the month. *)
Definition civilDays (year month day : Z) : Z :=
  let d := daysSinceEpoch year in
  let d := d + daysBefore (month - 1) in
  let d := if isLeap year && (month >=? 3) then d + 1 else d in
  d + (day - 1).

(** [time.Date(year, month, day, hour, min, sec, 0, loc)].  The wall
    clock reading is first taken as if it were UTC; the zone is looked up
    there, and once more at the instant that zone leads to when that
    instant lies outside the span of the zone. *)
Definition Date (year month day hour min sec : Z) (l : Location) : Time :=
  let '(year, m) := norm year (month - 1) 12 in
  let month := m + 1 in
  let '(min, sec) := norm min sec 60 in
  let '(hour, min) := norm hour min 60 in
  let '(day, hour) := norm day hour 24 in
  let d := civilDays year month day in
  let a := d * secondsPerDay + (hour * secondsPerHour + min * secondsPerMinute + sec) in
  let unix := a - unixToInternal in
  let z := l unix in
  let unix :=
    if negb (offset z =? 0) then
      let utc := unix - offset z in
      let off :=
        if (utc <? start z) || (utc >=? end_ z) then offset (l utc) else offset z in
      unix - off
    else unix in
  mkTime unix l.

(** [t.AddDate(years, months, days)]: the date and the clock of [t] in its
    location, moved, and read again in that location. *)
Definition AddDate (t : Time) (years months days : Z) : Time :=
  let '(year, month, day) := DateOf t in
  let '(hour, min, sec) := Clock t in
  Date (year + years) (month + months) (day + days) hour min sec (loc t).

Definition Unix (t : Time) : Z := sec t.

(** [appendInt]: sign, zero padding up to [width], decimal digits. *)
Definition appendInt (x : Z) (width : nat) : string :=
  let u := strconv.utoa (Z.abs x) in
  let pad := (width - String.length u)%nat in
  (if x <? 0 then "-" else "") ++ concat "" (repeat "0" pad) ++ u.

(** The rendering of a day number in the layout ["2006-01-02"]. *)
Definition FormatDay (d : Z) : string :=
  let '(year, month, day) := absDate d in
  appendInt year 4 ++ "-" ++ appendInt month 2 ++ "-" ++ appendInt day 2.

(** [t.Format("2006-01-02")], the only layout the program uses. *)
Definition Format (t : Time) : string := FormatDay (absDays t).

End time.

(** ** The SendPost SDK, as the program sees it

    The SDK is an external collaborator.  Its model types carry the fields
    the program reads or writes; a Go pointer field is an [option], a nil
    slice that the program tells apart from an empty one is an [option] of
    a list.  The [Execute] of a request builder returns Go's triple
    [(value, *http.Response, error)]: the response pointer is an [option]
    and the error is an [option].  The value of an operation that lists is
    a slice; the value of an operation that returns one object is a pointer
    to it, an [option]: the program reads its fields without a nil test,
    which stops the program when the pointer is nil.  After an error the
    program does not look at the value. *)

Module http.
Record Response : Type := mkResponse { StatusCode : Z }.
End http.

Definition error : Type := string.

Definition ApiResult (T : Type) : Type := T * option http.Response * option error.

Module SubAccount.
Record t : Type := mk {
  Id : option Z; Name : option string; ApiKey : option string;
  Type_ : option Z; Blocked : option bool; Created : option Z }.
Definition zero : t := mk None None None None None None.
End SubAccount.

Module Webhook.
Record t : Type := mk { Id : option Z; Url : option string; Enabled : option bool }.
Definition zero : t := mk None None None.
End Webhook.

Module DomainDkim.
Record t : Type := mk { TextValue : option string }.
End DomainDkim.

Module Domain.
Record t : Type := mk {
  Id : option Z; Name : option string; Verified : option bool;
  Dkim : option DomainDkim.t }.
Definition zero : t := mk None None None None.
End Domain.

Module EmailResponse.
Record t : Type := mk { MessageId : option string; To : option string }.
End EmailResponse.

Module EmailAddress.
Record t : Type := mk { Email : option string; Name : option string }.
Definition NewEmailAddress : t := mk None None.
Definition SetEmail (o : t) (v : string) : t := mk (Some v) (Name o).
Definition SetName (o : t) (v : string) : t := mk (Email o) (Some v).
End EmailAddress.

Module Recipient.
Record t : Type := mk {
  Email : option string; Name : option string;
  CustomFields : option (list (string * string)) }.
Definition NewRecipient : t := mk None None None.
Definition SetEmail (o : t) (v : string) : t := mk (Some v) (Name o) (CustomFields o).
Definition SetName (o : t) (v : string) : t := mk (Email o) (Some v) (CustomFields o).
Definition SetCustomFields (o : t) (v : list (string * string)) : t :=
  mk (Email o) (Name o) (Some v).
End Recipient.

(** [From] and [To] are pointers.  The program tests [To] before it reads
    it and reads [From] without a test ([message.From.Email]). *)
Module Message.
Record t : Type := mk {
  MessageID : option string; AccountID : option Z; SubAccountID : option Z;
  IpID : option Z; PublicIP : option string; LocalIP : option string;
  EmailType : option string; SubmittedAt : option Z;
  From : option EmailAddress.t; To : option Recipient.t;
  Subject : option string; IpPool : option string; Attempt : option Z }.
Definition zero : t :=
  mk None None None None None None None None None None None None None.
End Message.

Module StatStats.
Record t : Type := mk {
  Processed : option Z; Delivered : option Z; Dropped : option Z;
  HardBounced : option Z; SoftBounced : option Z; Unsubscribed : option Z;
  Spam : option Z }.
End StatStats.

Module Stat.
Record t : Type := mk { Date : option string; Stat : option StatStats.t }.
End Stat.

Module AggregateStat.
Record t : Type := mk {
  Processed : option Z; Delivered : option Z; Dropped : option Z;
  HardBounced : option Z; SoftBounced : option Z; Unsubscribed : option Z;
  Spam : option Z }.
Definition zero : t := mk None None None None None None None.
End AggregateStat.

Module AccountStatsStat.
Record t : Type := mk {
  Processed : option Z; Delivered : option Z; Dropped : option Z;
  HardBounced : option Z; SoftBounced : option Z; Opened : option Z;
  Clicked : option Z; Unsubscribed : option Z; Spams : option Z }.
End AccountStatsStat.

Module AccountStats.
Record t : Type := mk { Date : option string; Stat : option AccountStatsStat.t }.
End AccountStats.

Module IP.
Record t : Type := mk {
  Id : Z; PublicIP : string; ReverseDNSHostname : option string; Created : Z }.
End IP.

Module EIP.
Record t : Type := mk { PublicIP : string }.
Definition NewEIP (publicIP : string) : t := mk publicIP.
End EIP.

Module IPPool.
Record t : Type := mk {
  Id : option Z; Name : option string; RoutingStrategy : option Z;
  Ips : option (list IP.t) }.
Definition zero : t := mk None None None None.
End IPPool.

(** Request objects: [NewX()] leaves every field unset, [SetF] sets one. *)

Module CreateSubAccountRequest.
Record t : Type := mk { Name : option string }.
Definition NewCreateSubAccountRequest : t := mk None.
Definition SetName (o : t) (v : string) : t := mk (Some v).
End CreateSubAccountRequest.

Module CreateWebhookRequest.
Record t : Type := mk {
  Url : option string; Enabled : option bool; Processed : option bool;
  Delivered : option bool; Dropped : option bool; SoftBounced : option bool;
  HardBounced : option bool; Opened : option bool; Clicked : option bool;
  Unsubscribed : option bool; Spam : option bool }.
Definition NewCreateWebhookRequest : t :=
  mk None None None None None None None None None None None.
Definition SetUrl (o : t) (v : string) : t :=
  mk (Some v) (Enabled o) (Processed o) (Delivered o) (Dropped o) (SoftBounced o)
     (HardBounced o) (Opened o) (Clicked o) (Unsubscribed o) (Spam o).
Definition SetEnabled (o : t) (v : bool) : t :=
  mk (Url o) (Some v) (Processed o) (Delivered o) (Dropped o) (SoftBounced o)
     (HardBounced o) (Opened o) (Clicked o) (Unsubscribed o) (Spam o).
Definition SetProcessed (o : t) (v : bool) : t :=
  mk (Url o) (Enabled o) (Some v) (Delivered o) (Dropped o) (SoftBounced o)
     (HardBounced o) (Opened o) (Clicked o) (Unsubscribed o) (Spam o).
Definition SetDelivered (o : t) (v : bool) : t :=
  mk (Url o) (Enabled o) (Processed o) (Some v) (Dropped o) (SoftBounced o)
     (HardBounced o) (Opened o) (Clicked o) (Unsubscribed o) (Spam o).
Definition SetDropped (o : t) (v : bool) : t :=
  mk (Url o) (Enabled o) (Processed o) (Delivered o) (Some v) (SoftBounced o)
     (HardBounced o) (Opened o) (Clicked o) (Unsubscribed o) (Spam o).
Definition SetSoftBounced (o : t) (v : bool) : t :=
  mk (Url o) (Enabled o) (Processed o) (Delivered o) (Dropped o) (Some v)
     (HardBounced o) (Opened o) (Clicked o) (Unsubscribed o) (Spam o).
Definition SetHardBounced (o : t) (v : bool) : t :=
  mk (Url o) (Enabled o) (Processed o) (Delivered o) (Dropped o) (SoftBounced o)
     (Some v) (Opened o) (Clicked o) (Unsubscribed o) (Spam o).
Definition SetOpened (o : t) (v : bool) : t :=
  mk (Url o) (Enabled o) (Processed o) (Delivered o) (Dropped o) (SoftBounced o)
     (HardBounced o) (Some v) (Clicked o) (Unsubscribed o) (Spam o).
Definition SetClicked (o : t) (v : bool) : t :=
  mk (Url o) (Enabled o) (Processed o) (Delivered o) (Dropped o) (SoftBounced o)
     (HardBounced o) (Opened o) (Some v) (Unsubscribed o) (Spam o).
Definition SetUnsubscribed (o : t) (v : bool) : t :=
  mk (Url o) (Enabled o) (Processed o) (Delivered o) (Dropped o) (SoftBounced o)
     (HardBounced o) (Opened o) (Clicked o) (Some v) (Spam o).
Definition SetSpam (o : t) (v : bool) : t :=
  mk (Url o) (Enabled o) (Processed o) (Delivered o) (Dropped o) (SoftBounced o)
     (HardBounced o) (Opened o) (Clicked o) (Unsubscribed o) (Some v).
End CreateWebhookRequest.

Module CreateDomainRequest.
Record t : Type := mk { Name : option string }.
Definition NewCreateDomainRequest : t := mk None.
Definition SetName (o : t) (v : string) : t := mk (Some v).
End CreateDomainRequest.

Module EmailMessageObject.
Record t : Type := mk {
  From : option EmailAddress.t; To : option (list Recipient.t);
  Subject : option string; HtmlBody : option string; TextBody : option string;
  TrackOpens : option bool; TrackClicks : option bool;
  Headers : option (list (string * string)); Groups : option (list string);
  Ippool : option string }.
Definition NewEmailMessageObject : t :=
  mk None None None None None None None None None None.
Definition SetFrom (o : t) (v : EmailAddress.t) : t :=
  mk (Some v) (To o) (Subject o) (HtmlBody o) (TextBody o) (TrackOpens o)
     (TrackClicks o) (Headers o) (Groups o) (Ippool o).
Definition SetTo (o : t) (v : list Recipient.t) : t :=
  mk (From o) (Some v) (Subject o) (HtmlBody o) (TextBody o) (TrackOpens o)
     (TrackClicks o) (Headers o) (Groups o) (Ippool o).
Definition SetSubject (o : t) (v : string) : t :=
  mk (From o) (To o) (Some v) (HtmlBody o) (TextBody o) (TrackOpens o)
     (TrackClicks o) (Headers o) (Groups o) (Ippool o).
Definition SetHtmlBody (o : t) (v : string) : t :=
  mk (From o) (To o) (Subject o) (Some v) (TextBody o) (TrackOpens o)
     (TrackClicks o) (Headers o) (Groups o) (Ippool o).
Definition SetTextBody (o : t) (v : string) : t :=
  mk (From o) (To o) (Subject o) (HtmlBody o) (Some v) (TrackOpens o)
     (TrackClicks o) (Headers o) (Groups o) (Ippool o).
Definition SetTrackOpens (o : t) (v : bool) : t :=
  mk (From o) (To o) (Subject o) (HtmlBody o) (TextBody o) (Some v)
     (TrackClicks o) (Headers o) (Groups o) (Ippool o).
Definition SetTrackClicks (o : t) (v : bool) : t :=
  mk (From o) (To o) (Subject o) (HtmlBody o) (TextBody o) (TrackOpens o)
     (Some v) (Headers o) (Groups o) (Ippool o).
Definition SetHeaders (o : t) (v : list (string * string)) : t :=
  mk (From o) (To o) (Subject o) (HtmlBody o) (TextBody o) (TrackOpens o)
     (TrackClicks o) (Some v) (Groups o) (Ippool o).
Definition SetGroups (o : t) (v : list string) : t :=
  mk (From o) (To o) (Subject o) (HtmlBody o) (TextBody o) (TrackOpens o)
     (TrackClicks o) (Headers o) (Some v) (Ippool o).
Definition SetIppool (o : t) (v : string) : t :=
  mk (From o) (To o) (Subject o) (HtmlBody o) (TextBody o) (TrackOpens o)
     (TrackClicks o) (Headers o) (Groups o) (Some v).
(** [GetSubject] returns the zero value when the field is unset. *)
Definition GetSubject (o : t) : string :=
  match Subject o with Some s => s | None => "" end.
End EmailMessageObject.

Module IPPoolCreateRequest.
Record t : Type := mk {
  Name : option string; RoutingStrategy : option Z; Ips : option (list EIP.t);
  WarmupInterval : option Z; OverflowStrategy : option Z }.
Definition NewIPPoolCreateRequest : t := mk None None None None None.
Definition SetName (o : t) (v : string) : t :=
  mk (Some v) (RoutingStrategy o) (Ips o) (WarmupInterval o) (OverflowStrategy o).
Definition SetRoutingStrategy (o : t) (v : Z) : t :=
  mk (Name o) (Some v) (Ips o) (WarmupInterval o) (OverflowStrategy o).
Definition SetIps (o : t) (v : list EIP.t) : t :=
  mk (Name o) (RoutingStrategy o) (Some v) (WarmupInterval o) (OverflowStrategy o).
Definition SetWarmupInterval (o : t) (v : Z) : t :=
  mk (Name o) (RoutingStrategy o) (Ips o) (Some v) (OverflowStrategy o).
Definition SetOverflowStrategy (o : t) (v : Z) : t :=
  mk (Name o) (RoutingStrategy o) (Ips o) (WarmupInterval o) (Some v).
End IPPoolCreateRequest.

Module sendpost.

(** The value stored under [ContextAPIKeys]: a map from the name of an
    authentication scheme to its key. *)
Definition Context : Type := list (string * string).

(** One request as it leaves the program. *)
Inductive Call : Type :=
| GetAllSubAccounts (ctx : Context)
| CreateSubAccount (ctx : Context) (r : CreateSubAccountRequest.t)
| CreateWebhook (ctx : Context) (r : CreateWebhookRequest.t)
| GetAllWebhooks (ctx : Context)
| SubaccountDomainPost (ctx : Context) (r : CreateDomainRequest.t)
| GetAllDomains (ctx : Context)
| SendEmail (ctx : Context) (m : EmailMessageObject.t)
| GetMessageById (ctx : Context) (messageId : string)
| AccountSubaccountStatSubaccountIdGet (ctx : Context) (id : Z) (from to : string)
| AccountSubaccountStatSubaccountIdAggregateGet (ctx : Context) (id : Z) (from to : string)
| GetAllIps (ctx : Context)
| CreateIPPool (ctx : Context) (r : IPPoolCreateRequest.t)
| GetAllIPPools (ctx : Context)
| GetAllAccountStats (ctx : Context) (from to : string).

(** A request together with what came back for it. *)
Record Exchange : Type := mkExchange {
  sent : Call; response : option http.Response; failure : option error }.

Record ServerConfiguration : Type := mkServer { URL : string }.
Record Configuration : Type := mkConfiguration { Servers : list ServerConfiguration }.
Definition NewConfiguration : Configuration := mkConfiguration [].

(** The generated client.  Each operation may answer differently on
    every call: it sees the exchanges made so far. *)
Record APIClient : Type := mkAPIClient {
  SubAccountAPI_GetAllSubAccounts :
    list Exchange -> Context -> ApiResult (list SubAccount.t);
  SubAccountAPI_CreateSubAccount :
    list Exchange -> Context -> CreateSubAccountRequest.t ->
    ApiResult (option SubAccount.t);
  WebhookAPI_CreateWebhook :
    list Exchange -> Context -> CreateWebhookRequest.t -> ApiResult (option Webhook.t);
  WebhookAPI_GetAllWebhooks :
    list Exchange -> Context -> ApiResult (list Webhook.t);
  DomainAPI_SubaccountDomainPost :
    list Exchange -> Context -> CreateDomainRequest.t -> ApiResult (option Domain.t);
  DomainAPI_GetAllDomains :
    list Exchange -> Context -> ApiResult (list Domain.t);
  EmailAPI_SendEmail :
    list Exchange -> Context -> EmailMessageObject.t -> ApiResult (list EmailResponse.t);
  MessageAPI_GetMessageById :
    list Exchange -> Context -> string -> ApiResult (option Message.t);
  StatsAPI_AccountSubaccountStatSubaccountIdGet :
    list Exchange -> Context -> Z -> string -> string -> ApiResult (list Stat.t);
  StatsAPI_AccountSubaccountStatSubaccountIdAggregateGet :
    list Exchange -> Context -> Z -> string -> string ->
    ApiResult (option AggregateStat.t);
  IPAPI_GetAllIps :
    list Exchange -> Context -> ApiResult (list IP.t);
  IPPoolsAPI_CreateIPPool :
    list Exchange -> Context -> IPPoolCreateRequest.t -> ApiResult (option IPPool.t);
  IPPoolsAPI_GetAllIPPools :
    list Exchange -> Context -> ApiResult (list IPPool.t);
  StatsAAPI_GetAllAccountStats :
    list Exchange -> Context -> string -> string -> ApiResult (list AccountStats.t) }.

End sendpost.

(** ** The program: [main.go] *)

(** The constants block at the top of [main.go].  The file tells its user
    to edit these values, so the steps take them as a parameter;
    [shipped] holds the values the repository ships. *)
Record Constants : Type := mkConstants {
  basePath : string;
  testFromEmail : string;
  testToEmail : string;
  testDomainName : string;
  webhookURL : string }.

Definition shipped : Constants := {|
  basePath := "https://api.sendpost.io/api/v1";
  testFromEmail := "sender@yourdomain.com";
  testToEmail := "recipient@example.com";
  testDomainName := "yourdomain.com";
  webhookURL := "https://your-webhook-endpoint.com/webhook" |}.

(** Everything the process reads from outside: its constants, the
    environment variables, the SDK's client constructor and the wall clock
    (the [n]-th reading of [time.Now()], counted from zero). *)
Record Env : Type := mkEnv {
  constants : Constants;
  Getenv : string -> string;
  NewAPIClient : sendpost.Configuration -> sendpost.APIClient;
  Now : nat -> time.Time }.

Record ESPExample : Type := mkESPExample {
  client : sendpost.APIClient;
  accountAPIKey : string;
  subAccountAPIKey : string;
  createdSubAccountID : option Z;
  createdSubAccountKey : string;
  createdWebhookID : option Z;
  createdDomainID : string;
  createdIPPoolID : option Z;
  createdIPPoolName : string;
  sentMessageID : string }.

(** Assignments to the fields the steps write. *)
Definition set_createdSubAccountID (v : option Z) (e : ESPExample) : ESPExample :=
  mkESPExample (client e) (accountAPIKey e) (subAccountAPIKey e) v
    (createdSubAccountKey e) (createdWebhookID e) (createdDomainID e)
    (createdIPPoolID e) (createdIPPoolName e) (sentMessageID e).
Definition set_createdSubAccountKey (v : string) (e : ESPExample) : ESPExample :=
  mkESPExample (client e) (accountAPIKey e) (subAccountAPIKey e)
    (createdSubAccountID e) v (createdWebhookID e) (createdDomainID e)
    (createdIPPoolID e) (createdIPPoolName e) (sentMessageID e).
Definition set_createdWebhookID (v : option Z) (e : ESPExample) : ESPExample :=
  mkESPExample (client e) (accountAPIKey e) (subAccountAPIKey e)
    (createdSubAccountID e) (createdSubAccountKey e) v (createdDomainID e)
    (createdIPPoolID e) (createdIPPoolName e) (sentMessageID e).
Definition set_createdDomainID (v : string) (e : ESPExample) : ESPExample :=
  mkESPExample (client e) (accountAPIKey e) (subAccountAPIKey e)
    (createdSubAccountID e) (createdSubAccountKey e) (createdWebhookID e) v
    (createdIPPoolID e) (createdIPPoolName e) (sentMessageID e).
Definition set_createdIPPoolID (v : option Z) (e : ESPExample) : ESPExample :=
  mkESPExample (client e) (accountAPIKey e) (subAccountAPIKey e)
    (createdSubAccountID e) (createdSubAccountKey e) (createdWebhookID e)
    (createdDomainID e) v (createdIPPoolName e) (sentMessageID e).
Definition set_createdIPPoolName (v : string) (e : ESPExample) : ESPExample :=
  mkESPExample (client e) (accountAPIKey e) (subAccountAPIKey e)
    (createdSubAccountID e) (createdSubAccountKey e) (createdWebhookID e)
    (createdDomainID e) (createdIPPoolID e) v (sentMessageID e).
Definition set_sentMessageID (v : string) (e : ESPExample) : ESPExample :=
  mkESPExample (client e) (accountAPIKey e) (subAccountAPIKey e)
    (createdSubAccountID e) (createdSubAccountKey e) (createdWebhookID e)
    (createdDomainID e) (createdIPPoolID e) (createdIPPoolName e) v.

(** What an observer of the process sees. *)
Record World : Type := mkWorld {
  stdout : list fmt.Output;
  wire : list sendpost.Exchange;
  ticks : nat }.

Definition boot : World := mkWorld [] [] 0.

(** A method either returns or panics; both leave an object and a world. *)
Inductive Outcome (A : Type) : Type :=
| Done (a : A) (e : ESPExample) (w : World)
| Panicked (msg : string) (e : ESPExample) (w : World).
Arguments Done {A} a e w.
Arguments Panicked {A} msg e w.

Definition object {A} (o : Outcome A) : ESPExample :=
  match o with Done _ e _ | Panicked _ e _ => e end.
Definition world {A} (o : Outcome A) : World :=
  match o with Done _ _ w | Panicked _ _ w => w end.
Definition returned {A} (o : Outcome A) : bool :=
  match o with Done _ _ _ => true | Panicked _ _ _ => false end.

Definition M (A : Type) : Type := ESPExample -> World -> Outcome A.

Definition ret {A} (a : A) : M A := fun e w => Done a e w.

Definition bind {A B} (m : M A) (k : A -> M B) : M B :=
  fun e w =>
    match m e w with
    | Done a e' w' => k a e' w'
    | Panicked msg e' w' => Panicked msg e' w'
    end.

Declare Scope go_scope.
Delimit Scope go_scope with go.
Notation "x <- m ;; k" := (bind m (fun x => k))
  (at level 61, m at next level, right associativity) : go_scope.
Notation "' pat <- m ;; k" := (bind m (fun x => match x with pat => k end))
  (at level 61, pat pattern, m at next level, right associativity) : go_scope.
Notation "m ;; k" := (bind m (fun _ => k))
  (at level 61, right associativity) : go_scope.
Open Scope go_scope.

Definition LF : string := fmt.newline.

Definition Println (s : string) : M unit :=
  fun e w => Done tt e (mkWorld (stdout w ++ [fmt.Println s]) (wire w) (ticks w)).

Definition Printf (format : string) (args : list fmt.Arg) : M unit :=
  fun e w => Done tt e (mkWorld (stdout w ++ [fmt.Printf format args]) (wire w) (ticks w)).

Definition panic {A} (msg : string) : M A := fun e w => Panicked msg e w.

(** [*p]: a nil pointer stops the program. *)
Definition deref {A} (p : option A) : M A :=
  match p with
  | Some a => ret a
  | None => panic "runtime error: invalid memory address or nil pointer dereference"
  end.

(** The receiver [e], and an assignment to one of its fields. *)
Definition this : M ESPExample := fun e w => Done e e w.
Definition assign (f : ESPExample -> ESPExample) : M unit := fun e w => Done tt (f e) w.

(** [if c { ... }] and [if p != nil { ... *p ... }]. *)
Definition when (c : bool) (body : M unit) : M unit := if c then body else ret tt.
Definition whenSome {A} (p : option A) (body : A -> M unit) : M unit :=
  match p with Some a => body a | None => ret tt end.

(** [for _, x := range xs { ... }], without and with local accumulators. *)
Fixpoint forRange {A} (xs : list A) (body : A -> M unit) : M unit :=
  match xs with
  | [] => ret tt
  | x :: xs' => body x ;; forRange xs' body
  end.

Fixpoint forRangeAcc {A S} (xs : list A) (acc : S) (body : S -> A -> M S) : M S :=
  match xs with
  | [] => ret acc
  | x :: xs' => acc' <- body acc x ;; forRangeAcc xs' acc' body
  end.

Definition isNil {A} (p : option A) : bool := match p with None => true | Some _ => false end.
Definition nonEmpty (s : string) : bool := negb (String.eqb s "").

(** Conversion to [int64], with the wrap-around of its arithmetic. *)
Definition int64 (z : Z) : Z := (z + 2 ^ 63) mod 2 ^ 64 - 2 ^ 63.

Section Program.

Variable env : Env.

(** [time.Now()]: the next reading of the clock. *)
Definition time_Now : M time.Time :=
  fun e w => Done (Now env (ticks w)) e (mkWorld (stdout w) (wire w) (S (ticks w))).

(** [Execute()]: the request goes out, the triple comes back. *)
Definition Execute {T} (c : sendpost.Call)
    (op : list sendpost.Exchange -> ApiResult T) : M (ApiResult T) :=
  fun e w =>
    let r := op (wire w) in
    Done r e (mkWorld (stdout w)
                (wire w ++ [sendpost.mkExchange c (snd (fst r)) (snd r)])
                (ticks w)).

(** The block every step runs when [err != nil].  [resp.StatusCode] is
    read through the pointer [resp] after the first line is printed. *)
Definition failed (headline : string) (resp : option http.Response) (err : error) : M unit :=
  Printf headline [] ;;
  r <- deref resp ;;
  Printf ("  Status code: %d" ++ LF) [fmt.AInt (http.StatusCode r)] ;;
  Printf ("  Error: %v" ++ LF) [fmt.AErr err].

Definition createAccountAuthContext (e : ESPExample) : sendpost.Context :=
  [("accountAuth", accountAPIKey e)].

Definition createSubAccountAuthContext (e : ESPExample) : sendpost.Context :=
  [("subAccountAuth", subAccountAPIKey e)].

Definition NewESPExample : ESPExample :=
  let accountAPIKey := Getenv env "SENDPOST_ACCOUNT_API_KEY" in
  let accountAPIKey :=
    if String.eqb accountAPIKey "" then "YOUR_ACCOUNT_API_KEY_HERE" else accountAPIKey in
  let subAccountAPIKey := Getenv env "SENDPOST_SUB_ACCOUNT_API_KEY" in
  let subAccountAPIKey :=
    if String.eqb subAccountAPIKey "" then "YOUR_SUB_ACCOUNT_API_KEY_HERE"
    else subAccountAPIKey in
  let cfg := sendpost.mkConfiguration [sendpost.mkServer (basePath (constants env))] in
  let client := NewAPIClient env cfg in
  mkESPExample client accountAPIKey subAccountAPIKey None "" None "" None "" "".

(** ListSubAccounts lists all sub-accounts. *)
Definition ListSubAccounts : M unit :=
  Println (LF ++ "=== Step 1: Listing All Sub-Accounts ===") ;;
  e <- this ;;
  let ctx := createAccountAuthContext e in
  Println "Retrieving all sub-accounts..." ;;
  '(subAccounts, resp, err) <-
    Execute (sendpost.GetAllSubAccounts ctx)
      (fun h => sendpost.SubAccountAPI_GetAllSubAccounts (client e) h ctx) ;;
  match err with
  | Some err => failed ("✗ Failed to list sub-accounts:" ++ LF) resp err
  | None =>
      Printf ("✓ Retrieved %d sub-account(s)" ++ LF)
        [fmt.AInt (Z.of_nat (List.length subAccounts))] ;;
      forRange subAccounts (fun subAccount =>
        id <- deref (SubAccount.Id subAccount) ;;
        Printf ("  - ID: %d" ++ LF) [fmt.AInt id] ;;
        whenSome (SubAccount.Name subAccount) (fun name =>
          Printf ("    Name: %s" ++ LF) [fmt.AStr name]) ;;
        whenSome (SubAccount.ApiKey subAccount) (fun key =>
          Printf ("    API Key: %s" ++ LF) [fmt.AStr key]) ;;
        whenSome (SubAccount.Type_ subAccount) (fun ty =>
          let accountType := if ty =? 1 then "Plus" else "Regular" in
          Printf ("    Type: %s" ++ LF) [fmt.AStr accountType]) ;;
        whenSome (SubAccount.Blocked subAccount) (fun b =>
          let blocked := if b then "Yes" else "No" in
          Printf ("    Blocked: %s" ++ LF) [fmt.AStr blocked]) ;;
        whenSome (SubAccount.Created subAccount) (fun created =>
          Printf ("    Created: %d" ++ LF) [fmt.AInt created]) ;;
        Println "" ;;
        (* Use first sub-account if none selected *)
        e <- this ;;
        when (isNil (createdSubAccountID e) && negb (isNil (SubAccount.Id subAccount)))
          (assign (set_createdSubAccountID (SubAccount.Id subAccount)) ;;
           whenSome (SubAccount.ApiKey subAccount) (fun key =>
             assign (set_createdSubAccountKey key))))
  end.

(** CreateSubAccount creates a new sub-account. *)
Definition CreateSubAccount : M unit :=
  Println (LF ++ "=== Step 2: Creating Sub-Account ===") ;;
  e <- this ;;
  let ctx := createAccountAuthContext e in
  now <- time_Now ;;
  let name := fmt.Sprintf "ESP Client - %d" [fmt.AInt (time.Unix now)] in
  let createSubAccountRequest := CreateSubAccountRequest.NewCreateSubAccountRequest in
  let createSubAccountRequest := CreateSubAccountRequest.SetName createSubAccountRequest name in
  Printf ("Creating sub-account: %s" ++ LF) [fmt.AStr name] ;;
  '(subAccount, resp, err) <-
    Execute (sendpost.CreateSubAccount ctx createSubAccountRequest)
      (fun h => sendpost.SubAccountAPI_CreateSubAccount (client e) h ctx
                  createSubAccountRequest) ;;
  match err with
  | Some err => failed ("✗ Failed to create sub-account:" ++ LF) resp err
  | None =>
      subAccount <- deref subAccount ;;
      when (negb (isNil (SubAccount.Id subAccount)))
        (assign (set_createdSubAccountID (SubAccount.Id subAccount))) ;;
      whenSome (SubAccount.ApiKey subAccount) (fun key =>
        assign (set_createdSubAccountKey key)) ;;
      Println "✓ Sub-account created successfully!" ;;
      whenSome (SubAccount.Id subAccount) (fun id =>
        Printf ("  ID: %d" ++ LF) [fmt.AInt id]) ;;
      whenSome (SubAccount.Name subAccount) (fun name =>
        Printf ("  Name: %s" ++ LF) [fmt.AStr name]) ;;
      whenSome (SubAccount.ApiKey subAccount) (fun key =>
        Printf ("  API Key: %s" ++ LF) [fmt.AStr key]) ;;
      whenSome (SubAccount.Type_ subAccount) (fun ty =>
        let accountType := if ty =? 1 then "Plus" else "Regular" in
        Printf ("  Type: %s" ++ LF) [fmt.AStr accountType])
  end.

(** CreateWebhook creates a webhook for event notifications. *)
Definition CreateWebhook : M unit :=
  Println (LF ++ "=== Step 3: Creating Webhook ===") ;;
  e <- this ;;
  let ctx := createAccountAuthContext e in
  let enabled := true in
  let r := CreateWebhookRequest.NewCreateWebhookRequest in
  let r := CreateWebhookRequest.SetUrl r (webhookURL (constants env)) in
  let r := CreateWebhookRequest.SetEnabled r enabled in
  let r := CreateWebhookRequest.SetProcessed r enabled in
  let r := CreateWebhookRequest.SetDelivered r enabled in
  let r := CreateWebhookRequest.SetDropped r enabled in
  let r := CreateWebhookRequest.SetSoftBounced r enabled in
  let r := CreateWebhookRequest.SetHardBounced r enabled in
  let r := CreateWebhookRequest.SetOpened r enabled in
  let r := CreateWebhookRequest.SetClicked r enabled in
  let r := CreateWebhookRequest.SetUnsubscribed r enabled in
  let createWebhookRequest := CreateWebhookRequest.SetSpam r enabled in
  Println "Creating webhook..." ;;
  Printf ("  URL: %s" ++ LF) [fmt.AStr (webhookURL (constants env))] ;;
  '(webhook, resp, err) <-
    Execute (sendpost.CreateWebhook ctx createWebhookRequest)
      (fun h => sendpost.WebhookAPI_CreateWebhook (client e) h ctx createWebhookRequest) ;;
  match err with
  | Some err => failed ("✗ Failed to create webhook:" ++ LF) resp err
  | None =>
      webhook <- deref webhook ;;
      whenSome (Webhook.Id webhook) (fun id =>
        assign (set_createdWebhookID (Some (int64 id)))) ;;
      Println "✓ Webhook created successfully!" ;;
      whenSome (Webhook.Id webhook) (fun id =>
        Printf ("  ID: %d" ++ LF) [fmt.AInt id]) ;;
      whenSome (Webhook.Url webhook) (fun url =>
        Printf ("  URL: %s" ++ LF) [fmt.AStr url]) ;;
      whenSome (Webhook.Enabled webhook) (fun en =>
        Printf ("  Enabled: %v" ++ LF) [fmt.ABool en])
  end.

(** ListWebhooks lists all webhooks. *)
Definition ListWebhooks : M unit :=
  Println (LF ++ "=== Step 4: Listing All Webhooks ===") ;;
  e <- this ;;
  let ctx := createAccountAuthContext e in
  Println "Retrieving all webhooks..." ;;
  '(webhooks, resp, err) <-
    Execute (sendpost.GetAllWebhooks ctx)
      (fun h => sendpost.WebhookAPI_GetAllWebhooks (client e) h ctx) ;;
  match err with
  | Some err => failed ("✗ Failed to list webhooks:" ++ LF) resp err
  | None =>
      Printf ("✓ Retrieved %d webhook(s)" ++ LF) [fmt.AInt (Z.of_nat (List.length webhooks))] ;;
      forRange webhooks (fun webhook =>
        whenSome (Webhook.Id webhook) (fun id =>
          Printf ("  - ID: %d" ++ LF) [fmt.AInt id]) ;;
        whenSome (Webhook.Url webhook) (fun url =>
          Printf ("    URL: %s" ++ LF) [fmt.AStr url]) ;;
        whenSome (Webhook.Enabled webhook) (fun en =>
          Printf ("    Enabled: %v" ++ LF) [fmt.ABool en]) ;;
        Println "")
  end.

(** AddDomain adds a sending domain. *)
Definition AddDomain : M unit :=
  Println (LF ++ "=== Step 5: Adding Domain ===") ;;
  e <- this ;;
  let ctx := createSubAccountAuthContext e in
  let domainRequest := CreateDomainRequest.NewCreateDomainRequest in
  let domainRequest :=
    CreateDomainRequest.SetName domainRequest (testDomainName (constants env)) in
  Printf ("Adding domain: %s" ++ LF) [fmt.AStr (testDomainName (constants env))] ;;
  '(domain, resp, err) <-
    Execute (sendpost.SubaccountDomainPost ctx domainRequest)
      (fun h => sendpost.DomainAPI_SubaccountDomainPost (client e) h ctx domainRequest) ;;
  match err with
  | Some err => failed ("✗ Failed to add domain:" ++ LF) resp err
  | None =>
      domain <- deref domain ;;
      whenSome (Domain.Id domain) (fun id =>
        assign (set_createdDomainID (strconv.FormatInt (int64 id)))) ;;
      Println "✓ Domain added successfully!" ;;
      whenSome (Domain.Id domain) (fun id =>
        Printf ("  ID: %d" ++ LF) [fmt.AInt id]) ;;
      whenSome (Domain.Name domain) (fun name =>
        Printf ("  Domain: %s" ++ LF) [fmt.AStr name]) ;;
      whenSome (Domain.Verified domain) (fun v =>
        let verified := if v then "Yes" else "No" in
        Printf ("  Verified: %s" ++ LF) [fmt.AStr verified]) ;;
      whenSome (Domain.Dkim domain) (fun dkim =>
        whenSome (DomainDkim.TextValue dkim) (fun txt =>
          Printf ("  DKIM Record: %s" ++ LF) [fmt.AStr txt])) ;;
      Println (LF ++ "⚠️  IMPORTANT: Add the DNS records shown above to your domain's DNS settings to verify the domain.")
  end.

(** ListDomains lists all domains. *)
Definition ListDomains : M unit :=
  Println (LF ++ "=== Step 6: Listing All Domains ===") ;;
  e <- this ;;
  let ctx := createSubAccountAuthContext e in
  Println "Retrieving all domains..." ;;
  '(domains, resp, err) <-
    Execute (sendpost.GetAllDomains ctx)
      (fun h => sendpost.DomainAPI_GetAllDomains (client e) h ctx) ;;
  match err with
  | Some err => failed ("✗ Failed to list domains:" ++ LF) resp err
  | None =>
      Printf ("✓ Retrieved %d domain(s)" ++ LF) [fmt.AInt (Z.of_nat (List.length domains))] ;;
      forRange domains (fun domain =>
        whenSome (Domain.Id domain) (fun id =>
          Printf ("  - ID: %d" ++ LF) [fmt.AInt id]) ;;
        whenSome (Domain.Name domain) (fun name =>
          Printf ("    Domain: %s" ++ LF) [fmt.AStr name]) ;;
        whenSome (Domain.Verified domain) (fun v =>
          let verified := if v then "Yes" else "No" in
          Printf ("    Verified: %s" ++ LF) [fmt.AStr verified]) ;;
        Println "")
  end.

(** SendTransactionalEmail sends a transactional email. *)
Definition SendTransactionalEmail : M unit :=
  Println (LF ++ "=== Step 7: Sending Transactional Email ===") ;;
  e <- this ;;
  let ctx := createSubAccountAuthContext e in
  let from := EmailAddress.NewEmailAddress in
  let from := EmailAddress.SetEmail from (testFromEmail (constants env)) in
  let from := EmailAddress.SetName from "Your Company" in
  let to := Recipient.NewRecipient in
  let to := Recipient.SetEmail to (testToEmail (constants env)) in
  let to := Recipient.SetName to "Customer" in
  let customFields := [("customer_id", "67890"); ("order_value", "99.99")] in
  let to := Recipient.SetCustomFields to customFields in
  let toList := [to] in
  let m := EmailMessageObject.NewEmailMessageObject in
  let m := EmailMessageObject.SetFrom m from in
  let m := EmailMessageObject.SetTo m toList in
  let m := EmailMessageObject.SetSubject m "Order Confirmation - Transactional Email" in
  let m := EmailMessageObject.SetHtmlBody m
    "<h1>Thank you for your order!</h1><p>Your order has been confirmed and will be processed shortly.</p>" in
  let m := EmailMessageObject.SetTextBody m
    "Thank you for your order! Your order has been confirmed and will be processed shortly." in
  let trackOpens := true in
  let trackClicks := true in
  let m := EmailMessageObject.SetTrackOpens m trackOpens in
  let m := EmailMessageObject.SetTrackClicks m trackClicks in
  let headers := [("X-Order-ID", "12345"); ("X-Email-Type", "transactional")] in
  let m := EmailMessageObject.SetHeaders m headers in
  (* Use IP pool if available *)
  let emailMessage :=
    if nonEmpty (createdIPPoolName e)
    then EmailMessageObject.SetIppool m (createdIPPoolName e) else m in
  when (nonEmpty (createdIPPoolName e))
    (Printf ("  Using IP Pool: %s" ++ LF) [fmt.AStr (createdIPPoolName e)]) ;;
  Println "Sending transactional email..." ;;
  Printf ("  From: %s" ++ LF) [fmt.AStr (testFromEmail (constants env))] ;;
  Printf ("  To: %s" ++ LF) [fmt.AStr (testToEmail (constants env))] ;;
  Printf ("  Subject: %s" ++ LF) [fmt.AStr (EmailMessageObject.GetSubject emailMessage)] ;;
  '(responses, resp, err) <-
    Execute (sendpost.SendEmail ctx emailMessage)
      (fun h => sendpost.EmailAPI_SendEmail (client e) h ctx emailMessage) ;;
  match err with
  | Some err => failed ("✗ Failed to send email:" ++ LF) resp err
  | None =>
      match responses with
      | response :: _ =>
          whenSome (EmailResponse.MessageId response) (fun id =>
            assign (set_sentMessageID id)) ;;
          Println "✓ Transactional email sent successfully!" ;;
          whenSome (EmailResponse.MessageId response) (fun id =>
            Printf ("  Message ID: %s" ++ LF) [fmt.AStr id]) ;;
          whenSome (EmailResponse.To response) (fun to =>
            Printf ("  To: %s" ++ LF) [fmt.AStr to])
      | [] => ret tt
      end
  end.

(** SendMarketingEmail sends a marketing email. *)
Definition SendMarketingEmail : M unit :=
  Println (LF ++ "=== Step 8: Sending Marketing Email ===") ;;
  e <- this ;;
  let ctx := createSubAccountAuthContext e in
  let from := EmailAddress.NewEmailAddress in
  let from := EmailAddress.SetEmail from (testFromEmail (constants env)) in
  let from := EmailAddress.SetName from "Marketing Team" in
  let to := Recipient.NewRecipient in
  let to := Recipient.SetEmail to (testToEmail (constants env)) in
  let to := Recipient.SetName to "Customer 1" in
  let toList := [to] in
  let m := EmailMessageObject.NewEmailMessageObject in
  let m := EmailMessageObject.SetFrom m from in
  let m := EmailMessageObject.SetTo m toList in
  let m := EmailMessageObject.SetSubject m "Special Offer - 20% Off Everything!" in
  let m := EmailMessageObject.SetHtmlBody m
    ("<html><body>" ++
     "<h1>Special Offer!</h1>" ++
     "<p>Get 20% off on all products. Use code: <strong>SAVE20</strong></p>" ++
     "<p><a href=" ++ String (ascii_of_nat 34) "https://example.com/shop" ++
     String (ascii_of_nat 34) ">Shop Now</a></p>" ++
     "</body></html>") in
  let m := EmailMessageObject.SetTextBody m
    "Special Offer! Get 20% off on all products. Use code: SAVE20. Visit: https://example.com/shop" in
  let trackOpens := true in
  let trackClicks := true in
  let m := EmailMessageObject.SetTrackOpens m trackOpens in
  let m := EmailMessageObject.SetTrackClicks m trackClicks in
  let groups := ["marketing"; "promotional"] in
  let m := EmailMessageObject.SetGroups m groups in
  let headers := [("X-Email-Type", "marketing"); ("X-Campaign-ID", "campaign-001")] in
  let m := EmailMessageObject.SetHeaders m headers in
  (* Use IP pool if available *)
  let emailMessage :=
    if nonEmpty (createdIPPoolName e)
    then EmailMessageObject.SetIppool m (createdIPPoolName e) else m in
  when (nonEmpty (createdIPPoolName e))
    (Printf ("  Using IP Pool: %s" ++ LF) [fmt.AStr (createdIPPoolName e)]) ;;
  Println "Sending marketing email..." ;;
  Printf ("  From: %s" ++ LF) [fmt.AStr (testFromEmail (constants env))] ;;
  Printf ("  To: %s" ++ LF) [fmt.AStr (testToEmail (constants env))] ;;
  Printf ("  Subject: %s" ++ LF) [fmt.AStr (EmailMessageObject.GetSubject emailMessage)] ;;
  '(responses, resp, err) <-
    Execute (sendpost.SendEmail ctx emailMessage)
      (fun h => sendpost.EmailAPI_SendEmail (client e) h ctx emailMessage) ;;
  match err with
  | Some err => failed ("✗ Failed to send email:" ++ LF) resp err
  | None =>
      match responses with
      | response :: _ =>
          e <- this ;;
          when (String.eqb (sentMessageID e) "")
            (whenSome (EmailResponse.MessageId response) (fun id =>
               assign (set_sentMessageID id))) ;;
          Println "✓ Marketing email sent successfully!" ;;
          whenSome (EmailResponse.MessageId response) (fun id =>
            Printf ("  Message ID: %s" ++ LF) [fmt.AStr id]) ;;
          whenSome (EmailResponse.To response) (fun to =>
            Printf ("  To: %s" ++ LF) [fmt.AStr to])
      | [] => ret tt
      end
  end.

(** GetMessageDetails retrieves message details by message ID. *)
Definition GetMessageDetails : M unit :=
  Println (LF ++ "=== Step 9: Retrieving Message Details ===") ;;
  e <- this ;;
  if String.eqb (sentMessageID e) "" then
    Println "✗ No message ID available. Please send an email first."
  else
    let ctx := createAccountAuthContext e in
    Printf ("Retrieving message with ID: %s" ++ LF) [fmt.AStr (sentMessageID e)] ;;
    '(message, resp, err) <-
      Execute (sendpost.GetMessageById ctx (sentMessageID e))
        (fun h => sendpost.MessageAPI_GetMessageById (client e) h ctx (sentMessageID e)) ;;
    match err with
    | Some err => failed ("✗ Failed to get message:" ++ LF) resp err
    | None =>
        Println "✓ Message retrieved successfully!" ;;
        message <- deref message ;;
        whenSome (Message.MessageID message) (fun v =>
          Printf ("  Message ID: %s" ++ LF) [fmt.AStr v]) ;;
        whenSome (Message.AccountID message) (fun v =>
          Printf ("  Account ID: %d" ++ LF) [fmt.AInt v]) ;;
        whenSome (Message.SubAccountID message) (fun v =>
          Printf ("  Sub-Account ID: %d" ++ LF) [fmt.AInt v]) ;;
        whenSome (Message.IpID message) (fun v =>
          Printf ("  IP ID: %d" ++ LF) [fmt.AInt v]) ;;
        whenSome (Message.PublicIP message) (fun v =>
          Printf ("  Public IP: %s" ++ LF) [fmt.AStr v]) ;;
        whenSome (Message.LocalIP message) (fun v =>
          Printf ("  Local IP: %s" ++ LF) [fmt.AStr v]) ;;
        whenSome (Message.EmailType message) (fun v =>
          Printf ("  Email Type: %s" ++ LF) [fmt.AStr v]) ;;
        whenSome (Message.SubmittedAt message) (fun v =>
          Printf ("  Submitted At: %d" ++ LF) [fmt.AInt v]) ;;
        from <- deref (Message.From message) ;;
        whenSome (EmailAddress.Email from) (fun v =>
          Printf ("  From: %s" ++ LF) [fmt.AStr v]) ;;
        whenSome (Message.To message) (fun to =>
          whenSome (Recipient.Email to) (fun v =>
            Printf ("  To: %s" ++ LF) [fmt.AStr v] ;;
            whenSome (Recipient.Name to) (fun n =>
              Printf ("    Name: %s" ++ LF) [fmt.AStr n]))) ;;
        whenSome (Message.Subject message) (fun v =>
          Printf ("  Subject: %s" ++ LF) [fmt.AStr v]) ;;
        whenSome (Message.IpPool message) (fun v =>
          when (nonEmpty v) (Printf ("  IP Pool: %s" ++ LF) [fmt.AStr v])) ;;
        whenSome (Message.Attempt message) (fun v =>
          Printf ("  Delivery Attempts: %d" ++ LF) [fmt.AInt v])
    end.

(** GetSubAccountStats retrieves sub-account statistics. *)
Definition GetSubAccountStats : M unit :=
  Println (LF ++ "=== Step 10: Getting Sub-Account Statistics ===") ;;
  e <- this ;;
  match createdSubAccountID e with
  | None =>
      Println "✗ No sub-account ID available. Please create or list sub-accounts first."
  | Some subAccountID =>
      let ctx := createAccountAuthContext e in
      (* Get stats for the last 7 days *)
      toDate <- time_Now ;;
      let fromDate := time.AddDate toDate 0 0 (-7) in
      Printf ("Retrieving stats for sub-account ID: %d" ++ LF) [fmt.AInt subAccountID] ;;
      Printf ("  From: %s" ++ LF) [fmt.AStr (time.Format fromDate)] ;;
      Printf ("  To: %s" ++ LF) [fmt.AStr (time.Format toDate)] ;;
      '(stats, resp, err) <-
        Execute (sendpost.AccountSubaccountStatSubaccountIdGet ctx (int64 subAccountID)
                   (time.Format fromDate) (time.Format toDate))
          (fun h => sendpost.StatsAPI_AccountSubaccountStatSubaccountIdGet (client e) h ctx
                      (int64 subAccountID) (time.Format fromDate) (time.Format toDate)) ;;
      match err with
      | Some err => failed ("✗ Failed to get stats:" ++ LF) resp err
      | None =>
          Println "✓ Stats retrieved successfully!" ;;
          Printf ("  Retrieved %d stat record(s)" ++ LF)
            [fmt.AInt (Z.of_nat (List.length stats))] ;;
          '(totalProcessed, totalDelivered) <-
            forRangeAcc stats (0, 0) (fun totals stat =>
              let '(totalProcessed, totalDelivered) := totals in
              whenSome (Stat.Date stat) (fun d =>
                Printf (LF ++ "  Date: %s" ++ LF) [fmt.AStr d]) ;;
              match Stat.Stat stat with
              | None => ret (totalProcessed, totalDelivered)
              | Some statData =>
                  totalProcessed <-
                    match StatStats.Processed statData with
                    | Some v =>
                        Printf ("    Processed: %d" ++ LF) [fmt.AInt v] ;;
                        ret (int64 (totalProcessed + int64 v))
                    | None => ret totalProcessed
                    end ;;
                  totalDelivered <-
                    match StatStats.Delivered statData with
                    | Some v =>
                        Printf ("    Delivered: %d" ++ LF) [fmt.AInt v] ;;
                        ret (int64 (totalDelivered + int64 v))
                    | None => ret totalDelivered
                    end ;;
                  whenSome (StatStats.Dropped statData) (fun v =>
                    Printf ("    Dropped: %d" ++ LF) [fmt.AInt v]) ;;
                  whenSome (StatStats.HardBounced statData) (fun v =>
                    Printf ("    Hard Bounced: %d" ++ LF) [fmt.AInt v]) ;;
                  whenSome (StatStats.SoftBounced statData) (fun v =>
                    Printf ("    Soft Bounced: %d" ++ LF) [fmt.AInt v]) ;;
                  whenSome (StatStats.Unsubscribed statData) (fun v =>
                    Printf ("    Unsubscribed: %d" ++ LF) [fmt.AInt v]) ;;
                  whenSome (StatStats.Spam statData) (fun v =>
                    Printf ("    Spam: %d" ++ LF) [fmt.AInt v]) ;;
                  ret (totalProcessed, totalDelivered)
              end) ;;
          Println (LF ++ "  Summary (Last 7 days):") ;;
          Printf ("    Total Processed: %d" ++ LF) [fmt.AInt totalProcessed] ;;
          Printf ("    Total Delivered: %d" ++ LF) [fmt.AInt totalDelivered]
      end
  end.

(** GetAggregateStats retrieves aggregate statistics. *)
Definition GetAggregateStats : M unit :=
  Println (LF ++ "=== Step 11: Getting Aggregate Statistics ===") ;;
  e <- this ;;
  match createdSubAccountID e with
  | None =>
      Println "✗ No sub-account ID available. Please create or list sub-accounts first."
  | Some subAccountID =>
      let ctx := createAccountAuthContext e in
      (* Get aggregate stats for the last 7 days *)
      toDate <- time_Now ;;
      let fromDate := time.AddDate toDate 0 0 (-7) in
      Printf ("Retrieving aggregate stats for sub-account ID: %d" ++ LF)
        [fmt.AInt subAccountID] ;;
      Printf ("  From: %s" ++ LF) [fmt.AStr (time.Format fromDate)] ;;
      Printf ("  To: %s" ++ LF) [fmt.AStr (time.Format toDate)] ;;
      '(aggregateStat, resp, err) <-
        Execute (sendpost.AccountSubaccountStatSubaccountIdAggregateGet ctx
                   (int64 subAccountID) (time.Format fromDate) (time.Format toDate))
          (fun h => sendpost.StatsAPI_AccountSubaccountStatSubaccountIdAggregateGet
                      (client e) h ctx (int64 subAccountID)
                      (time.Format fromDate) (time.Format toDate)) ;;
      match err with
      | Some err => failed ("✗ Failed to get aggregate stats:" ++ LF) resp err
      | None =>
          Println "✓ Aggregate stats retrieved successfully!" ;;
          aggregateStat <- deref aggregateStat ;;
          whenSome (AggregateStat.Processed aggregateStat) (fun v =>
            Printf ("  Processed: %d" ++ LF) [fmt.AInt v]) ;;
          whenSome (AggregateStat.Delivered aggregateStat) (fun v =>
            Printf ("  Delivered: %d" ++ LF) [fmt.AInt v]) ;;
          whenSome (AggregateStat.Dropped aggregateStat) (fun v =>
            Printf ("  Dropped: %d" ++ LF) [fmt.AInt v]) ;;
          whenSome (AggregateStat.HardBounced aggregateStat) (fun v =>
            Printf ("  Hard Bounced: %d" ++ LF) [fmt.AInt v]) ;;
          whenSome (AggregateStat.SoftBounced aggregateStat) (fun v =>
            Printf ("  Soft Bounced: %d" ++ LF) [fmt.AInt v]) ;;
          whenSome (AggregateStat.Unsubscribed aggregateStat) (fun v =>
            Printf ("  Unsubscribed: %d" ++ LF) [fmt.AInt v]) ;;
          whenSome (AggregateStat.Spam aggregateStat) (fun v =>
            Printf ("  Spam: %d" ++ LF) [fmt.AInt v])
      end
  end.

(** ListIPs lists all IPs. *)
Definition ListIPs : M unit :=
  Println (LF ++ "=== Step 12: Listing All IPs ===") ;;
  e <- this ;;
  let ctx := createAccountAuthContext e in
  Println "Retrieving all IPs..." ;;
  '(ips, resp, err) <-
    Execute (sendpost.GetAllIps ctx)
      (fun h => sendpost.IPAPI_GetAllIps (client e) h ctx) ;;
  match err with
  | Some err => failed ("✗ Failed to list IPs:" ++ LF) resp err
  | None =>
      Printf ("✓ Retrieved %d IP(s)" ++ LF) [fmt.AInt (Z.of_nat (List.length ips))] ;;
      forRange ips (fun ip =>
        Printf ("  - ID: %d" ++ LF) [fmt.AInt (IP.Id ip)] ;;
        when (nonEmpty (IP.PublicIP ip))
          (Printf ("    IP Address: %s" ++ LF) [fmt.AStr (IP.PublicIP ip)]) ;;
        whenSome (IP.ReverseDNSHostname ip) (fun v =>
          Printf ("    Reverse DNS: %s" ++ LF) [fmt.AStr v]) ;;
        when (negb (IP.Created ip =? 0))
          (Printf ("    Created: %d" ++ LF) [fmt.AInt (IP.Created ip)]) ;;
        Println "")
  end.

(** CreateIPPool creates an IP pool. *)
Definition CreateIPPool : M unit :=
  Println (LF ++ "=== Step 13: Creating IP Pool ===") ;;
  e <- this ;;
  let ctx := createAccountAuthContext e in
  (* First, get available IPs *)
  Println "Retrieving available IPs..." ;;
  '(ips, resp, err) <-
    Execute (sendpost.GetAllIps ctx)
      (fun h => sendpost.IPAPI_GetAllIps (client e) h ctx) ;;
  match err with
  | Some err => failed ("✗ Failed to get IPs:" ++ LF) resp err
  | None =>
      if (List.length ips =? 0)%nat then
        Println "⚠️  No IPs available. Please allocate IPs first."
      else
        (* Create IP pool request *)
        now <- time_Now ;;
        let poolName := fmt.Sprintf "Marketing Pool %d" [fmt.AInt (time.Unix now)] in
        let routingStrategy := 0 in
        let poolIPs : list EIP.t := [] in
        (* Add first available IP *)
        let poolIPs :=
          match ips with
          | ip0 :: _ =>
              if nonEmpty (IP.PublicIP ip0)
              then (poolIPs ++ [EIP.NewEIP (IP.PublicIP ip0)])%list else poolIPs
          | [] => poolIPs
          end in
        let poolRequest := IPPoolCreateRequest.NewIPPoolCreateRequest in
        let poolRequest := IPPoolCreateRequest.SetName poolRequest poolName in
        let poolRequest := IPPoolCreateRequest.SetRoutingStrategy poolRequest routingStrategy in
        let poolRequest := IPPoolCreateRequest.SetIps poolRequest poolIPs in
        (* Set warmup interval (required, must be > 0) *)
        let warmupInterval := 24 in
        let poolRequest := IPPoolCreateRequest.SetWarmupInterval poolRequest warmupInterval in
        (* Set overflow strategy (0 = None, 1 = Use overflow pool) *)
        let overflowStrategy := 0 in
        let poolRequest :=
          IPPoolCreateRequest.SetOverflowStrategy poolRequest overflowStrategy in
        Printf ("Creating IP pool: %s" ++ LF) [fmt.AStr poolName] ;;
        Println "  Routing Strategy: Round Robin" ;;
        Printf ("  IPs: %d" ++ LF) [fmt.AInt (Z.of_nat (List.length poolIPs))] ;;
        Printf ("  Warmup Interval: %d hours" ++ LF) [fmt.AInt warmupInterval] ;;
        '(ipPool, resp, err) <-
          Execute (sendpost.CreateIPPool ctx poolRequest)
            (fun h => sendpost.IPPoolsAPI_CreateIPPool (client e) h ctx poolRequest) ;;
        match err with
        | Some err => failed ("✗ Failed to create IP pool:" ++ LF) resp err
        | None =>
            ipPool <- deref ipPool ;;
            whenSome (IPPool.Id ipPool) (fun id =>
              assign (set_createdIPPoolID (Some (int64 id)))) ;;
            whenSome (IPPool.Name ipPool) (fun name =>
              assign (set_createdIPPoolName name)) ;;
            Println "✓ IP pool created successfully!" ;;
            whenSome (IPPool.Id ipPool) (fun id =>
              Printf ("  ID: %d" ++ LF) [fmt.AInt id]) ;;
            whenSome (IPPool.Name ipPool) (fun name =>
              Printf ("  Name: %s" ++ LF) [fmt.AStr name]) ;;
            whenSome (IPPool.RoutingStrategy ipPool) (fun rs =>
              Printf ("  Routing Strategy: %d" ++ LF) [fmt.AInt rs]) ;;
            whenSome (IPPool.Ips ipPool) (fun poolIps =>
              Printf ("  IPs in pool: %d" ++ LF) [fmt.AInt (Z.of_nat (List.length poolIps))])
        end
  end.

(** ListIPPools lists all IP pools. *)
Definition ListIPPools : M unit :=
  Println (LF ++ "=== Step 14: Listing All IP Pools ===") ;;
  e <- this ;;
  let ctx := createAccountAuthContext e in
  Println "Retrieving all IP pools..." ;;
  '(ipPools, resp, err) <-
    Execute (sendpost.GetAllIPPools ctx)
      (fun h => sendpost.IPPoolsAPI_GetAllIPPools (client e) h ctx) ;;
  match err with
  | Some err => failed ("✗ Failed to list IP pools:" ++ LF) resp err
  | None =>
      Printf ("✓ Retrieved %d IP pool(s)" ++ LF) [fmt.AInt (Z.of_nat (List.length ipPools))] ;;
      forRange ipPools (fun ipPool =>
        whenSome (IPPool.Id ipPool) (fun id =>
          Printf ("  - ID: %d" ++ LF) [fmt.AInt id]) ;;
        whenSome (IPPool.Name ipPool) (fun name =>
          Printf ("    Name: %s" ++ LF) [fmt.AStr name]) ;;
        whenSome (IPPool.RoutingStrategy ipPool) (fun rs =>
          Printf ("    Routing Strategy: %d" ++ LF) [fmt.AInt rs]) ;;
        whenSome (IPPool.Ips ipPool) (fun poolIps =>
          Printf ("    IPs in pool: %d" ++ LF) [fmt.AInt (Z.of_nat (List.length poolIps))] ;;
          forRange poolIps (fun ip =>
            when (nonEmpty (IP.PublicIP ip))
              (Printf ("      - %s" ++ LF) [fmt.AStr (IP.PublicIP ip)]))) ;;
        Println "")
  end.

(** GetAccountStats retrieves account-level statistics. *)
Definition GetAccountStats : M unit :=
  Println (LF ++ "=== Step 15: Getting Account-Level Statistics ===") ;;
  e <- this ;;
  let ctx := createAccountAuthContext e in
  (* Get stats for the last 7 days *)
  toDate <- time_Now ;;
  let fromDate := time.AddDate toDate 0 0 (-7) in
  Println "Retrieving account-level stats..." ;;
  Printf ("  From: %s" ++ LF) [fmt.AStr (time.Format fromDate)] ;;
  Printf ("  To: %s" ++ LF) [fmt.AStr (time.Format toDate)] ;;
  '(accountStats, resp, err) <-
    Execute (sendpost.GetAllAccountStats ctx (time.Format fromDate) (time.Format toDate))
      (fun h => sendpost.StatsAAPI_GetAllAccountStats (client e) h ctx
                  (time.Format fromDate) (time.Format toDate)) ;;
  match err with
  | Some err => failed ("✗ Failed to get account stats:" ++ LF) resp err
  | None =>
      Println "✓ Account stats retrieved successfully!" ;;
      Printf ("  Retrieved %d stat record(s)" ++ LF)
        [fmt.AInt (Z.of_nat (List.length accountStats))] ;;
      forRange accountStats (fun stat =>
        whenSome (AccountStats.Date stat) (fun d =>
          Printf (LF ++ "  Date: %s" ++ LF) [fmt.AStr d]) ;;
        whenSome (AccountStats.Stat stat) (fun statData =>
          whenSome (AccountStatsStat.Processed statData) (fun v =>
            Printf ("    Processed: %d" ++ LF) [fmt.AInt v]) ;;
          whenSome (AccountStatsStat.Delivered statData) (fun v =>
            Printf ("    Delivered: %d" ++ LF) [fmt.AInt v]) ;;
          whenSome (AccountStatsStat.Dropped statData) (fun v =>
            Printf ("    Dropped: %d" ++ LF) [fmt.AInt v]) ;;
          whenSome (AccountStatsStat.HardBounced statData) (fun v =>
            Printf ("    Hard Bounced: %d" ++ LF) [fmt.AInt v]) ;;
          whenSome (AccountStatsStat.SoftBounced statData) (fun v =>
            Printf ("    Soft Bounced: %d" ++ LF) [fmt.AInt v]) ;;
          whenSome (AccountStatsStat.Opened statData) (fun v =>
            Printf ("    Opens: %d" ++ LF) [fmt.AInt v]) ;;
          whenSome (AccountStatsStat.Clicked statData) (fun v =>
            Printf ("    Clicks: %d" ++ LF) [fmt.AInt v]) ;;
          whenSome (AccountStatsStat.Unsubscribed statData) (fun v =>
            Printf ("    Unsubscribed: %d" ++ LF) [fmt.AInt v]) ;;
          whenSome (AccountStatsStat.Spams statData) (fun v =>
            Printf ("    Spams: %d" ++ LF) [fmt.AInt v])))
  end.

(** The test [RunCompleteWorkflow] makes on the API keys. *)
Definition keysArePlaceholders (e : ESPExample) : bool :=
  String.eqb (accountAPIKey e) "YOUR_ACCOUNT_API_KEY_HERE"
  || String.eqb (subAccountAPIKey e) "YOUR_SUB_ACCOUNT_API_KEY_HERE".

(** The three-line box [RunCompleteWorkflow] prints at its start and at
    its end; at the end the first [Println] starts with a line feed. *)
Definition banner (top title : string) : M unit :=
  Println top ;;
  Println title ;;
  Println "╚═══════════════════════════════════════════════════════════════╝".

(** RunCompleteWorkflow runs the complete ESP workflow. *)
Definition RunCompleteWorkflow : M unit :=
  banner "╔═══════════════════════════════════════════════════════════════╗"
         "║   SendPost Go SDK - ESP Example Workflow                     ║" ;;
  e <- this ;;
  (* Check if API keys are set *)
  when (keysArePlaceholders e)
    (Println (LF ++ "⚠️  WARNING: Please set your API keys!") ;;
     Println "   Set environment variables:" ;;
     Println "   - SENDPOST_ACCOUNT_API_KEY" ;;
     Println "   - SENDPOST_SUB_ACCOUNT_API_KEY" ;;
     Println "   Or modify the constants in main.go" ;;
     Println "") ;;
  (* Step 1: List existing sub-accounts (or create new one) *)
  ListSubAccounts ;;
  (* Step 2: Create webhook for event notifications *)
  CreateWebhook ;;
  ListWebhooks ;;
  (* Step 3: Add and verify domain *)
  AddDomain ;;
  ListDomains ;;
  (* Step 4: Manage IPs and IP pools (before sending emails) *)
  ListIPs ;;
  CreateIPPool ;;
  ListIPPools ;;
  (* Step 5: Send emails (using the created IP pool) *)
  SendTransactionalEmail ;;
  SendMarketingEmail ;;
  (* Step 6: Monitor statistics *)
  GetSubAccountStats ;;
  GetAggregateStats ;;
  (* Step 7: Get account-level overview *)
  GetAccountStats ;;
  (* Step 8: Retrieve message details (at the end to give system time to store data) *)
  GetMessageDetails ;;
  banner (LF ++ "╔═══════════════════════════════════════════════════════════════╗")
         "║   Workflow Complete!                                          ║".

(** [main]: build the object, run the workflow from a silent world. *)
Definition main : Outcome unit := RunCompleteWorkflow NewESPExample boot.

(** The methods of [ESPExample] that are workflow steps, by name. *)
Inductive Step : Type :=
| StepListSubAccounts | StepCreateSubAccount | StepCreateWebhook | StepListWebhooks
| StepAddDomain | StepListDomains | StepListIPs | StepCreateIPPool | StepListIPPools
| StepSendTransactionalEmail | StepSendMarketingEmail | StepGetSubAccountStats
| StepGetAggregateStats | StepGetAccountStats | StepGetMessageDetails.

Definition run (s : Step) : M unit :=
  match s with
  | StepListSubAccounts => ListSubAccounts
  | StepCreateSubAccount => CreateSubAccount
  | StepCreateWebhook => CreateWebhook
  | StepListWebhooks => ListWebhooks
  | StepAddDomain => AddDomain
  | StepListDomains => ListDomains
  | StepListIPs => ListIPs
  | StepCreateIPPool => CreateIPPool
  | StepListIPPools => ListIPPools
  | StepSendTransactionalEmail => SendTransactionalEmail
  | StepSendMarketingEmail => SendMarketingEmail
  | StepGetSubAccountStats => GetSubAccountStats
  | StepGetAggregateStats => GetAggregateStats
  | StepGetAccountStats => GetAccountStats
  | StepGetMessageDetails => GetMessageDetails
  end.

End Program.

(** ** Vocabulary of the statements *)

Open Scope list_scope.

(** What a computation added to the wire and to the console. *)
Definition issued (w w' : World) : list sendpost.Exchange :=
  skipn (List.length (wire w)) (wire w').
Definition printed (w w' : World) : list fmt.Output :=
  skipn (List.length (stdout w)) (stdout w').

Definition requests (w : World) : list sendpost.Call := map sendpost.sent (wire w).

(** The world after one more exchange. *)
Definition exchanged (w : World) (x : sendpost.Exchange) : World :=
  mkWorld (stdout w) (wire w ++ [x]) (ticks w).

(** Kinds of requests. *)
Definition isCreateSubAccount (c : sendpost.Call) : bool :=
  match c with sendpost.CreateSubAccount _ _ => true | _ => false end.
Definition isSubAccountStats (c : sendpost.Call) : bool :=
  match c with
  | sendpost.AccountSubaccountStatSubaccountIdGet _ _ _ _
  | sendpost.AccountSubaccountStatSubaccountIdAggregateGet _ _ _ _ => true
  | _ => false
  end.
Definition isCreateIPPool (c : sendpost.Call) : bool :=
  match c with sendpost.CreateIPPool _ _ => true | _ => false end.

(** The window of the sub-account statistics, of the aggregate statistics
    and of the account statistics request among [cs], if it is there. *)
Fixpoint subAccountStatsWindow (cs : list sendpost.Call) : option (string * string) :=
  match cs with
  | [] => None
  | sendpost.AccountSubaccountStatSubaccountIdGet _ _ from to :: _ => Some (from, to)
  | _ :: cs' => subAccountStatsWindow cs'
  end.
Fixpoint aggregateStatsWindow (cs : list sendpost.Call) : option (string * string) :=
  match cs with
  | [] => None
  | sendpost.AccountSubaccountStatSubaccountIdAggregateGet _ _ from to :: _ => Some (from, to)
  | _ :: cs' => aggregateStatsWindow cs'
  end.

Fixpoint accountStatsWindow (cs : list sendpost.Call) : option (string * string) :=
  match cs with
  | [] => None
  | sendpost.GetAllAccountStats _ from to :: _ => Some (from, to)
  | _ :: cs' => accountStatsWindow cs'
  end.

(** The seven-day window that ends on local day number [d]. *)
(** A reading at which the zone has not moved: the offset of the location
    is less than a day, and it is the same at every instant of the eight
    days up to the reading. *)
Definition settled (t : time.Time) : Prop :=
  let off := time.offset (time.loc t (time.sec t)) in
  - time.secondsPerDay < off < time.secondsPerDay
  /\ forall s, time.sec t - 8 * time.secondsPerDay <= s <= time.sec t ->
       time.offset (time.loc t s) = off.

Definition trailingWeek (d : Z) : string * string :=
  (time.FormatDay (d - 7), time.FormatDay d).

(** The guard at the top of the three steps that need an identifier from
    an earlier step: the test the step makes before it builds a request. *)
Definition lacksPrerequisite (s : Step) (e : ESPExample) : bool :=
  match s with
  | StepGetSubAccountStats | StepGetAggregateStats => isNil (createdSubAccountID e)
  | StepGetMessageDetails => String.eqb (sentMessageID e) ""
  | _ => false
  end.

Definition isSendStep (s : Step) : bool :=
  match s with
  | StepSendTransactionalEmail | StepSendMarketingEmail => true
  | _ => false
  end.

(** The lines a send step prints on failure and on success. *)
Definition sendFailureLine : fmt.Output :=
  fmt.Printf ("✗ Failed to send email:" ++ LF)%string [].
Definition sendSuccessLine (s : Step) : fmt.Output :=
  match s with
  | StepSendMarketingEmail => fmt.Println "✓ Marketing email sent successfully!"
  | _ => fmt.Println "✓ Transactional email sent successfully!"
  end.

(** Some request made between [w] and [w'] came back with an error. *)
Definition someCallFailed (w w' : World) : Prop :=
  exists x, In x (issued w w') /\ sendpost.failure x <> None.

(** The steps that neither write [createdSubAccountID] nor read it. *)
Definition besideSubAccount (s : Step) : bool :=
  match s with
  | StepListSubAccounts | StepCreateSubAccount
  | StepGetSubAccountStats | StepGetAggregateStats => false
  | _ => true
  end.

(** The steps [RunCompleteWorkflow] calls after [ListSubAccounts]. *)
Definition laterSteps : list Step :=
  [StepCreateWebhook; StepListWebhooks; StepAddDomain; StepListDomains; StepListIPs;
   StepCreateIPPool; StepListIPPools; StepSendTransactionalEmail; StepSendMarketingEmail;
   StepGetSubAccountStats; StepGetAggregateStats; StepGetAccountStats;
   StepGetMessageDetails].

(** What [RunCompleteWorkflow] prints before its first step, and the
    warning it adds when an API key is a placeholder. *)
Definition openingBanner : list fmt.Output :=
  [fmt.Println "╔═══════════════════════════════════════════════════════════════╗";
   fmt.Println "║   SendPost Go SDK - ESP Example Workflow                     ║";
   fmt.Println "╚═══════════════════════════════════════════════════════════════╝"].

Definition keyWarning : list fmt.Output :=
  [fmt.Println (LF ++ "⚠️  WARNING: Please set your API keys!")%string;
   fmt.Println "   Set environment variables:";
   fmt.Println "   - SENDPOST_ACCOUNT_API_KEY";
   fmt.Println "   - SENDPOST_SUB_ACCOUNT_API_KEY";
   fmt.Println "   Or modify the constants in main.go";
   fmt.Println ""].

(** What [RunCompleteWorkflow] prints last. *)
Definition closingBanner : list fmt.Output :=
  [fmt.Println (LF ++ "╔═══════════════════════════════════════════════════════════════╗")%string;
   fmt.Println "║   Workflow Complete!                                          ║";
   fmt.Println "╚═══════════════════════════════════════════════════════════════╝"].

(** A world whose first request is [c] and whose console starts with [pre]. *)
Definition startsWith (c : sendpost.Call) (pre : list fmt.Output) (w : World) : Prop :=
  (exists x rest, wire w = x :: rest /\ sendpost.sent x = c)
  /\ (exists rest, stdout w = pre ++ rest).

(** Relations between the state before and after a computation, and the
    computations that stay within one whatever their outcome. *)
Definition Rel : Type := ESPExample -> World -> ESPExample -> World -> Prop.

Definition respects (R : Rel) {A} (m : M A) : Prop :=
  forall e w, R e w (object (m e w)) (world (m e w)).

(** Only the console and the clock move. *)
Definition unchanged : Rel :=
  fun e w e' w' => e' = e /\ wire w' = wire w.

(** Nothing goes out on the wire. *)
Definition sameWire : Rel := fun e w e' w' => wire w' = wire w.

(** The wire and the console only grow; the keys and the client stay. *)
Definition grows : Rel :=
  fun e w e' w' =>
    (exists xs, wire w' = wire w ++ xs) /\ (exists os, stdout w' = stdout w ++ os).

(** The sub-account id stays, and no request creates a sub-account or asks
    for sub-account statistics. *)
Definition aside : Rel :=
  fun e w e' w' =>
    createdSubAccountID e' = createdSubAccountID e /\
    exists xs, wire w' = wire w ++ xs /\
      forallb (fun x => negb (isCreateSubAccount (sendpost.sent x))
                        && negb (isSubAccountStats (sendpost.sent x))) xs = true.

(** As long as no sub-account id is known, none appears and no such
    request is made. *)
Definition idle : Rel :=
  fun e w e' w' => createdSubAccountID e = None -> aside e w e' w'.

(** A computation that always returns. *)
Definition returns {A} (m : M A) : Prop := forall e w, returned (m e w) = true.

(** A computation that, run on an object whose client is [c], returns and
    leaves the client in place. *)
Definition safe (c : sendpost.APIClient) {A} (m : M A) : Prop :=
  forall e w, client e = c ->
    returned (m e w) = true /\ client (object (m e w)) = c.

(** A triple whose error, if any, comes with an HTTP response. *)
Definition answered {T} (r : ApiResult T) : Prop :=
  snd r <> None -> snd (fst r) <> None.

(** A client all of whose errors come with an HTTP response, and whose
    sub-account listing has an id in every entry. *)
Definition wellBehaved (c : sendpost.APIClient) : Prop :=
  (forall h ctx, answered (sendpost.SubAccountAPI_GetAllSubAccounts c h ctx))
  /\ (forall h ctx sa,
        In sa (fst (fst (sendpost.SubAccountAPI_GetAllSubAccounts c h ctx))) ->
        SubAccount.Id sa <> None)
  /\ (forall h ctx r, answered (sendpost.SubAccountAPI_CreateSubAccount c h ctx r))
  /\ (forall h ctx r, answered (sendpost.WebhookAPI_CreateWebhook c h ctx r))
  /\ (forall h ctx, answered (sendpost.WebhookAPI_GetAllWebhooks c h ctx))
  /\ (forall h ctx r, answered (sendpost.DomainAPI_SubaccountDomainPost c h ctx r))
  /\ (forall h ctx, answered (sendpost.DomainAPI_GetAllDomains c h ctx))
  /\ (forall h ctx m, answered (sendpost.EmailAPI_SendEmail c h ctx m))
  /\ (forall h ctx id, answered (sendpost.MessageAPI_GetMessageById c h ctx id))
  /\ (forall h ctx id from to,
        answered (sendpost.StatsAPI_AccountSubaccountStatSubaccountIdGet c h ctx id from to))
  /\ (forall h ctx id from to,
        answered (sendpost.StatsAPI_AccountSubaccountStatSubaccountIdAggregateGet
                    c h ctx id from to))
  /\ (forall h ctx, answered (sendpost.IPAPI_GetAllIps c h ctx))
  /\ (forall h ctx r, answered (sendpost.IPPoolsAPI_CreateIPPool c h ctx r))
  /\ (forall h ctx, answered (sendpost.IPPoolsAPI_GetAllIPPools c h ctx))
  /\ (forall h ctx from to, answered (sendpost.StatsAAPI_GetAllAccountStats c h ctx from to)).

(** A triple whose value, when there is no error, is not nil. *)
Definition delivered {T} (r : ApiResult (option T)) : Prop :=
  snd r = None -> fst (fst r) <> None.

(** A client whose successful answers hold the object asked for, and whose
    messages name their sender. *)
Definition complete (c : sendpost.APIClient) : Prop :=
  (forall h ctx r, delivered (sendpost.SubAccountAPI_CreateSubAccount c h ctx r))
  /\ (forall h ctx r, delivered (sendpost.WebhookAPI_CreateWebhook c h ctx r))
  /\ (forall h ctx r, delivered (sendpost.DomainAPI_SubaccountDomainPost c h ctx r))
  /\ (forall h ctx id, delivered (sendpost.MessageAPI_GetMessageById c h ctx id))
  /\ (forall h ctx id message resp,
        sendpost.MessageAPI_GetMessageById c h ctx id = (Some message, resp, None) ->
        Message.From message <> None)
  /\ (forall h ctx id from to,
        delivered (sendpost.StatsAPI_AccountSubaccountStatSubaccountIdAggregateGet
                     c h ctx id from to))
  /\ (forall h ctx r, delivered (sendpost.IPPoolsAPI_CreateIPPool c h ctx r)).

(** The client stays. *)
Definition sameClient : Rel := fun e w e' w' => client e' = client e.

(** A relation a computation can be checked against piece by piece. *)
Class Frame (R : Rel) : Prop := {
  frame_refl : forall e w, R e w e w;
  frame_trans : forall e1 w1 e2 w2 e3 w3,
    R e1 w1 e2 w2 -> R e2 w2 e3 w3 -> R e1 w1 e3 w3;
  frame_print : forall e w o,
    R e w e (mkWorld (stdout w ++ [o]) (wire w) (ticks w));
  frame_tick : forall e w,
    R e w e (mkWorld (stdout w) (wire w) (S (ticks w))) }.

(** Weakest precondition: [Q] after a return, [E] after a panic. *)
Definition wp {A} (m : M A) (e : ESPExample) (w : World)
    (Q : A -> ESPExample -> World -> Prop) (E : ESPExample -> World -> Prop) : Prop :=
  match m e w with
  | Done a e' w' => Q a e' w'
  | Panicked _ e' w' => E e' w'
  end.

(** ** Vocabulary of the further properties *)

(** The object with the fields a step may write blanked out: what is left
    is what the step must leave alone. *)
Definition outside (s : Step) (e : ESPExample) : ESPExample :=
  match s with
  | StepListSubAccounts | StepCreateSubAccount =>
      set_createdSubAccountID None (set_createdSubAccountKey "" e)
  | StepCreateWebhook => set_createdWebhookID None e
  | StepAddDomain => set_createdDomainID "" e
  | StepCreateIPPool => set_createdIPPoolID None (set_createdIPPoolName "" e)
  | StepSendTransactionalEmail | StepSendMarketingEmail => set_sentMessageID "" e
  | _ => e
  end.

Definition keeps (s : Step) : Rel := fun e w e' w' => outside s e' = outside s e.

(** The operation a request belongs to, and the authentication context it
    carries. *)
Inductive Operation : Type :=
| OpGetAllSubAccounts | OpCreateSubAccount | OpCreateWebhook | OpGetAllWebhooks
| OpSubaccountDomainPost | OpGetAllDomains | OpSendEmail | OpGetMessageById
| OpSubaccountStat | OpSubaccountStatAggregate | OpGetAllIps | OpCreateIPPool
| OpGetAllIPPools | OpGetAllAccountStats.

Definition operation (c : sendpost.Call) : Operation :=
  match c with
  | sendpost.GetAllSubAccounts _ => OpGetAllSubAccounts
  | sendpost.CreateSubAccount _ _ => OpCreateSubAccount
  | sendpost.CreateWebhook _ _ => OpCreateWebhook
  | sendpost.GetAllWebhooks _ => OpGetAllWebhooks
  | sendpost.SubaccountDomainPost _ _ => OpSubaccountDomainPost
  | sendpost.GetAllDomains _ => OpGetAllDomains
  | sendpost.SendEmail _ _ => OpSendEmail
  | sendpost.GetMessageById _ _ => OpGetMessageById
  | sendpost.AccountSubaccountStatSubaccountIdGet _ _ _ _ => OpSubaccountStat
  | sendpost.AccountSubaccountStatSubaccountIdAggregateGet _ _ _ _ =>
      OpSubaccountStatAggregate
  | sendpost.GetAllIps _ => OpGetAllIps
  | sendpost.CreateIPPool _ _ => OpCreateIPPool
  | sendpost.GetAllIPPools _ => OpGetAllIPPools
  | sendpost.GetAllAccountStats _ _ _ => OpGetAllAccountStats
  end.

Definition contextOf (c : sendpost.Call) : sendpost.Context :=
  match c with
  | sendpost.GetAllSubAccounts ctx
  | sendpost.CreateSubAccount ctx _
  | sendpost.CreateWebhook ctx _
  | sendpost.GetAllWebhooks ctx
  | sendpost.SubaccountDomainPost ctx _
  | sendpost.GetAllDomains ctx
  | sendpost.SendEmail ctx _
  | sendpost.GetMessageById ctx _
  | sendpost.AccountSubaccountStatSubaccountIdGet ctx _ _ _
  | sendpost.AccountSubaccountStatSubaccountIdAggregateGet ctx _ _ _
  | sendpost.GetAllIps ctx
  | sendpost.CreateIPPool ctx _
  | sendpost.GetAllIPPools ctx
  | sendpost.GetAllAccountStats ctx _ _ => ctx
  end.

(** The operations a step calls, in the order of its source text. *)
Definition plan (s : Step) : list Operation :=
  match s with
  | StepListSubAccounts => [OpGetAllSubAccounts]
  | StepCreateSubAccount => [OpCreateSubAccount]
  | StepCreateWebhook => [OpCreateWebhook]
  | StepListWebhooks => [OpGetAllWebhooks]
  | StepAddDomain => [OpSubaccountDomainPost]
  | StepListDomains => [OpGetAllDomains]
  | StepListIPs => [OpGetAllIps]
  | StepCreateIPPool => [OpGetAllIps; OpCreateIPPool]
  | StepListIPPools => [OpGetAllIPPools]
  | StepSendTransactionalEmail => [OpSendEmail]
  | StepSendMarketingEmail => [OpSendEmail]
  | StepGetSubAccountStats => [OpSubaccountStat]
  | StepGetAggregateStats => [OpSubaccountStatAggregate]
  | StepGetAccountStats => [OpGetAllAccountStats]
  | StepGetMessageDetails => [OpGetMessageById]
  end.

Definition isCreateIPPoolStep (s : Step) : bool :=
  match s with StepCreateIPPool => true | _ => false end.

(** The context the step builds at its top: the sub-account key for the
    domain and the send steps, the account key for all others. *)
Definition scope (s : Step) (e : ESPExample) : sendpost.Context :=
  match s with
  | StepAddDomain | StepListDomains
  | StepSendTransactionalEmail | StepSendMarketingEmail => createSubAccountAuthContext e
  | _ => createAccountAuthContext e
  end.

(** [xs] can be read off [l] from left to right, leaving elements out. *)
Inductive Subsequence {A} : list A -> list A -> Prop :=
| sub_nil : forall l, Subsequence [] l
| sub_take : forall x xs l, Subsequence xs l -> Subsequence (x :: xs) (x :: l)
| sub_skip : forall y xs l, Subsequence xs l -> Subsequence xs (y :: l).

(** The requests added to the wire are, by operation, a subsequence of [l]. *)
Definition within (l : list Operation) : Rel :=
  fun e w e' w' =>
    exists xs, wire w' = wire w ++ xs
               /\ Subsequence (map (fun x => operation (sendpost.sent x)) xs) l.

(** A list that ends with [suffix]. *)
Definition endsWith {A} (l suffix : list A) : Prop := exists pre, l = pre ++ suffix.

(** The object the listing loop leaves when it runs over [subs] from [e]:
    the first entry is taken if no sub-account is selected yet. *)
Definition adopted (e : ESPExample) (subs : list SubAccount.t) : ESPExample :=
  match createdSubAccountID e, subs with
  | None, sa :: _ =>
      match SubAccount.Id sa, SubAccount.ApiKey sa with
      | Some id, Some key => set_createdSubAccountKey key (set_createdSubAccountID (Some id) e)
      | Some id, None => set_createdSubAccountID (Some id) e
      | None, _ => e
      end
  | _, _ => e
  end.

(** The two lines that end the error block. *)
Definition failureReport (r : http.Response) (err : error) : list fmt.Output :=
  [fmt.Printf ("  Status code: %d" ++ LF)%string [fmt.AInt (http.StatusCode r)];
   fmt.Printf ("  Error: %v" ++ LF)%string [fmt.AErr err]].

(** What a computation that went from [w] to [w'], and returned or not,
    has done about the requests that failed: a failed request is the last
    one, and with a response its report is the last thing printed;
    without, the computation did not return. *)
Definition reported (w : World) (ret : bool) (w' : World) : Prop :=
  forall x err, In x (issued w w') -> sendpost.failure x = Some err ->
    endsWith (issued w w') [x]
    /\ match sendpost.response x with
       | Some r => ret = true /\ endsWith (printed w w') (failureReport r err)
       | None => ret = false
       end.

(** The steps that read the answer of a request that succeeded through a
    pointer they have not tested: the id of a listed sub-account, the
    object a call for one object returns, the sender of a message. *)
Definition readsAnswer (s : Step) : bool :=
  match s with
  | StepListSubAccounts | StepCreateSubAccount | StepCreateWebhook | StepAddDomain
  | StepGetMessageDetails | StepGetAggregateStats | StepCreateIPPool => true
  | _ => false
  end.

(** Why a step can stop: the last request it made came back with an error
    and no response to read the status from, or it succeeded and the step
    is one of those that read the answer through an untested pointer. *)
Definition stopped (s : Step) (w w' : World) : Prop :=
  exists x, endsWith (issued w w') [x]
    /\ ((sendpost.failure x <> None /\ sendpost.response x = None)
        \/ (readsAnswer s = true /\ sendpost.failure x = None)).

(** The context a request of operation [op] is expected to carry: the
    sub-account key for domains and mail, the account key for all else. *)
Definition credential (op : Operation) (account sub : string) : sendpost.Context :=
  match op with
  | OpSubaccountDomainPost | OpGetAllDomains | OpSendEmail => [("subAccountAuth", sub)]
  | _ => [("accountAuth", account)]
  end.

Definition authenticates (account sub : string) (c : sendpost.Call) : Prop :=
  contextOf c = credential (operation c) account sub.

(** The keys stay, and every request added to the wire carries the key of
    its kind. *)
Definition authenticated : Rel :=
  fun e w e' w' =>
    accountAPIKey e' = accountAPIKey e /\ subAccountAPIKey e' = subAccountAPIKey e
    /\ exists xs, wire w' = wire w ++ xs
         /\ Forall (fun x => authenticates (accountAPIKey e) (subAccountAPIKey e)
                               (sendpost.sent x)) xs.

(** What a stat record adds to the two totals of the summary. *)
Definition processedOf (stat : Stat.t) : Z :=
  match Stat.Stat stat with
  | Some statData => match StatStats.Processed statData with Some v => v | None => 0 end
  | None => 0
  end.
Definition deliveredOf (stat : Stat.t) : Z :=
  match Stat.Stat stat with
  | Some statData => match StatStats.Delivered statData with Some v => v | None => 0 end
  | None => 0
  end.

(** The sum over a list, in unbounded integers. *)
Definition total {A} (f : A -> Z) (xs : list A) : Z := fold_right Z.add 0 (map f xs).

(** The three lines that end the sub-account statistics. *)
Definition summary (processed delivered : Z) : list fmt.Output :=
  [fmt.Println (LF ++ "  Summary (Last 7 days):")%string;
   fmt.Printf ("    Total Processed: %d" ++ LF)%string [fmt.AInt processed];
   fmt.Printf ("    Total Delivered: %d" ++ LF)%string [fmt.AInt delivered]].

(** The console of [w'] is the console of [w] with more at its end. *)
Definition outGrew (w w' : World) : Prop := exists os, stdout w' = stdout w ++ os.

(** The message of a send request. *)
Definition mail (c : sendpost.Call) : option EmailMessageObject.t :=
  match c with sendpost.SendEmail _ m => Some m | _ => None end.

(** The pool a send step names: the one whose name the object holds. *)
Definition poolOf (e : ESPExample) : option string :=
  if nonEmpty (createdIPPoolName e) then Some (createdIPPoolName e) else None.

(** A message from the configured sender to the configured recipient
    alone, with open and click tracking on, routed through [pool]. *)
Definition addressed (env : Env) (pool : option string) (m : EmailMessageObject.t) : Prop :=
  EmailMessageObject.Ippool m = pool
  /\ option_map EmailAddress.Email (EmailMessageObject.From m)
     = Some (Some (testFromEmail (constants env)))
  /\ option_map (map Recipient.Email) (EmailMessageObject.To m)
     = Some [Some (testToEmail (constants env))]
  /\ EmailMessageObject.TrackOpens m = Some true
  /\ EmailMessageObject.TrackClicks m = Some true.

(** *** Where a value the program sends comes from

    A field of the object may hold a value; some requests send one.
    [source c h v] says that the service [c] handed out [v] in the history
    [h]. *)
Section Provenance.

Variable V : Type.
Variable field : ESPExample -> option V.
Variable source : sendpost.APIClient -> list sendpost.Exchange -> V -> Prop.
Variable use : sendpost.Call -> option V.

(** What the field holds, the service handed out. *)
Definition known (e : ESPExample) (w : World) : Prop :=
  forall v, field e = Some v -> source (client e) (wire w) v.

(** Every value a request of [h] sends was handed out before that request. *)
Definition answers (c : sendpost.APIClient) (h : list sendpost.Exchange) : Prop :=
  forall pre x post, h = pre ++ x :: post ->
  forall v, use (sendpost.sent x) = Some v -> source c pre v.

Definition traced : Rel :=
  fun e w e' w' =>
    known e w /\ answers (client e) (wire w) ->
    client e' = client e /\ known e' w' /\ answers (client e') (wire w').

End Provenance.

Arguments known {V} field source e w.
Arguments answers {V} source use c h.
Arguments traced {V} field source use e w e' w'.

(** The message id and the sub-account id the object holds, if any. *)
Definition heldMessage (e : ESPExample) : option string :=
  if nonEmpty (sentMessageID e) then Some (sentMessageID e) else None.
Definition heldSubAccount (e : ESPExample) : option Z :=
  option_map int64 (createdSubAccountID e).

(** The mail service returned [id], as the message id of the first entry
    of its answer, to a send request of the history [h]. *)
Definition returnedBy (c : sendpost.APIClient) (h : list sendpost.Exchange) (id : string)
    : Prop :=
  exists pre x post ctx m r rest resp,
    h = pre ++ x :: post
    /\ sendpost.sent x = sendpost.SendEmail ctx m
    /\ sendpost.EmailAPI_SendEmail c pre ctx m = (r :: rest, resp, None)
    /\ EmailResponse.MessageId r = Some id.

(** The service returned [name] as the name of a pool it created on a
    request of the history [h]. *)
Definition pooledBy (c : sendpost.APIClient) (h : list sendpost.Exchange) (name : string)
    : Prop :=
  exists pre x post ctx r ipPool resp,
    h = pre ++ x :: post
    /\ sendpost.sent x = sendpost.CreateIPPool ctx r
    /\ sendpost.IPPoolsAPI_CreateIPPool c pre ctx r = (Some ipPool, resp, None)
    /\ IPPool.Name ipPool = Some name.

(** The service returned a sub-account list whose first entry has the id
    [v] to a listing request of the history [h]. *)
Definition listedBy (c : sendpost.APIClient) (h : list sendpost.Exchange) (v : Z) : Prop :=
  exists pre x post ctx sa subs resp id,
    h = pre ++ x :: post
    /\ sendpost.sent x = sendpost.GetAllSubAccounts ctx
    /\ sendpost.SubAccountAPI_GetAllSubAccounts c pre ctx = (sa :: subs, resp, None)
    /\ SubAccount.Id sa = Some id
    /\ v = int64 id.

(** The message id a details request asks for, the pool a mail names, the
    sub-account a statistics request asks for. *)
Definition askedMessage (c : sendpost.Call) : option string :=
  match c with sendpost.GetMessageById _ id => Some id | _ => None end.
Definition namedPool (c : sendpost.Call) : option string :=
  match c with sendpost.SendEmail _ m => EmailMessageObject.Ippool m | _ => None end.
Definition askedSubAccount (c : sendpost.Call) : option Z :=
  match c with
  | sendpost.AccountSubaccountStatSubaccountIdGet _ id _ _
  | sendpost.AccountSubaccountStatSubaccountIdAggregateGet _ id _ _ => Some id
  | _ => None
  end.

(** What the listing loop over [subs] can make of the sub-account id of
    [e]: nothing, or, when it was unset, the id of the first entry. *)
Definition firstTaken (e : ESPExample) (subs : list SubAccount.t) (e' : ESPExample) : Prop :=
  createdSubAccountID e' = createdSubAccountID e
  \/ (createdSubAccountID e = None
      /\ exists sa rest id,
           subs = sa :: rest /\ SubAccount.Id sa = Some id
           /\ createdSubAccountID e' = Some id).

(** ** Sample environments *)

Definition ok {T} (v : T) : ApiResult T := (v, Some (http.mkResponse 200), None).
Definition rejected {T} (v : T) (code : Z) (msg : string) : ApiResult T :=
  (v, Some (http.mkResponse code), Some msg).
(** A transport failure: an error and no HTTP response at all. *)
Definition unreachable {T} (v : T) (msg : string) : ApiResult T := (v, None, Some msg).

(** An account with nothing in it: no sub-account, no dedicated IP. *)
Definition emptyAccount : sendpost.APIClient := {|
  sendpost.SubAccountAPI_GetAllSubAccounts := fun _ _ => ok [];
  sendpost.SubAccountAPI_CreateSubAccount := fun _ _ _ =>
    ok (Some (SubAccount.mk (Some 50441) (Some "ESP Client") (Some "pR0YIuxYSbVwmQi2Y8Qs")
                (Some 0) None None));
  sendpost.WebhookAPI_CreateWebhook := fun _ _ _ =>
    ok (Some (Webhook.mk (Some 12345) None None));
  sendpost.WebhookAPI_GetAllWebhooks := fun _ _ => ok [];
  sendpost.DomainAPI_SubaccountDomainPost := fun _ _ _ => ok (Some Domain.zero);
  sendpost.DomainAPI_GetAllDomains := fun _ _ => ok [];
  sendpost.EmailAPI_SendEmail := fun _ _ _ => ok [EmailResponse.mk (Some "msg-1") None];
  sendpost.MessageAPI_GetMessageById := fun _ _ id =>
    ok (Some (Message.mk (Some id) None None None None None None None
                (Some (EmailAddress.mk (Some "sender@yourdomain.com") None)) None
                None None None));
  sendpost.StatsAPI_AccountSubaccountStatSubaccountIdGet := fun _ _ _ _ _ => ok [];
  sendpost.StatsAPI_AccountSubaccountStatSubaccountIdAggregateGet := fun _ _ _ _ _ =>
    ok (Some AggregateStat.zero);
  sendpost.IPAPI_GetAllIps := fun _ _ => ok [];
  sendpost.IPPoolsAPI_CreateIPPool := fun _ _ _ =>
    ok (Some (IPPool.mk (Some 9) (Some "Marketing Pool") None None));
  sendpost.IPPoolsAPI_GetAllIPPools := fun _ _ => ok [];
  sendpost.StatsAAPI_GetAllAccountStats := fun _ _ _ _ => ok [] |}.

(** The same account behind a network that is down. *)
Definition offline : sendpost.APIClient := {|
  sendpost.SubAccountAPI_GetAllSubAccounts := fun _ _ =>
    unreachable [] "dial tcp: connect: connection refused";
  sendpost.SubAccountAPI_CreateSubAccount := fun _ _ _ =>
    unreachable None "dial tcp: connect: connection refused";
  sendpost.WebhookAPI_CreateWebhook := fun _ _ _ =>
    unreachable None "dial tcp: connect: connection refused";
  sendpost.WebhookAPI_GetAllWebhooks := fun _ _ =>
    unreachable [] "dial tcp: connect: connection refused";
  sendpost.DomainAPI_SubaccountDomainPost := fun _ _ _ =>
    unreachable None "dial tcp: connect: connection refused";
  sendpost.DomainAPI_GetAllDomains := fun _ _ =>
    unreachable [] "dial tcp: connect: connection refused";
  sendpost.EmailAPI_SendEmail := fun _ _ _ =>
    unreachable [] "dial tcp: connect: connection refused";
  sendpost.MessageAPI_GetMessageById := fun _ _ _ =>
    unreachable None "dial tcp: connect: connection refused";
  sendpost.StatsAPI_AccountSubaccountStatSubaccountIdGet := fun _ _ _ _ _ =>
    unreachable [] "dial tcp: connect: connection refused";
  sendpost.StatsAPI_AccountSubaccountStatSubaccountIdAggregateGet := fun _ _ _ _ _ =>
    unreachable None "dial tcp: connect: connection refused";
  sendpost.IPAPI_GetAllIps := fun _ _ =>
    unreachable [] "dial tcp: connect: connection refused";
  sendpost.IPPoolsAPI_CreateIPPool := fun _ _ _ =>
    unreachable None "dial tcp: connect: connection refused";
  sendpost.IPPoolsAPI_GetAllIPPools := fun _ _ =>
    unreachable [] "dial tcp: connect: connection refused";
  sendpost.StatsAAPI_GetAllAccountStats := fun _ _ _ _ =>
    unreachable [] "dial tcp: connect: connection refused" |}.

Definition isGetAllIps (c : sendpost.Call) : bool :=
  match c with sendpost.GetAllIps _ => true | _ => false end.

(** A client that differs from [c] in one operation. *)
Definition withSubAccounts (c : sendpost.APIClient)
    (f : list sendpost.Exchange -> sendpost.Context -> ApiResult (list SubAccount.t))
    : sendpost.APIClient :=
  sendpost.mkAPIClient f
    (sendpost.SubAccountAPI_CreateSubAccount c) (sendpost.WebhookAPI_CreateWebhook c)
    (sendpost.WebhookAPI_GetAllWebhooks c) (sendpost.DomainAPI_SubaccountDomainPost c)
    (sendpost.DomainAPI_GetAllDomains c) (sendpost.EmailAPI_SendEmail c)
    (sendpost.MessageAPI_GetMessageById c)
    (sendpost.StatsAPI_AccountSubaccountStatSubaccountIdGet c)
    (sendpost.StatsAPI_AccountSubaccountStatSubaccountIdAggregateGet c)
    (sendpost.IPAPI_GetAllIps c) (sendpost.IPPoolsAPI_CreateIPPool c)
    (sendpost.IPPoolsAPI_GetAllIPPools c) (sendpost.StatsAAPI_GetAllAccountStats c).

Definition withIps (c : sendpost.APIClient)
    (f : list sendpost.Exchange -> sendpost.Context -> ApiResult (list IP.t))
    : sendpost.APIClient :=
  sendpost.mkAPIClient (sendpost.SubAccountAPI_GetAllSubAccounts c)
    (sendpost.SubAccountAPI_CreateSubAccount c) (sendpost.WebhookAPI_CreateWebhook c)
    (sendpost.WebhookAPI_GetAllWebhooks c) (sendpost.DomainAPI_SubaccountDomainPost c)
    (sendpost.DomainAPI_GetAllDomains c) (sendpost.EmailAPI_SendEmail c)
    (sendpost.MessageAPI_GetMessageById c)
    (sendpost.StatsAPI_AccountSubaccountStatSubaccountIdGet c)
    (sendpost.StatsAPI_AccountSubaccountStatSubaccountIdAggregateGet c)
    f (sendpost.IPPoolsAPI_CreateIPPool c)
    (sendpost.IPPoolsAPI_GetAllIPPools c) (sendpost.StatsAAPI_GetAllAccountStats c).

Definition withSendEmail (c : sendpost.APIClient)
    (f : list sendpost.Exchange -> sendpost.Context -> EmailMessageObject.t ->
         ApiResult (list EmailResponse.t))
    : sendpost.APIClient :=
  sendpost.mkAPIClient (sendpost.SubAccountAPI_GetAllSubAccounts c)
    (sendpost.SubAccountAPI_CreateSubAccount c) (sendpost.WebhookAPI_CreateWebhook c)
    (sendpost.WebhookAPI_GetAllWebhooks c) (sendpost.DomainAPI_SubaccountDomainPost c)
    (sendpost.DomainAPI_GetAllDomains c) f
    (sendpost.MessageAPI_GetMessageById c)
    (sendpost.StatsAPI_AccountSubaccountStatSubaccountIdGet c)
    (sendpost.StatsAPI_AccountSubaccountStatSubaccountIdAggregateGet c)
    (sendpost.IPAPI_GetAllIps c) (sendpost.IPPoolsAPI_CreateIPPool c)
    (sendpost.IPPoolsAPI_GetAllIPPools c) (sendpost.StatsAAPI_GetAllAccountStats c).

Definition withCreateSubAccount (c : sendpost.APIClient)
    (f : list sendpost.Exchange -> sendpost.Context -> CreateSubAccountRequest.t ->
         ApiResult (option SubAccount.t))
    : sendpost.APIClient :=
  sendpost.mkAPIClient (sendpost.SubAccountAPI_GetAllSubAccounts c)
    f (sendpost.WebhookAPI_CreateWebhook c)
    (sendpost.WebhookAPI_GetAllWebhooks c) (sendpost.DomainAPI_SubaccountDomainPost c)
    (sendpost.DomainAPI_GetAllDomains c) (sendpost.EmailAPI_SendEmail c)
    (sendpost.MessageAPI_GetMessageById c)
    (sendpost.StatsAPI_AccountSubaccountStatSubaccountIdGet c)
    (sendpost.StatsAPI_AccountSubaccountStatSubaccountIdAggregateGet c)
    (sendpost.IPAPI_GetAllIps c) (sendpost.IPPoolsAPI_CreateIPPool c)
    (sendpost.IPPoolsAPI_GetAllIPPools c) (sendpost.StatsAAPI_GetAllAccountStats c).

Definition theIP : IP.t := IP.mk 1 "1.2.3.4" None 0.

(** The empty account with the dedicated IP 1.2.3.4. *)
Definition oneIP : sendpost.APIClient := withIps emptyAccount (fun _ _ => ok [theIP]).

(** The same behind a rate limiter: the IP listing is served once, a
    second listing is turned away with status 429. *)
Definition rateLimited : sendpost.APIClient :=
  withIps emptyAccount (fun h _ =>
    if existsb (fun x => isGetAllIps (sendpost.sent x)) h
    then rejected [] 429 "429 Too Many Requests"
    else ok [theIP]).

(** An account with one sub-account. *)
Definition oneSubAccount : sendpost.APIClient :=
  withSubAccounts emptyAccount (fun _ _ =>
    ok [SubAccount.mk (Some 50441) (Some "API") (Some "pR0YIuxYSbVwmQi2Y8Qs")
          (Some 0) (Some false) (Some 1700000000)]).

(** An account that gives a new sub-account the name the request asks for. *)
Definition echoing : sendpost.APIClient :=
  withCreateSubAccount emptyAccount (fun _ _ r =>
    ok (Some (SubAccount.mk (Some 50441) (CreateSubAccountRequest.Name r)
                (Some "pR0YIuxYSbVwmQi2Y8Qs") (Some 0) None None))).

(** An account with one sub-account and one dedicated IP: every step of
    a run has something to ask. *)
Definition fullAccount : sendpost.APIClient :=
  withIps oneSubAccount (fun _ _ => ok [theIP]).

(** The same account with a mail service that turns every message away
    with status 401. *)
Definition mailRefused : sendpost.APIClient :=
  withSendEmail fullAccount (fun _ _ _ => rejected [] 401 "401 Unauthorized").

(** A mail service that accepts a message and answers with no entry. *)
Definition muteMail : sendpost.APIClient :=
  withSendEmail emptyAccount (fun _ _ _ => ok []).

(** A mail service that looks at the message: it answers the order
    confirmation with an id and any other message with no entry. *)
Definition picky : sendpost.APIClient :=
  withSendEmail emptyAccount (fun _ _ m =>
    if String.eqb (EmailMessageObject.GetSubject m)
         "Order Confirmation - Transactional Email"
    then ok [EmailResponse.mk (Some "msg-1") None]
    else ok []).

(** A mail service that numbers its messages: the id it returns counts
    the exchanges made before. *)
Definition numbering : sendpost.APIClient :=
  withSendEmail emptyAccount (fun h _ _ =>
    ok [EmailResponse.mk
          (Some ("msg-" ++ strconv.FormatInt (Z.of_nat (List.length h)))%string) None]).

(** The shipped constants with the webhook URL left empty. *)
Definition noWebhookURL : Constants :=
  mkConstants (basePath shipped) (testFromEmail shipped) (testToEmail shipped)
    (testDomainName shipped) "".

(** A clock that starts one second before local midnight of
    2023-12-31 (UTC) and advances one second per reading. *)
Definition newYearsEve (n : nat) : time.Time :=
  time.mkTime (1704067199 + Z.of_nat n) time.UTC.

(** A clock that stands still at noon of 2024-03-04 (UTC). *)
Definition noon (n : nat) : time.Time := time.mkTime 1709553600 time.UTC.

(** Havana around the start of daylight saving time in 2024: at midnight
    of March 10 (05:00 UTC, 1710046800) the clocks went from UTC-5 to
    UTC-4. *)
Definition havana : time.Location := fun s =>
  if s <? 1710046800 then time.mkZone (-18000) 1699160400 1710046800
  else time.mkZone (-14400) 1710046800 1730610000.

(** A clock that stands still at noon of 2024-03-04 in Havana, and one
    that stands still at half past midnight of 2024-03-17 there, a week
    after the clocks changed. *)
Definition havanaNoon (n : nat) : time.Time := time.mkTime 1709571600 havana.
Definition havanaNight (n : nat) : time.Time := time.mkTime 1710649800 havana.

Definition noEnvironment (name : string) : string := "".
Definition keysSet (name : string) : string :=
  if String.eqb name "SENDPOST_ACCOUNT_API_KEY" then "acct-key" else "sub-key".

(** An account whose listing has an entry without an id after one with. *)
Definition anonymousSubAccount : sendpost.APIClient :=
  withSubAccounts emptyAccount (fun _ _ =>
    ok [SubAccount.mk (Some 7) None None None None None; SubAccount.zero]).

(** The empty account with a sub-account that has two days of statistics. *)
Definition twoDays : sendpost.APIClient :=
  sendpost.mkAPIClient (sendpost.SubAccountAPI_GetAllSubAccounts oneSubAccount)
    (sendpost.SubAccountAPI_CreateSubAccount emptyAccount)
    (sendpost.WebhookAPI_CreateWebhook emptyAccount)
    (sendpost.WebhookAPI_GetAllWebhooks emptyAccount)
    (sendpost.DomainAPI_SubaccountDomainPost emptyAccount)
    (sendpost.DomainAPI_GetAllDomains emptyAccount) (sendpost.EmailAPI_SendEmail emptyAccount)
    (sendpost.MessageAPI_GetMessageById emptyAccount)
    (fun _ _ _ _ _ =>
       ok [Stat.mk (Some "2024-03-03")
             (Some (StatStats.mk (Some 10) (Some 9) (Some 1) None None None None));
           Stat.mk (Some "2024-03-04")
             (Some (StatStats.mk (Some 5) None None None None None None));
           Stat.mk None None])
    (sendpost.StatsAPI_AccountSubaccountStatSubaccountIdAggregateGet emptyAccount)
    (sendpost.IPAPI_GetAllIps emptyAccount) (sendpost.IPPoolsAPI_CreateIPPool emptyAccount)
    (sendpost.IPPoolsAPI_GetAllIPPools emptyAccount)
    (sendpost.StatsAAPI_GetAllAccountStats emptyAccount).

(** An account whose first dedicated IP has no public address. *)
Definition unaddressedIP : sendpost.APIClient :=
  withIps emptyAccount (fun _ _ => ok [IP.mk 1 "" None 0; theIP]).

(** * Facts *)

(** ** The calendar *)

Section Calendar.

Import time.

Lemma constants_values :
  daysPer400Years = 146097 /\ daysPer100Years = 36524 /\ daysPer4Years = 1461
  /\ secondsPerDay = 86400 /\ secondsPerHour = 3600 /\ secondsPerMinute = 60.
Proof. repeat split; reflexivity. Qed.

Lemma shiftr_two n : Z.shiftr n 2 = n / 4.
Proof. rewrite Z.shiftr_div_pow2 by lia. reflexivity. Qed.

Lemma rem_zero_mod a b : b <> 0 -> (Z.rem a b = 0 <-> a mod b = 0).
Proof.
  intros Hb. rewrite Z.rem_divide, Z.mod_divide by assumption. reflexivity.
Qed.

Lemma isLeap_true y :
  isLeap y = true <-> (y mod 4 = 0 /\ (y mod 100 <> 0 \/ y mod 400 = 0)).
Proof.
  unfold isLeap.
  rewrite andb_true_iff, orb_true_iff, negb_true_iff, !Z.eqb_eq, Z.eqb_neq.
  rewrite !rem_zero_mod by lia. tauto.
Qed.

Lemma isLeap_false y :
  isLeap y = false <-> (y mod 4 <> 0 \/ (y mod 100 = 0 /\ y mod 400 <> 0)).
Proof.
  unfold isLeap.
  rewrite andb_false_iff, orb_false_iff, negb_false_iff, !Z.eqb_eq, !Z.eqb_neq.
  rewrite !rem_zero_mod by lia. tauto.
Qed.

(** Cutting off up to three whole cycles of length [len] from a span of at
    most four cycles: what is left fits in one cycle, or is the extra last
    day of the fourth. *)
Lemma cut_cycles (d len : Z) :
  0 < len -> 0 <= d <= 4 * len ->
  let n := d / len - d / len / 4 in
  0 <= n <= 3 /\ 0 <= d - len * n
  /\ (d - len * n < len \/ (n = 3 /\ d - len * n = len)).
Proof.
  intros Hl Hd. cbv zeta.
  assert (Hq : 0 <= d / len <= 4).
  { split; [apply Z.div_pos; lia|]. apply Z.div_le_upper_bound; lia. }
  pose proof (Z.div_mod d len ltac:(lia)) as E.
  pose proof (Z.mod_pos_bound d len Hl) as B.
  remember (d / len) as q. remember (d mod len) as r.
  assert (Hc : q = 0 \/ q = 1 \/ q = 2 \/ q = 3 \/ q = 4) by lia.
  destruct Hc as [->|[->|[->|[->| ->]]]]; cbn; nia.
Qed.

(** The year and the day of the year add up to the day number, and the
    day of the year lies within the year. *)
Lemma absYearDay_spec d y yd :
  absYearDay d = (y, yd) ->
  daysSinceEpoch y + yd = d /\ 0 <= yd < (if isLeap y then 366 else 365).
Proof.
  unfold absYearDay, daysSinceEpoch.
  destruct constants_values as (-> & -> & -> & _).
  rewrite !shiftr_two. cbv zeta.
  pose proof (Z.div_mod d 146097 ltac:(lia)) as E400.
  pose proof (Z.mod_pos_bound d 146097 ltac:(lia)) as B400.
  remember (d / 146097) as n400 eqn:Hn400. clear Hn400.
  replace (d - 146097 * n400) with (d mod 146097) by lia.
  remember (d mod 146097) as d1 eqn:Hd1. clear Hd1.
  pose proof (cut_cycles d1 36524 ltac:(lia) ltac:(lia)) as C100. cbv zeta in C100.
  remember (d1 / 36524 - d1 / 36524 / 4) as n100 eqn:Hn100. clear Hn100.
  remember (d1 - 36524 * n100) as d2 eqn:Hd2.
  pose proof (Z.div_mod d2 1461 ltac:(lia)) as E4.
  pose proof (Z.mod_pos_bound d2 1461 ltac:(lia)) as B4.
  remember (d2 / 1461) as n4 eqn:Hn4. clear Hn4.
  replace (d2 - 1461 * n4) with (d2 mod 1461) by lia.
  remember (d2 mod 1461) as d3 eqn:Hd3. clear Hd3.
  pose proof (cut_cycles d3 365 ltac:(lia) ltac:(lia)) as C1. cbv zeta in C1.
  remember (d3 / 365 - d3 / 365 / 4) as n1 eqn:Hn1. clear Hn1.
  intros H. apply pair_equal_spec in H. destruct H as [Hy Hd].
  assert (Hyear : (y - 1) / 400 = n400 /\ (y - 1 - 400 * n400) / 100 = n100
                  /\ (y - 1 - 400 * n400 - 100 * n100) / 4 = n4).
  { subst y. repeat split.
    - symmetry. apply Z.div_unique with (r := 100 * n100 + 4 * n4 + n1); lia.
    - symmetry. apply Z.div_unique with (r := 4 * n4 + n1); lia.
    - symmetry. apply Z.div_unique with (r := n1); lia. }
  destruct Hyear as (Y400 & Y100 & Y4). rewrite Y400, Y100, Y4.
  split; [lia|].
  destruct (isLeap y) eqn:L; [lia|].
  apply isLeap_false in L.
  assert (M4 : y mod 4 = (n1 + 1) mod 4).
  { subst y. replace (400 * n400 + 100 * n100 + 4 * n4 + n1 + 1)
      with (n1 + 1 + (100 * n400 + 25 * n100 + n4) * 4) by lia.
    apply Z.mod_add. lia. }
  assert (M100 : y mod 100 = (4 * n4 + n1 + 1) mod 100).
  { subst y. replace (400 * n400 + 100 * n100 + 4 * n4 + n1 + 1)
      with (4 * n4 + n1 + 1 + (4 * n400 + n100) * 100) by lia.
    apply Z.mod_add. lia. }
  assert (M400 : y mod 400 = (100 * n100 + 4 * n4 + n1 + 1) mod 400).
  { subst y. replace (400 * n400 + 100 * n100 + 4 * n4 + n1 + 1)
      with (100 * n100 + 4 * n4 + n1 + 1 + n400 * 400) by lia.
    apply Z.mod_add. lia. }
  rewrite M4, M100, M400 in L. clear M4 M100 M400.
  Z.div_mod_to_equations. lia.
Qed.

(** The month is a month, and month and day of the month add up to the
    day of the year. *)
Lemma monthDay_spec (leap : bool) yd m dd :
  0 <= yd < (if leap then 366 else 365) ->
  monthDay leap yd = (m, dd) ->
  1 <= m <= 12 /\
  daysBefore (m - 1) + (if leap && (m >=? 3) then 1 else 0) + (dd - 1) = yd.
Proof.
  intros Hr. unfold monthDay.
  destruct (leap && (yd =? 31 + 29 - 1)) eqn:E1.
  - intros H; injection H as <- <-.
    apply andb_true_iff in E1 as [-> E1]. apply Z.eqb_eq in E1.
    subst yd. split; [lia | reflexivity].
  - set (day := if leap && (yd >? 31 + 29 - 1) then yd - 1 else yd).
    assert (Hday : 0 <= day < 365 /\
              (day = yd /\ (leap = false \/ yd < 59)
               \/ day = yd - 1 /\ leap = true /\ yd > 59)).
    { subst day. rewrite Z.gtb_ltb. destruct leap; cbn in *.
      - destruct (Z.eqb_spec yd 59); try discriminate.
        destruct (Z.ltb_spec 59 yd); lia.
      - lia. }
    clearbody day. destruct Hday as [Hd Hc].
    assert (Hm : 0 <= day / 31 <= 11) by (Z.div_mod_to_equations; lia).
    remember (day / 31) as q eqn:Hq.
    assert (Hq' : 31 * q <= day < 31 * q + 31)
      by (subst q; Z.div_mod_to_equations; lia).
    clear Hq.
    assert (Hcases : q = 0 \/ q = 1 \/ q = 2 \/ q = 3 \/ q = 4 \/ q = 5 \/ q = 6
                     \/ q = 7 \/ q = 8 \/ q = 9 \/ q = 10 \/ q = 11) by lia.
    repeat (destruct Hcases as [-> | Hcases]); try subst q;
      cbn [daysBefore Z.add Pos.add Pos.succ]; rewrite Z.geb_leb;
      match goal with |- context [?a <=? ?b] => destruct (Z.leb_spec a b) end;
      intros Heq; injection Heq as <- <-; (split; [lia|]);
      cbn [daysBefore Z.add Z.sub Z.opp Z.pos_sub Z.geb Z.compare Pos.compare
           Pos.compare_cont Pos.add Pos.succ Pos.pred_double Z.succ_double
           Z.pred_double Z.double];
      destruct leap; cbn [andb]; lia.
Qed.

(** The civil date of a day number is the date of that day. *)
Lemma absDate_civilDays d y m dd :
  absDate d = (y, m, dd) -> civilDays y m dd = d /\ 1 <= m <= 12.
Proof.
  unfold absDate. destruct (absYearDay d) as [year yday] eqn:EY.
  destruct (monthDay (isLeap year) yday) as [month day] eqn:EM.
  intros H. injection H as <- <- <-.
  apply absYearDay_spec in EY. destruct EY as [Hsum Hrange].
  apply (monthDay_spec _ _ _ _ Hrange) in EM. destruct EM as [Hm Hd].
  split; [|exact Hm]. unfold civilDays.
  destruct (isLeap year && (month >=? 3)); lia.
Qed.

Lemma norm_in_range hi lo base : 0 <= lo < base -> norm hi lo base = (hi, lo).
Proof.
  intros H. unfold norm.
  destruct (Z.ltb_spec lo 0); [lia|].
  rewrite Z.geb_leb. destruct (Z.leb_spec base lo); [lia|]. reflexivity.
Qed.

Lemma Clock_spec t h mi s :
  Clock t = (h, mi, s) ->
  0 <= h < 24 /\ 0 <= mi < 60 /\ 0 <= s < 60
  /\ h * secondsPerHour + mi * secondsPerMinute + s = abs t mod secondsPerDay.
Proof.
  unfold Clock. destruct constants_values as (_ & _ & _ & -> & -> & ->).
  cbv zeta. intros H. injection H as <- <- <-.
  pose proof (Z.mod_pos_bound (abs t) 86400 ltac:(lia)) as B.
  remember (abs t mod 86400) as r. clear Heqr.
  Z.div_mod_to_equations. lia.
Qed.

(** [AddDate(0, 0, k)] moves the local time by exactly [k] days when the
    location has the offset of [t] at the two instants [Date] looks up:
    the moved wall clock reading taken as UTC, and the instant [k] days
    from [t]. *)
Lemma AddDate_days t k :
  offset (loc t (sec t + offset (loc t (sec t)) + k * secondsPerDay))
  = offset (loc t (sec t)) ->
  offset (loc t (sec t + k * secondsPerDay)) = offset (loc t (sec t)) ->
  abs (AddDate t 0 0 k) = abs t + k * secondsPerDay.
Proof.
  intros Hwall Hutc.
  unfold AddDate, DateOf.
  destruct (absDate (absDays t)) as [[y m] dd] eqn:ED.
  destruct (Clock t) as [[h mi] s] eqn:EC.
  apply absDate_civilDays in ED. destruct ED as [Hciv Hm].
  apply Clock_spec in EC. destruct EC as (Hh & Hmi & Hs & Hsum).
  unfold Date.
  rewrite (norm_in_range (y + 0) (m + 0 - 1) 12) by lia.
  rewrite (norm_in_range mi s 60) by lia.
  rewrite (norm_in_range h mi 60) by lia.
  rewrite (norm_in_range (dd + k) h 24) by lia.
  replace (m + 0 - 1 + 1) with m by lia. replace (y + 0) with y by lia.
  assert (Hk : civilDays y m (dd + k) = civilDays y m dd + k).
  { unfold civilDays. lia. }
  rewrite Hk, Hciv. cbv zeta.
  assert (Hunix : (absDays t + k) * secondsPerDay
                  + (h * secondsPerHour + mi * secondsPerMinute + s) - unixToInternal
                  = sec t + offset (loc t (sec t)) + k * secondsPerDay).
  { rewrite Hsum. unfold absDays.
    pose proof (Z.div_mod (abs t) secondsPerDay) as Hdm.
    assert (Hd : secondsPerDay <> 0)
      by (destruct constants_values as (_&_&_&->&_); lia).
    specialize (Hdm Hd). unfold abs in *. lia. }
  rewrite Hunix, Hwall.
  match goal with
  | |- abs (mkTime ?x _) = _ => assert (Hx : x = sec t + k * secondsPerDay)
  end.
  { destruct (Z.eqb_spec (offset (loc t (sec t))) 0) as [E0|E0]; cbn [negb].
    - rewrite E0. lia.
    - destruct ((_ <? _) || (_ >=? _)); [|lia].
      replace (sec t + offset (loc t (sec t)) + k * secondsPerDay
               - offset (loc t (sec t))) with (sec t + k * secondsPerDay) by lia.
      rewrite Hutc. lia. }
  rewrite Hx. unfold abs. cbn [sec loc]. rewrite Hutc. lia.
Qed.

(** The zone has not moved: a week back is seven days back. *)
Lemma AddDate_absDays t : settled t -> absDays (AddDate t 0 0 (-7)) = absDays t - 7.
Proof.
  intros [Hoff Hsame]. cbv zeta in Hoff, Hsame. unfold absDays.
  assert (Hd : secondsPerDay = 86400) by reflexivity.
  rewrite AddDate_days.
  - replace (abs t + -7 * secondsPerDay) with (abs t + (-7) * secondsPerDay) by lia.
    rewrite Z.div_add by lia. lia.
  - apply Hsame. lia.
  - apply Hsame. lia.
Qed.

(** The two dates a statistics step formats from one clock reading: the
    day of the reading and, when the zone has not moved, the day seven
    days before it. *)
Lemma week_before now :
  settled now ->
  (Format (AddDate now 0 0 (-7)), Format now) = trailingWeek (absDays now).
Proof.
  intros H. unfold Format, trailingWeek. rewrite (AddDate_absDays now H). reflexivity.
Qed.

End Calendar.

(** ** The program logic *)

Lemma wp_outcome {A} (m : M A) e w (P : ESPExample -> World -> Prop) :
  wp m e w (fun _ => P) P <-> P (object (m e w)) (world (m e w)).
Proof. unfold wp. destruct (m e w); cbn; tauto. Qed.

Lemma wp_returned {A} (m : M A) e w (P : ESPExample -> World -> Prop) :
  wp m e w (fun _ => P) (fun _ _ => False) ->
  returned (m e w) = true /\ P (object (m e w)) (world (m e w)).
Proof. unfold wp. destruct (m e w); cbn; tauto. Qed.

Lemma wp_ret {A} (a : A) e w Q E : Q a e w -> wp (ret a) e w Q E.
Proof. exact (fun H => H). Qed.

Lemma wp_bind {A B} (m : M A) (k : A -> M B) e w Q E :
  wp m e w (fun a e' w' => wp (k a) e' w' Q E) E -> wp (bind m k) e w Q E.
Proof. unfold wp, bind. destruct (m e w); exact (fun H => H). Qed.

Lemma wp_mono {A} (m : M A) e w (Q Q' : A -> ESPExample -> World -> Prop)
    (E E' : ESPExample -> World -> Prop) :
  wp m e w Q E -> (forall a e' w', Q a e' w' -> Q' a e' w') ->
  (forall e' w', E e' w' -> E' e' w') -> wp m e w Q' E'.
Proof. unfold wp. destruct (m e w); auto. Qed.

Lemma wp_this e w Q E : Q e e w -> wp this e w Q E.
Proof. exact (fun H => H). Qed.

Lemma wp_assign f e w Q E : Q tt (f e) w -> wp (assign f) e w Q E.
Proof. exact (fun H => H). Qed.

Lemma wp_Println s e w Q E :
  Q tt e (mkWorld (stdout w ++ [fmt.Println s]) (wire w) (ticks w)) ->
  wp (Println s) e w Q E.
Proof. exact (fun H => H). Qed.

Lemma wp_Printf f args e w Q E :
  Q tt e (mkWorld (stdout w ++ [fmt.Printf f args]) (wire w) (ticks w)) ->
  wp (Printf f args) e w Q E.
Proof. exact (fun H => H). Qed.

Lemma wp_time_Now env e w Q E :
  Q (Now env (ticks w)) e (mkWorld (stdout w) (wire w) (S (ticks w))) ->
  wp (time_Now env) e w Q E.
Proof. exact (fun H => H). Qed.

Lemma wp_Execute {T} c (op : list sendpost.Exchange -> ApiResult T) e w Q E :
  Q (op (wire w)) e
    (exchanged w (sendpost.mkExchange c (snd (fst (op (wire w)))) (snd (op (wire w))))) ->
  wp (Execute c op) e w Q E.
Proof. exact (fun H => H). Qed.

Lemma wp_deref {A} (p : option A) e w Q E :
  match p with Some a => Q a e w | None => E e w end -> wp (deref p) e w Q E.
Proof. destruct p; exact (fun H => H). Qed.

(** A computation that stays within [R] can be stepped over. *)
Lemma wp_respects {A} (R : Rel) (m : M A) e w Q E :
  respects R m ->
  (forall a e' w', R e w e' w' -> Q a e' w') ->
  (forall e' w', R e w e' w' -> E e' w') ->
  wp m e w Q E.
Proof.
  intros Hm HQ HE. specialize (Hm e w). unfold wp.
  destruct (m e w); cbn in Hm; auto.
Qed.

Section Frames.

Context (R : Rel) {FR : Frame R}.

Lemma respects_ret {A} (a : A) : respects R (ret a).
Proof. intros e w. apply frame_refl. Qed.

Lemma respects_bind {A B} (m : M A) (k : A -> M B) :
  respects R m -> (forall a, respects R (k a)) -> respects R (bind m k).
Proof.
  intros Hm Hk e w. specialize (Hm e w). unfold bind.
  destruct (m e w) as [a e' w'|msg e' w']; cbn in *.
  - eapply frame_trans; [exact Hm | apply Hk].
  - exact Hm.
Qed.

Lemma respects_panic {A} msg : respects R (@panic A msg).
Proof. intros e w. apply frame_refl. Qed.

Lemma respects_deref {A} (p : option A) : respects R (deref p).
Proof. destruct p; [apply respects_ret | apply respects_panic]. Qed.

Lemma respects_this : respects R this.
Proof. intros e w. apply frame_refl. Qed.

Lemma respects_Println s : respects R (Println s).
Proof. intros e w. apply frame_print. Qed.

Lemma respects_Printf f args : respects R (Printf f args).
Proof. intros e w. apply frame_print. Qed.

Lemma respects_time_Now env : respects R (time_Now env).
Proof. intros e w. apply frame_tick. Qed.

Lemma respects_when c body : respects R body -> respects R (when c body).
Proof. destruct c; [exact (fun H => H) | intros _; apply respects_ret]. Qed.

Lemma respects_whenSome {A} (p : option A) body :
  (forall a, respects R (body a)) -> respects R (whenSome p body).
Proof. destruct p; [intros H; apply H | intros _; apply respects_ret]. Qed.

Lemma respects_forRange {A} (xs : list A) body :
  (forall x, respects R (body x)) -> respects R (forRange xs body).
Proof.
  intros Hb. induction xs as [|x xs IH]; cbn [forRange].
  - apply respects_ret.
  - apply respects_bind; [apply Hb | intros _; exact IH].
Qed.

Lemma respects_forRangeAcc {A S} (xs : list A) (acc : S) body :
  (forall s x, respects R (body s x)) -> respects R (forRangeAcc xs acc body).
Proof.
  intros Hb. revert acc. induction xs as [|x xs IH]; intros acc; cbn [forRangeAcc].
  - apply respects_ret.
  - apply respects_bind; [apply Hb | intros acc'; apply IH].
Qed.

Lemma respects_failed headline resp err : respects R (failed headline resp err).
Proof.
  unfold failed.
  apply respects_bind; [apply respects_Printf | intros _].
  apply respects_bind; [apply respects_deref | intros r].
  apply respects_bind; [apply respects_Printf | intros _].
  apply respects_Printf.
Qed.

Lemma respects_banner top title : respects R (banner top title).
Proof.
  unfold banner.
  repeat (apply respects_bind; [apply respects_Println | intros _]).
  apply respects_Println.
Qed.

Lemma respects_assign f :
  (forall e w, R e w (f e) w) -> respects R (assign f).
Proof. intros H e w. apply H. Qed.

Lemma respects_Execute {T} c (op : list sendpost.Exchange -> ApiResult T) :
  (forall e w x, sendpost.sent x = c -> R e w e (exchanged w x)) ->
  respects R (Execute c op).
Proof. intros H e w. cbn. apply H. reflexivity. Qed.

End Frames.

#[export] Instance unchanged_Frame : Frame unchanged.
Proof.
  split; unfold unchanged; cbn; intros; try tauto.
  destruct H, H0. split; congruence.
Qed.

#[export] Instance sameWire_Frame : Frame sameWire.
Proof. split; unfold sameWire; cbn; intros; congruence. Qed.

#[export] Instance grows_Frame : Frame grows.
Proof.
  split; unfold grows; cbn.
  - intros. split; exists []; now rewrite app_nil_r.
  - intros e1 w1 e2 w2 e3 w3 [[xs Hx] [os Ho]] [[xs' Hx'] [os' Ho']].
    split; [exists (xs ++ xs') | exists (os ++ os')]; rewrite app_assoc; congruence.
  - intros. split; [exists []; now rewrite app_nil_r | now exists [o]].
  - intros. split; exists []; now rewrite app_nil_r.
Qed.

#[export] Instance aside_Frame : Frame aside.
Proof.
  split; unfold aside; cbn.
  - intros. split; [reflexivity | exists []; now rewrite app_nil_r].
  - intros e1 w1 e2 w2 e3 w3 [H1 (xs & Hx & Fx)] [H2 (xs' & Hx' & Fx')].
    split; [congruence | exists (xs ++ xs')]. split.
    + rewrite app_assoc. congruence.
    + rewrite forallb_app, Fx, Fx'. reflexivity.
  - intros. split; [reflexivity | exists []; now rewrite app_nil_r].
  - intros. split; [reflexivity | exists []; now rewrite app_nil_r].
Qed.

#[export] Instance idle_Frame : Frame idle.
Proof.
  split; unfold idle.
  - intros. apply frame_refl.
  - intros e1 w1 e2 w2 e3 w3 H12 H23 Hn.
    specialize (H12 Hn). eapply frame_trans; [exact H12|].
    apply H23. destruct H12 as [-> _]. exact Hn.
  - intros. apply frame_print.
  - intros. apply frame_tick.
Qed.

Lemma aside_idle {A} (m : M A) : respects aside m -> respects idle m.
Proof. intros H e w _. apply H. Qed.

(** Walk through a computation piece by piece; [side] settles what an
    assignment or a request does to the relation. *)
Ltac frame_with side :=
  repeat (cbv beta zeta;
    lazymatch goal with
    | |- respects _ (bind _ _) => apply respects_bind; [exact _| |intro]
    | |- respects _ (ret _) => apply respects_ret; exact _
    | |- respects _ (Println _) => apply respects_Println; exact _
    | |- respects _ (Printf _ _) => apply respects_Printf; exact _
    | |- respects _ (time_Now _) => apply respects_time_Now; exact _
    | |- respects _ (failed _ _ _) => apply respects_failed; exact _
    | |- respects _ (banner _ _) => apply respects_banner; exact _
    | |- respects _ (deref _) => apply respects_deref; exact _
    | |- respects _ this => apply respects_this; exact _
    | |- respects _ (panic _) => apply respects_panic; exact _
    | |- respects _ (when _ _) => apply respects_when; [exact _|]
    | |- respects _ (whenSome _ _) => apply respects_whenSome; [exact _|intro]
    | |- respects _ (forRange _ _) => apply respects_forRange; [exact _|intro]
    | |- respects _ (forRangeAcc _ _ _) => apply respects_forRangeAcc; [exact _|intros]
    | |- respects _ (assign _) => apply respects_assign; side
    | |- respects _ (Execute _ _) => apply respects_Execute; side
    | |- respects _ (match ?x with _ => _ end) => destruct x
    end).

Ltac no_side := fail.

Ltac grows_side :=
  intros; unfold grows, exchanged; cbn;
  split; [first [now eexists | exists []; now rewrite app_nil_r]
         | exists []; now rewrite app_nil_r].

Ltac aside_side :=
  intros; unfold aside, exchanged; cbn;
  split; [reflexivity
         | first [ exists []; split; [now rewrite app_nil_r | reflexivity]
                 | eexists; split; [reflexivity|];
                   match goal with H : sendpost.sent _ = _ |- _ => cbn; rewrite H end;
                   reflexivity ]].

Ltac unfold_step :=
  lazymatch goal with
  | |- respects _ (?f _) => unfold f
  | |- respects _ ?f => unfold f
  end.

(** Every step only adds to the wire and to the console. *)
Lemma steps_grow env (s : Step) : respects grows (run env s).
Proof.
  destruct s; cbn [run]; unfold_step; frame_with grows_side.
Qed.

Ltac by_steps lem :=
  repeat (cbv beta;
    lazymatch goal with
    | |- respects _ (bind _ _) => apply respects_bind; [exact _| |intro]
    | |- respects _ (banner _ _) => apply respects_banner; exact _
    | |- respects _ this => apply respects_this; exact _
    | |- respects _ (when _ _) => apply respects_when; [exact _|]
    | |- respects _ (Println _) => apply respects_Println; exact _
    | |- respects _ _ => solve [lem]
    end).

Lemma workflow_grows env : respects grows (RunCompleteWorkflow env).
Proof.
  unfold RunCompleteWorkflow.
  by_steps ltac:(first
    [ apply (steps_grow env StepListSubAccounts)
    | apply (steps_grow env StepCreateWebhook)
    | apply (steps_grow env StepListWebhooks)
    | apply (steps_grow env StepAddDomain)
    | apply (steps_grow env StepListDomains)
    | apply (steps_grow env StepListIPs)
    | apply (steps_grow env StepCreateIPPool)
    | apply (steps_grow env StepListIPPools)
    | apply (steps_grow env StepSendTransactionalEmail)
    | apply (steps_grow env StepSendMarketingEmail)
    | apply (steps_grow env StepGetSubAccountStats)
    | apply (steps_grow env StepGetAggregateStats)
    | apply (steps_grow env StepGetAccountStats)
    | apply (steps_grow env StepGetMessageDetails) ]).
Qed.

Ltac sameWire_side := intros; reflexivity.

(** The computations symbolic execution can enter: those whose first
    action does not wait for a case distinction. *)
Ltac wp_ready m :=
  lazymatch m with
  | bind ?m1 _ => wp_ready m1
  | ret _ => idtac
  | Println _ => idtac
  | Printf _ _ => idtac
  | this => idtac
  | assign _ => idtac
  | time_Now _ => idtac
  | Execute _ _ => idtac
  | deref (Some _) => idtac
  | deref None => idtac
  | when true _ => idtac
  | when false _ => idtac
  | whenSome (Some _) _ => idtac
  | whenSome None _ => idtac
  end.

(** One step of symbolic execution. *)
Ltac wp_step :=
  cbv beta iota zeta; cbn [wire stdout ticks exchanged fst snd];
  lazymatch goal with
  | |- wp (bind ?m _) _ _ _ _ => wp_ready m; apply wp_bind
  | |- wp (ret _) _ _ _ _ => apply wp_ret
  | |- wp (Println _) _ _ _ _ => apply wp_Println
  | |- wp (Printf _ _) _ _ _ _ => apply wp_Printf
  | |- wp this _ _ _ _ => apply wp_this
  | |- wp (assign _) _ _ _ _ => apply wp_assign
  | |- wp (time_Now _) _ _ _ _ => apply wp_time_Now
  | |- wp (Execute _ _) _ _ _ _ => apply wp_Execute
  | |- wp (deref (Some _)) _ _ _ _ => apply wp_deref
  | |- wp (deref None) _ _ _ _ => apply wp_deref
  | |- wp (when true _) _ _ _ _ => unfold when at 1
  | |- wp (when false _) _ _ _ _ => unfold when at 1
  | |- wp (whenSome (Some _) _) _ _ _ _ => unfold whenSome at 1
  | |- wp (whenSome None _) _ _ _ _ => unfold whenSome at 1
  end.

Ltac wp_simpl := cbv beta iota zeta; cbn [wire stdout ticks exchanged fst snd].

Ltac wp_run := repeat wp_step; cbv beta iota zeta; cbn [wire stdout ticks exchanged fst snd].

Lemma skipn_all_app {A} (l r : list A) : skipn (List.length l) (l ++ r) = r.
Proof. induction l; cbn; auto. Qed.

Lemma issued_app w w' xs : wire w' = wire w ++ xs -> issued w w' = xs.
Proof. unfold issued. intros ->. apply skipn_all_app. Qed.

Lemma issued_same w w' : wire w' = wire w -> issued w w' = [].
Proof. intros H. apply issued_app. now rewrite app_nil_r. Qed.

Lemma printed_app w w' os : stdout w' = stdout w ++ os -> printed w w' = os.
Proof. unfold printed. intros ->. apply skipn_all_app. Qed.

(** The error block changes nothing but the console, and returns exactly
    when there is a response to read the status from. *)
Lemma wp_failed headline resp err e w Q E :
  match resp with
  | Some r =>
      Q tt e (mkWorld (stdout w ++ [fmt.Printf headline [];
                                    fmt.Printf ("  Status code: %d" ++ LF)%string
                                      [fmt.AInt (http.StatusCode r)];
                                    fmt.Printf ("  Error: %v" ++ LF)%string [fmt.AErr err]])
                (wire w) (ticks w))
  | None => E e (mkWorld (stdout w ++ [fmt.Printf headline []]) (wire w) (ticks w))
  end ->
  wp (failed headline resp err) e w Q E.
Proof.
  unfold failed. destruct resp as [r|]; intros H; wp_run.
  - rewrite <- !app_assoc. exact H.
  - exact H.
Qed.

(** A computation that sends nothing can be stepped over when only the
    wire matters. *)
Lemma wp_quiet {A} (m : M A) e w (P : World -> Prop) :
  respects sameWire m ->
  (forall w', wire w' = wire w -> P w') ->
  wp m e w (fun _ _ => P) (fun _ => P).
Proof.
  intros Hm HP. apply wp_respects with (R := sameWire); [exact Hm | |];
    intros; apply HP; assumption.
Qed.

(** A computation that touches neither the object nor the wire. *)
Lemma wp_unchanged {A} (m : M A) e w (P : ESPExample -> World -> Prop) :
  respects unchanged m ->
  (forall w', wire w' = wire w -> P e w') ->
  wp m e w (fun _ => P) P.
Proof.
  intros Hm HP. apply wp_respects with (R := unchanged); [exact Hm | |];
    unfold unchanged; intros; destruct H; subst; apply HP; assumption.
Qed.

(** Stepping over a computation that only prints, in the middle of a run. *)
Lemma wp_over {A} (m : M A) e w Q E :
  respects unchanged m ->
  (forall a w', wire w' = wire w -> Q a e w') ->
  (forall w', wire w' = wire w -> E e w') ->
  wp m e w Q E.
Proof.
  intros Hm HQ HE. apply wp_respects with (R := unchanged); [exact Hm | |];
    unfold unchanged; intros; destruct H; subst; auto.
Qed.

(** The request that is about to come back: split on its triple. *)
Ltac split_response :=
  lazymatch goal with
  | |- wp (let (_, _) := ?r in _) _ _ _ _ => destruct r as [[? ?] [?|]]
  end.

(** Whatever comes back for the one request of a step, the step sends
    nothing after it: the requests it issued are that one. *)
Ltac issued_here w :=
  let w' := fresh "w'" in
  let Hw := fresh "Hw" in
  split_response; wp_simpl;
  (apply wp_quiet; [first [apply respects_failed; exact _ | frame_with sameWire_side]|]);
  intros w' Hw; cbn [wire] in Hw; rewrite (issued_app w _ _ Hw); left; reflexivity.

(** The request whose answer the step [step] is about to read, from [e] and
    [w], is one of those the step issued; [prep] settles the tests the step
    makes before it. *)
Ltac own_request step e w prep Hin :=
  lazymatch goal with
  | |- wp _ _ (exchanged _ (sendpost.mkExchange ?c _ _)) _ _ =>
      assert (Hin : In c (map sendpost.sent (issued w (world (step e w)))));
      [ apply (wp_outcome step e w
                 (fun _ w' => In c (map sendpost.sent (issued w w'))));
        lazymatch step with ?f _ => unfold f end;
        wp_run; prep; wp_run; issued_here w
      | ]
  end.

(** At a concrete run the requests a step issued can be computed: the one
    request of [Hin] is the one the step made. *)
Ltac the_request Hin :=
  lazymatch type of Hin with
  | In _ ?l =>
      let Hiss := fresh "Hiss" in
      eassert (Hiss : l = _); [vm_compute; reflexivity|];
      rewrite Hiss in Hin; clear Hiss;
      destruct Hin as [Hin|[]]; injection Hin as <- <-
  end.

(** * The claims *)

(** ** Steps that lack their prerequisite *)

(** C9.  When the identifier a step needs is unset ([createdSubAccountID]
    for the sub-account and the aggregate statistics, [sentMessageID] for
    the message details), the step returns at its guard: it sends nothing
    to the API and leaves the object as it was. *)
Theorem C9_missing_prerequisite_skips env (s : Step) e w :
  lacksPrerequisite s e = true ->
  returned (run env s e w) = true
  /\ object (run env s e w) = e
  /\ issued w (world (run env s e w)) = [].
Proof.
  intros H.
  destruct s; try discriminate H; cbn [lacksPrerequisite run] in *.
  - unfold GetSubAccountStats. destruct (createdSubAccountID e) eqn:Hid; [discriminate|].
    unfold bind, this, Println. cbn. rewrite Hid. cbn.
    repeat split. now apply issued_same.
  - unfold GetAggregateStats. destruct (createdSubAccountID e) eqn:Hid; [discriminate|].
    unfold bind, this, Println. cbn. rewrite Hid. cbn.
    repeat split. now apply issued_same.
  - unfold GetMessageDetails.
    unfold bind, this, Println. cbn. rewrite H. cbn.
    repeat split. now apply issued_same.
Qed.

Lemma C9_missing_prerequisite_skips_witness :
  let env := mkEnv shipped noEnvironment (fun _ => emptyAccount) noon in
  let e := NewESPExample env in
  lacksPrerequisite StepGetMessageDetails e = true
  /\ returned (run env StepGetMessageDetails e boot) = true
  /\ object (run env StepGetMessageDetails e boot) = e
  /\ issued boot (world (run env StepGetMessageDetails e boot)) = [].
Proof.
  split; [reflexivity|].
  apply (C9_missing_prerequisite_skips
           (mkEnv shipped noEnvironment (fun _ => emptyAccount) noon)
           StepGetMessageDetails).
  reflexivity.
Defined.

(** ** Creating the IP pool *)

(** C7.  When the IP listing that step 8 retrieves is empty, the step
    reports that no IPs are available and returns: the report is the
    warning line, not the failure block; the listing is the only request
    it makes, so no pool creation is attempted; the object, and with it
    [createdIPPoolID] and [createdIPPoolName], is as before. *)
Theorem C7_no_ips_skips_pool_creation env e w resp :
  sendpost.IPAPI_GetAllIps (client e) (wire w) (createAccountAuthContext e)
    = ([], resp, None) ->
  let o := CreateIPPool env e w in
  returned o = true
  /\ object o = e
  /\ issued w (world o)
     = [sendpost.mkExchange (sendpost.GetAllIps (createAccountAuthContext e)) resp None]
  /\ printed w (world o)
     = [fmt.Println (LF ++ "=== Step 13: Creating IP Pool ===")%string;
        fmt.Println "Retrieving available IPs...";
        fmt.Println "⚠️  No IPs available. Please allocate IPs first."].
Proof.
  intros Hips o. subst o.
  apply (wp_returned (CreateIPPool env) e w
           (fun e' w' => e' = e /\ issued w w' = _ /\ printed w w' = _)).
  unfold CreateIPPool. wp_run. rewrite Hips. wp_run.
  split; [reflexivity|]. split.
  - now apply issued_app.
  - apply printed_app. cbn. rewrite <- !app_assoc. reflexivity.
Qed.

Lemma C7_no_ips_skips_pool_creation_witness :
  let env := mkEnv shipped keysSet (fun _ => emptyAccount) noon in
  let e := NewESPExample env in
  let o := CreateIPPool env e boot in
  returned o = true
  /\ object o = e
  /\ issued boot (world o)
     = [sendpost.mkExchange (sendpost.GetAllIps (createAccountAuthContext e))
          (Some (http.mkResponse 200)) None]
  /\ printed boot (world o)
     = [fmt.Println (LF ++ "=== Step 13: Creating IP Pool ===")%string;
        fmt.Println "Retrieving available IPs...";
        fmt.Println "⚠️  No IPs available. Please allocate IPs first."].
Proof.
  intros env e.
  apply (C7_no_ips_skips_pool_creation env e boot (Some (http.mkResponse 200))).
  reflexivity.
Defined.

(** C6, as the code has it.  Step 8 does not use what step 7 listed: it
    lists the IPs again.  If that listing of its own is the one-element
    list with the IP 1.2.3.4, the step sends, right after it, one
    pool-creation request that holds exactly that IP, routing strategy 0
    (round robin), warm-up interval 24 and overflow strategy 0 (none). *)
Theorem C6_pool_request_from_own_listing env e w ip resp :
  sendpost.IPAPI_GetAllIps (client e) (wire w) (createAccountAuthContext e)
    = ([ip], resp, None) ->
  IP.PublicIP ip = "1.2.3.4" ->
  exists x,
    issued w (world (CreateIPPool env e w))
    = [sendpost.mkExchange (sendpost.GetAllIps (createAccountAuthContext e)) resp None; x]
    /\ sendpost.sent x
       = sendpost.CreateIPPool (createAccountAuthContext e)
           (IPPoolCreateRequest.mk
              (Some (fmt.Sprintf "Marketing Pool %d"
                       [fmt.AInt (time.Unix (Now env (ticks w)))]))
              (Some 0) (Some [EIP.mk "1.2.3.4"]) (Some 24) (Some 0)).
Proof.
  intros Hips Hip.
  apply (wp_outcome (CreateIPPool env) e w
           (fun e' w' => exists x, issued w w' = [_; x] /\ sendpost.sent x = _)).
  unfold CreateIPPool. wp_run. rewrite Hips. wp_run.
  rewrite Hip. cbn [nonEmpty String.eqb Ascii.eqb Bool.eqb negb app].
  change (List.length [ip] =? 0)%nat with false. wp_run.
  match goal with
  | |- context [sendpost.IPPoolsAPI_CreateIPPool ?c ?h ?ctx ?r] =>
      destruct (sendpost.IPPoolsAPI_CreateIPPool c h ctx r) as [[ipPool resp'] [err|]]
  end; wp_simpl.
  - apply wp_quiet; [apply respects_failed; exact _|].
    intros w' Hw. cbn [wire exchanged] in Hw. eexists. split.
    + apply issued_app. rewrite Hw, <- app_assoc. reflexivity.
    + reflexivity.
  - apply wp_quiet; [frame_with sameWire_side|].
    intros w' Hw. cbn [wire exchanged] in Hw. eexists. split.
    + apply issued_app. rewrite Hw, <- app_assoc. reflexivity.
    + reflexivity.
Qed.

Lemma C6_pool_request_from_own_listing_witness :
  let env := mkEnv shipped keysSet (fun _ => oneIP) noon in
  let e := NewESPExample env in
  exists x,
    issued boot (world (CreateIPPool env e boot))
    = [sendpost.mkExchange (sendpost.GetAllIps (createAccountAuthContext e))
         (Some (http.mkResponse 200)) None; x]
    /\ sendpost.sent x
       = sendpost.CreateIPPool (createAccountAuthContext e)
           (IPPoolCreateRequest.mk
              (Some (fmt.Sprintf "Marketing Pool %d"
                       [fmt.AInt (time.Unix (Now env (ticks boot)))]))
              (Some 0) (Some [EIP.mk "1.2.3.4"]) (Some 24) (Some 0)).
Proof.
  intros env e.
  apply (C6_pool_request_from_own_listing env e boot theIP (Some (http.mkResponse 200)));
    reflexivity.
Defined.

(** C6 as stated fails.  Behind the rate limiter step 7 is served the list
    with the one IP 1.2.3.4 and prints it; the listing that step 8 makes
    itself is turned away, and the run, which completes, never sends a
    pool-creation request. *)
Lemma C6_counterexample :
  let env := mkEnv shipped keysSet (fun _ => rateLimited) noon in
  let o := main env in
  returned o = true
  /\ nth_error (requests (world o)) 5
     = Some (sendpost.GetAllIps [("accountAuth", "acct-key")])
  /\ sendpost.IPAPI_GetAllIps (client (object o)) (firstn 5 (wire (world o)))
       [("accountAuth", "acct-key")]
     = ([IP.mk 1 "1.2.3.4" None 0], Some (http.mkResponse 200), None)
  /\ In (fmt.Printf ("    IP Address: %s" ++ LF)%string [fmt.AStr "1.2.3.4"])
        (stdout (world o))
  /\ existsb isCreateIPPool (requests (world o)) = false.
Proof.
  vm_compute. repeat split.
  repeat (first [left; reflexivity | right]).
Qed.

(** ** Sending *)

(** C10.  When the send request of a send step succeeds and the response
    list is empty, the step returns, prints neither the failure headline
    nor its success line, and leaves the object, [sentMessageID] with it,
    as it was.  The condition is on the answer to the mail the step itself
    sends, at the point where it sends it. *)
Theorem C10_empty_send_response_is_silent env (s : Step) e w resp :
  isSendStep s = true ->
  (forall ctx m,
     In (sendpost.SendEmail ctx m)
        (map sendpost.sent (issued w (world (run env s e w)))) ->
     sendpost.EmailAPI_SendEmail (client e) (wire w) ctx m = ([], resp, None)) ->
  returned (run env s e w) = true
  /\ object (run env s e w) = e
  /\ ~ In sendFailureLine (printed w (world (run env s e w)))
  /\ ~ In (sendSuccessLine s) (printed w (world (run env s e w))).
Proof.
  intros Hs Hsend.
  apply (wp_returned (run env s) e w
           (fun e' w' => e' = e /\ ~ In sendFailureLine (printed w w')
                         /\ ~ In (sendSuccessLine s) (printed w w'))).
  destruct s; try discriminate Hs; cbn [run sendSuccessLine] in *.
  - unfold SendTransactionalEmail. wp_run.
    destruct (nonEmpty (createdIPPoolName e)) eqn:Hpool; wp_run;
      own_request (SendTransactionalEmail env) e w ltac:(rewrite Hpool) Hin;
      rewrite (Hsend _ _ Hin); wp_run;
      (split; [reflexivity|]);
      erewrite printed_app by (cbn [stdout]; rewrite <- !app_assoc; reflexivity);
      unfold sendFailureLine; cbn; intuition discriminate.
  - unfold SendMarketingEmail. wp_run.
    destruct (nonEmpty (createdIPPoolName e)) eqn:Hpool; wp_run;
      own_request (SendMarketingEmail env) e w ltac:(rewrite Hpool) Hin;
      rewrite (Hsend _ _ Hin); wp_run;
      (split; [reflexivity|]);
      erewrite printed_app by (cbn [stdout]; rewrite <- !app_assoc; reflexivity);
      unfold sendFailureLine; cbn; intuition discriminate.
Qed.

Lemma C10_empty_send_response_is_silent_witness :
  let env := mkEnv shipped keysSet (fun _ => picky) noon in
  let e := NewESPExample env in
  returned (run env StepSendMarketingEmail e boot) = true
  /\ object (run env StepSendMarketingEmail e boot) = e
  /\ ~ In sendFailureLine (printed boot (world (run env StepSendMarketingEmail e boot)))
  /\ ~ In (sendSuccessLine StepSendMarketingEmail)
          (printed boot (world (run env StepSendMarketingEmail e boot))).
Proof.
  intros env e.
  apply (C10_empty_send_response_is_silent env StepSendMarketingEmail e boot
           (Some (http.mkResponse 200))).
  - reflexivity.
  - intros ctx m Hin.
    the_request Hin. vm_compute. reflexivity.
Defined.

(** ** Failure of a request *)

Lemma no_failure_among w w' xs :
  wire w' = wire w ++ xs ->
  forallb (fun x => isNil (sendpost.failure x)) xs = true ->
  ~ someCallFailed w w'.
Proof.
  intros Hw Hall (x & Hin & Hf). rewrite (issued_app _ _ _ Hw) in Hin.
  rewrite forallb_forall in Hall. specialize (Hall x Hin).
  destruct (sendpost.failure x); [discriminate | now apply Hf].
Qed.

(** What is left of a step once its last request has come back: the error
    block, which changes nothing in the object, or a tail that sends
    nothing more. *)
Ltac no_failure Hw :=
  unfold sameWire in Hw; cbn [wire exchanged] in Hw;
  repeat rewrite <- app_assoc in Hw;
  lazymatch type of Hw with
  | wire _ = wire _ ++ ?xs => apply (no_failure_among _ _ xs Hw); reflexivity
  end.

Ltac after_last_request :=
  wp_simpl;
  lazymatch goal with
  | |- wp (failed _ _ _) _ _ _ _ =>
      apply wp_unchanged; [apply respects_failed; exact _ | intros; reflexivity]
  | |- _ =>
      apply wp_respects with (R := sameWire);
      [ solve [frame_with sameWire_side]
      | intros ? ? ? Hw Hfail; exfalso; revert Hfail; no_failure Hw
      | intros ? ? Hw Hfail; exfalso; revert Hfail; no_failure Hw ]
  end.

(** C2.  Whatever the step and the state it starts from: if a request the
    step made came back with an error, the object after the step (after
    its return, or at the point where it stopped) is the object before it,
    field for field. *)
Theorem C2_failure_leaves_state env (s : Step) e w :
  someCallFailed w (world (run env s e w)) ->
  object (run env s e w) = e.
Proof.
  apply (wp_outcome (run env s) e w (fun e' w' => someCallFailed w w' -> e' = e)).
  destruct s; cbn [run].
  - unfold ListSubAccounts. wp_run. split_response; after_last_request.
  - unfold CreateSubAccount. wp_run. split_response; after_last_request.
  - unfold CreateWebhook. wp_run. split_response; after_last_request.
  - unfold ListWebhooks. wp_run. split_response; after_last_request.
  - unfold AddDomain. wp_run. split_response; after_last_request.
  - unfold ListDomains. wp_run. split_response; after_last_request.
  - unfold ListIPs. wp_run. split_response; after_last_request.
  - unfold CreateIPPool. wp_run. split_response; wp_simpl.
    + after_last_request.
    + destruct (List.length l =? 0)%nat; wp_run.
      * intros Hfail. reflexivity.
      * split_response; after_last_request.
  - unfold ListIPPools. wp_run. split_response; after_last_request.
  - unfold SendTransactionalEmail. wp_run.
    destruct (nonEmpty (createdIPPoolName e)); wp_run;
      split_response; after_last_request.
  - unfold SendMarketingEmail. wp_run.
    destruct (nonEmpty (createdIPPoolName e)); wp_run;
      split_response; after_last_request.
  - unfold GetSubAccountStats. wp_run.
    destruct (createdSubAccountID e); wp_run; [|reflexivity].
    split_response; after_last_request.
  - unfold GetAggregateStats. wp_run.
    destruct (createdSubAccountID e); wp_run; [|reflexivity].
    split_response; after_last_request.
  - unfold GetAccountStats. wp_run. split_response; after_last_request.
  - unfold GetMessageDetails. wp_run.
    destruct (String.eqb (sentMessageID e) ""); wp_run; [reflexivity|].
    split_response; after_last_request.
Qed.

Lemma C2_failure_leaves_state_witness :
  let env := mkEnv shipped keysSet (fun _ => offline) noon in
  let e := NewESPExample env in
  someCallFailed boot (world (run env StepCreateSubAccount e boot))
  /\ object (run env StepCreateSubAccount e boot) = e.
Proof.
  intros env e.
  assert (H : someCallFailed boot (world (run env StepCreateSubAccount e boot))).
  { eexists. split; [left; reflexivity | discriminate]. }
  split; [exact H|].
  apply (C2_failure_leaves_state env StepCreateSubAccount e boot H).
Defined.

Ltac unchanged_tail :=
  apply wp_unchanged; [solve [frame_with no_side] | intros; try reflexivity].

(** C5, as the code has it.  Only the marketing step looks at
    [sentMessageID] before it writes: when the id is set it leaves it as
    it is, when it is unset it takes the id of the first response.  The
    transactional step takes the id of the first response whether an id is
    set or not.  In workflow order, where the transactional step comes
    first, a non-empty id it has taken is the one that stays.  The answer
    each part speaks of is the answer to the mail the step itself sends. *)
Theorem C5_send_steps_and_message_id env e w :
  (sentMessageID e <> "" ->
   sentMessageID (object (SendMarketingEmail env e w)) = sentMessageID e)
  /\ (forall r rest resp id,
        (forall ctx m,
           In (sendpost.SendEmail ctx m)
              (map sendpost.sent (issued w (world (SendTransactionalEmail env e w)))) ->
           sendpost.EmailAPI_SendEmail (client e) (wire w) ctx m = (r :: rest, resp, None)) ->
        EmailResponse.MessageId r = Some id ->
        sentMessageID (object (SendTransactionalEmail env e w)) = id
        /\ (id <> "" ->
            let o := SendTransactionalEmail env e w in
            sentMessageID (object (SendMarketingEmail env (object o) (world o))) = id))
  /\ (forall r rest resp id,
        (forall ctx m,
           In (sendpost.SendEmail ctx m)
              (map sendpost.sent (issued w (world (SendMarketingEmail env e w)))) ->
           sendpost.EmailAPI_SendEmail (client e) (wire w) ctx m = (r :: rest, resp, None)) ->
        EmailResponse.MessageId r = Some id ->
        sentMessageID e = "" ->
        sentMessageID (object (SendMarketingEmail env e w)) = id).
Proof.
  assert (Hkeep : forall e w, sentMessageID e <> "" ->
            sentMessageID (object (SendMarketingEmail env e w)) = sentMessageID e).
  { clear e w. intros e w Hset.
    apply (wp_outcome (SendMarketingEmail env) e w
             (fun e' _ => sentMessageID e' = sentMessageID e)).
    unfold SendMarketingEmail. wp_run.
    destruct (nonEmpty (createdIPPoolName e)); wp_run; split_response; wp_simpl;
      try unchanged_tail.
    - destruct l as [|response rest]; wp_run; [reflexivity|].
      destruct (String.eqb_spec (sentMessageID e) ""); [contradiction|]. wp_run.
      unchanged_tail.
    - destruct l as [|response rest]; wp_run; [reflexivity|].
      destruct (String.eqb_spec (sentMessageID e) ""); [contradiction|]. wp_run.
      unchanged_tail. }
  split; [apply Hkeep|]. split.
  - intros r rest resp id Hsend Hid.
    assert (Htake : sentMessageID (object (SendTransactionalEmail env e w)) = id).
    { apply (wp_outcome (SendTransactionalEmail env) e w
               (fun e' _ => sentMessageID e' = id)).
      unfold SendTransactionalEmail. wp_run.
      destruct (nonEmpty (createdIPPoolName e)) eqn:Hpool; wp_run;
        own_request (SendTransactionalEmail env) e w ltac:(rewrite Hpool) Hin;
        rewrite (Hsend _ _ Hin); wp_run;
        rewrite Hid; wp_run; unchanged_tail. }
    split; [exact Htake|].
    intros Hid' o. subst o. rewrite Hkeep; [exact Htake|].
    rewrite Htake. exact Hid'.
  - intros r rest resp id Hsend Hid Hunset.
    apply (wp_outcome (SendMarketingEmail env) e w
             (fun e' _ => sentMessageID e' = id)).
    unfold SendMarketingEmail. wp_run.
    destruct (nonEmpty (createdIPPoolName e)) eqn:Hpool; wp_run;
      own_request (SendMarketingEmail env) e w ltac:(rewrite Hpool) Hin;
      rewrite (Hsend _ _ Hin); wp_run;
      rewrite Hunset; cbn [String.eqb]; wp_run; rewrite Hid; wp_run; unchanged_tail.
Qed.

Lemma C5_send_steps_and_message_id_witness :
  let env := mkEnv shipped keysSet (fun _ => picky) noon in
  let e := NewESPExample env in
  let o := SendTransactionalEmail env e boot in
  sentMessageID (object o) = "msg-1"
  /\ sentMessageID (object (SendMarketingEmail env (object o) (world o))) = "msg-1".
Proof.
  intros env e o.
  destruct (C5_send_steps_and_message_id env e boot) as (_ & H & _).
  destruct (H (EmailResponse.mk (Some "msg-1") None) [] (Some (http.mkResponse 200))
              "msg-1") as (H1 & H3).
  - intros ctx m Hin.
    the_request Hin. vm_compute. reflexivity.
  - reflexivity.
  - split; [exact H1|]. apply H3. discriminate.
Defined.

(** C5 as stated fails for the transactional step.  A program that sends
    the marketing mail first has an id when the transactional step runs,
    and that step replaces it. *)
Lemma C5_counterexample :
  let env := mkEnv shipped keysSet (fun _ => numbering) noon in
  let o1 := SendMarketingEmail env (NewESPExample env) boot in
  let o2 := SendTransactionalEmail env (object o1) (world o1) in
  sentMessageID (object o1) = "msg-0"
  /\ sentMessageID (object o2) = "msg-1".
Proof. vm_compute. split; reflexivity. Qed.

(** ** The statistics window *)

Lemma window_of_request w w' x from to :
  wire w' = wire w ++ [x] ->
  (subAccountStatsWindow [sendpost.sent x] = Some (from, to)
   -> subAccountStatsWindow (map sendpost.sent (issued w w')) = Some (from, to))
  /\ (aggregateStatsWindow [sendpost.sent x] = Some (from, to)
      -> aggregateStatsWindow (map sendpost.sent (issued w w')) = Some (from, to))
  /\ (accountStatsWindow [sendpost.sent x] = Some (from, to)
      -> accountStatsWindow (map sendpost.sent (issued w w')) = Some (from, to)).
Proof. intros Hw. rewrite (issued_app _ _ _ Hw). cbn [map]. tauto. Qed.

(** Once the statistics request is out, nothing more is sent: the window
    asked for is the window of that request. *)
Ltac window_sent :=
  let w' := fresh "w'" in
  let Hw := fresh "Hw" in
  split_response; wp_simpl;
  (apply wp_quiet; [first [apply respects_failed; exact _ | frame_with sameWire_side]|]);
  intros w' Hw; cbn [wire] in Hw;
  apply (window_of_request _ _ _ _ _ Hw);
  cbn [subAccountStatsWindow aggregateStatsWindow accountStatsWindow sendpost.sent];
  reflexivity.

(** The window a reading [now] leads to. *)
Lemma window_of_reading now asked :
  asked = Some (time.Format (time.AddDate now 0 0 (-7)), time.Format now) ->
  option_map snd asked = Some (time.FormatDay (time.absDays now))
  /\ (settled now ->
      asked = Some (time.FormatDay (time.absDays now - 7),
                    time.FormatDay (time.absDays now))).
Proof.
  intros ->. split; [reflexivity|].
  intros H. f_equal. apply (week_before now H).
Qed.


Lemma havanaNoon_settled n : settled (havanaNoon n).
Proof.
  split; cbn.
  - unfold time.secondsPerDay, time.secondsPerHour, time.secondsPerMinute. lia.
  - intros s Hs. unfold havana.
    unfold time.secondsPerDay, time.secondsPerHour, time.secondsPerMinute in Hs.
    destruct (Z.ltb_spec s 1710046800); [reflexivity | lia].
Qed.



(** ** The sub-account id *)

Lemma beside_steps env (s : Step) :
  besideSubAccount s = true -> respects aside (run env s).
Proof.
  destruct s; intros H; try discriminate H; cbn [run]; unfold_step;
    frame_with aside_side.
Qed.

(** Without a sub-account id the two sub-account statistics steps return at
    their guard. *)
Lemma idle_stats env (s : Step) :
  s = StepGetSubAccountStats \/ s = StepGetAggregateStats -> respects idle (run env s).
Proof.
  intros Hs e w Hnone.
  apply (wp_outcome (run env s) e w (fun e' w' => aside e w e' w')).
  destruct Hs as [-> | ->]; cbn [run].
  - unfold GetSubAccountStats. wp_run. rewrite Hnone. wp_run.
    split; [reflexivity | exists []; split; [now rewrite app_nil_r | reflexivity]].
  - unfold GetAggregateStats. wp_run. rewrite Hnone. wp_run.
    split; [reflexivity | exists []; split; [now rewrite app_nil_r | reflexivity]].
Qed.

Lemma later_steps_idle env (s : Step) : In s laterSteps -> respects idle (run env s).
Proof.
  intros Hin. cbn in Hin.
  repeat (destruct Hin as [<- | Hin];
          [first [ apply aside_idle, beside_steps; reflexivity
                 | apply idle_stats; auto ] |]).
  contradiction.
Qed.

Ltac later_step env :=
      first
        [ apply (later_steps_idle env StepCreateWebhook); cbn; tauto
        | apply (later_steps_idle env StepListWebhooks); cbn; tauto
        | apply (later_steps_idle env StepAddDomain); cbn; tauto
        | apply (later_steps_idle env StepListDomains); cbn; tauto
        | apply (later_steps_idle env StepListIPs); cbn; tauto
        | apply (later_steps_idle env StepCreateIPPool); cbn; tauto
        | apply (later_steps_idle env StepListIPPools); cbn; tauto
        | apply (later_steps_idle env StepSendTransactionalEmail); cbn; tauto
        | apply (later_steps_idle env StepSendMarketingEmail); cbn; tauto
        | apply (later_steps_idle env StepGetSubAccountStats); cbn; tauto
        | apply (later_steps_idle env StepGetAggregateStats); cbn; tauto
        | apply (later_steps_idle env StepGetAccountStats); cbn; tauto
        | apply (later_steps_idle env StepGetMessageDetails); cbn; tauto ].

Lemma none_of_kind (p : sendpost.Call -> bool) (q : sendpost.Exchange -> bool) xs :
  (forall x, q x = true -> p (sendpost.sent x) = false) ->
  forallb q xs = true -> existsb p (map sendpost.sent xs) = false.
Proof.
  intros Hq. induction xs as [|x xs IH]; cbn; [reflexivity|].
  intros H. apply andb_true_iff in H as [Hx Hxs].
  rewrite (Hq x Hx), IH by assumption. reflexivity.
Qed.

(** In a fresh run whose sub-account listing is empty, no sub-account id is
    ever known: the run creates no sub-account and asks for no sub-account
    statistics. *)
Lemma fresh_run_without_sub_accounts env resp :
  sendpost.SubAccountAPI_GetAllSubAccounts (client (NewESPExample env)) []
    (createAccountAuthContext (NewESPExample env)) = ([], resp, None) ->
  createdSubAccountID (object (main env)) = None
  /\ existsb isCreateSubAccount (requests (world (main env))) = false
  /\ existsb isSubAccountStats (requests (world (main env))) = false.
Proof.
  intros Hlist. unfold main.
  set (e0 := NewESPExample env) in *.
  apply (wp_outcome (RunCompleteWorkflow env) e0 boot
           (fun e' w' => createdSubAccountID e' = None
                         /\ existsb isCreateSubAccount (requests w') = false
                         /\ existsb isSubAccountStats (requests w') = false)).
  unfold RunCompleteWorkflow.
  assert (Hquiet : forall w', wire w' = [] ->
            createdSubAccountID e0 = None
            /\ existsb isCreateSubAccount (requests w') = false
            /\ existsb isSubAccountStats (requests w') = false).
  { intros w' Hw'. unfold requests. rewrite Hw'. repeat split. }
  apply wp_bind, wp_over; [apply respects_banner; exact _ | | intros; auto].
  intros _ w1 Hw1. wp_run.
  apply wp_bind, wp_over;
    [frame_with no_side | | intros w2 Hw2; apply Hquiet; rewrite Hw2; exact Hw1].
  intros _ w2 Hw2. wp_simpl.
  apply wp_bind. unfold ListSubAccounts. wp_run.
  rewrite Hw2, Hw1. cbn [wire boot]. rewrite Hlist. wp_run. cbn [forRange]. wp_run.
  apply wp_respects with (R := idle).
  - by_steps ltac:(idtac; later_step env).
  - intros _ e' w' Hidle. destruct (Hidle eq_refl) as [Hid (xs & Hwire & Hxs)].
    cbn [wire app] in Hwire.
    unfold requests. rewrite Hwire. cbn [map existsb sendpost.sent isCreateSubAccount
                                          isSubAccountStats orb].
    split; [rewrite Hid; reflexivity|].
    split; eapply none_of_kind; try exact Hxs; cbn beta;
      intros x Hx; apply andb_true_iff in Hx as [H1 H2];
      [destruct (isCreateSubAccount (sendpost.sent x)) | destruct (isSubAccountStats (sendpost.sent x))];
      auto; discriminate.
  - intros e' w' Hidle. destruct (Hidle eq_refl) as [Hid (xs & Hwire & Hxs)].
    cbn [wire app] in Hwire.
    unfold requests. rewrite Hwire. cbn [map existsb sendpost.sent isCreateSubAccount
                                          isSubAccountStats orb].
    split; [rewrite Hid; reflexivity|].
    split; eapply none_of_kind; try exact Hxs; cbn beta;
      intros x Hx; apply andb_true_iff in Hx as [H1 H2];
      [destruct (isCreateSubAccount (sendpost.sent x)) | destruct (isSubAccountStats (sendpost.sent x))];
      auto; discriminate.
Qed.

(** With a sub-account id the statistics step asks the API, for that id. *)
Lemma stats_attempted env e w id :
  createdSubAccountID e = Some id ->
  exists from to,
    In (sendpost.AccountSubaccountStatSubaccountIdGet (createAccountAuthContext e)
          (int64 id) from to)
       (map sendpost.sent (issued w (world (GetSubAccountStats env e w)))).
Proof.
  intros Hid.
  apply (wp_outcome (GetSubAccountStats env) e w
           (fun _ w' => exists from to, In _ (map sendpost.sent (issued w w')))).
  unfold GetSubAccountStats. wp_run. rewrite Hid. wp_run.
  split_response; wp_simpl.
  - apply wp_quiet; [apply respects_failed; exact _|].
    intros w' Hw. cbn [wire exchanged] in Hw. rewrite (issued_app w _ _ Hw).
    do 2 eexists. left. reflexivity.
  - apply wp_quiet; [frame_with sameWire_side|].
    intros w' Hw. cbn [wire exchanged] in Hw. rewrite (issued_app w _ _ Hw).
    do 2 eexists. left. reflexivity.
Qed.

(** C1, as the code has it.  [RunCompleteWorkflow] does not call
    [CreateSubAccount].  In a fresh run whose sub-account listing is empty
    the sub-account id stays unset, no sub-account is created and the
    sub-account statistics are never asked for.  The step
    [CreateSubAccount] itself, when it is run and the answer to its request
    carries an id, returns with that id (and the key, if the answer has
    one) recorded, and [GetSubAccountStats] run after it asks the API for
    the statistics of that id. *)
Theorem C1_sub_account_id_and_statistics env resp e w sa resp' id :
  sendpost.SubAccountAPI_GetAllSubAccounts (client (NewESPExample env)) []
    (createAccountAuthContext (NewESPExample env)) = ([], resp, None) ->
  (forall ctx r,
     In (sendpost.CreateSubAccount ctx r)
        (map sendpost.sent (issued w (world (CreateSubAccount env e w)))) ->
     sendpost.SubAccountAPI_CreateSubAccount (client e) (wire w) ctx r
     = (Some sa, resp', None)) ->
  SubAccount.Id sa = Some id ->
  (createdSubAccountID (object (main env)) = None
   /\ existsb isCreateSubAccount (requests (world (main env))) = false
   /\ existsb isSubAccountStats (requests (world (main env))) = false)
  /\ (let o := CreateSubAccount env e w in
      returned o = true
      /\ createdSubAccountID (object o) = Some id
      /\ (forall key, SubAccount.ApiKey sa = Some key -> createdSubAccountKey (object o) = key)
      /\ exists from to,
           In (sendpost.AccountSubaccountStatSubaccountIdGet
                 (createAccountAuthContext (object o)) (int64 id) from to)
              (map sendpost.sent
                 (issued (world o) (world (GetSubAccountStats env (object o) (world o)))))).
Proof.
  intros Hlist Hcreate Hid. split; [eapply fresh_run_without_sub_accounts; eassumption|].
  intros o.
  assert (Ho : returned o = true
               /\ (createdSubAccountID (object o) = Some id
                   /\ forall key, SubAccount.ApiKey sa = Some key ->
                                  createdSubAccountKey (object o) = key)).
  { subst o.
    apply (wp_returned (CreateSubAccount env) e w
             (fun e' _ => createdSubAccountID e' = Some id
                          /\ forall key, SubAccount.ApiKey sa = Some key ->
                                         createdSubAccountKey e' = key)).
    unfold CreateSubAccount. wp_run.
    own_request (CreateSubAccount env) e w ltac:(idtac) Hin.
    rewrite (Hcreate _ _ Hin). wp_run.
    rewrite Hid. cbn [isNil negb]. wp_run.
    destruct (SubAccount.Name sa), (SubAccount.ApiKey sa), (SubAccount.Type_ sa);
      wp_run; (split; [reflexivity|]); intros key Hkey;
      first [injection Hkey as <-; reflexivity | discriminate]. }
  destruct Ho as (Hret & Hset & Hkey).
  repeat split; try assumption.
  apply stats_attempted. exact Hset.
Qed.

Lemma C1_sub_account_id_and_statistics_witness :
  let env := mkEnv shipped keysSet (fun _ => echoing) noon in
  let e := NewESPExample env in
  (createdSubAccountID (object (main env)) = None
   /\ existsb isCreateSubAccount (requests (world (main env))) = false
   /\ existsb isSubAccountStats (requests (world (main env))) = false)
  /\ (let o := CreateSubAccount env e boot in
      returned o = true
      /\ createdSubAccountID (object o) = Some 50441
      /\ (forall key, Some "pR0YIuxYSbVwmQi2Y8Qs"%string = Some key ->
                      createdSubAccountKey (object o) = key)
      /\ exists from to,
           In (sendpost.AccountSubaccountStatSubaccountIdGet
                 (createAccountAuthContext (object o)) (int64 50441) from to)
              (map sendpost.sent
                 (issued (world o) (world (GetSubAccountStats env (object o) (world o)))))).
Proof.
  intros env e.
  apply (C1_sub_account_id_and_statistics env (Some (http.mkResponse 200)) e boot
           (SubAccount.mk (Some 50441) (Some "ESP Client - 1709553600"%string)
              (Some "pR0YIuxYSbVwmQi2Y8Qs"%string) (Some 0) None None)
           (Some (http.mkResponse 200)) 50441).
  - reflexivity.
  - intros ctx r Hin.
    the_request Hin. vm_compute. reflexivity.
  - reflexivity.
Defined.

(** C1 as stated fails.  On an account without sub-accounts the run
    completes without a request that creates a sub-account; the id is
    unset at the end, and the statistics step printed its skip line
    instead of asking the API. *)
Lemma C1_counterexample :
  let env := mkEnv shipped keysSet (fun _ => emptyAccount) noon in
  let o := main env in
  returned o = true
  /\ sendpost.SubAccountAPI_GetAllSubAccounts (client (NewESPExample env)) []
       [("accountAuth", "acct-key")%string] = ([], Some (http.mkResponse 200), None)
  /\ existsb isCreateSubAccount (requests (world o)) = false
  /\ createdSubAccountID (object o) = None
  /\ existsb isSubAccountStats (requests (world o)) = false
  /\ In (fmt.Println
           "✗ No sub-account ID available. Please create or list sub-accounts first.")
        (stdout (world o)).
Proof.
  vm_compute. repeat split.
  repeat (first [left; reflexivity | right]).
Qed.

(** ** Configuration *)

Lemma startsWith_grows c pre e w e' w' :
  startsWith c pre w -> grows e w e' w' -> startsWith c pre w'.
Proof.
  intros [(x & rest & Hw & Hx) (os & Ho)] [(xs & Hxs) (os' & Hos)]. split.
  - exists x, (rest ++ xs). rewrite Hxs, Hw. split; [reflexivity | exact Hx].
  - exists (os ++ os'). rewrite Hos, Ho, app_assoc. reflexivity.
Qed.

Ltac any_step env :=
  first
    [ apply (steps_grow env StepListSubAccounts)
    | apply (steps_grow env StepCreateWebhook)
    | apply (steps_grow env StepListWebhooks)
    | apply (steps_grow env StepAddDomain)
    | apply (steps_grow env StepListDomains)
    | apply (steps_grow env StepListIPs)
    | apply (steps_grow env StepCreateIPPool)
    | apply (steps_grow env StepListIPPools)
    | apply (steps_grow env StepSendTransactionalEmail)
    | apply (steps_grow env StepSendMarketingEmail)
    | apply (steps_grow env StepGetSubAccountStats)
    | apply (steps_grow env StepGetAggregateStats)
    | apply (steps_grow env StepGetAccountStats)
    | apply (steps_grow env StepGetMessageDetails) ].

(** C4, as the code has it.  Nothing is validated and nothing stops the
    run before the network is used.  Whatever the constants and the keys
    are, the run prints its banner, then, if an API key is still its
    placeholder, the warning, then the header of step 1, and the first
    request of step 1 goes out. *)
Theorem C4_runs_whatever_the_configuration env :
  startsWith
    (sendpost.GetAllSubAccounts [("accountAuth", accountAPIKey (NewESPExample env))])
    (openingBanner
     ++ (if keysArePlaceholders (NewESPExample env) then keyWarning else [])
     ++ [fmt.Println (LF ++ "=== Step 1: Listing All Sub-Accounts ===")%string;
         fmt.Println "Retrieving all sub-accounts..."])
    (world (main env)).
Proof.
  unfold main. set (e0 := NewESPExample env).
  apply (wp_outcome (RunCompleteWorkflow env) e0 boot (fun _ w' => startsWith _ _ w')).
  unfold RunCompleteWorkflow, banner. wp_run.
  destruct (keysArePlaceholders e0); wp_run.
  - apply wp_bind. unfold ListSubAccounts. wp_run.
    match goal with
    | |- wp _ _ ?w1 _ _ =>
        assert (Hstart : startsWith
                  (sendpost.GetAllSubAccounts [("accountAuth", accountAPIKey e0)]%string)
                  (openingBanner ++ keyWarning
                   ++ [fmt.Println (LF ++ "=== Step 1: Listing All Sub-Accounts ===")%string;
                       fmt.Println "Retrieving all sub-accounts..."]) w1)
    end.
    { split; cbn [wire stdout boot app].
      - do 2 eexists. split; reflexivity.
      - exists []. reflexivity. }
    apply wp_respects with (R := grows).
    + frame_with grows_side.
    + intros _ e1 w1 H1. wp_simpl. apply wp_respects with (R := grows).
      * by_steps ltac:(idtac; any_step env).
      * intros _ e2 w2 H2. eapply startsWith_grows; [|exact H2].
        eapply startsWith_grows; [exact Hstart | exact H1].
      * intros e2 w2 H2. eapply startsWith_grows; [|exact H2].
        eapply startsWith_grows; [exact Hstart | exact H1].
    + intros e1 w1 H1. eapply startsWith_grows; [exact Hstart | exact H1].
  - apply wp_bind. unfold ListSubAccounts. wp_run.
    match goal with
    | |- wp _ _ ?w1 _ _ =>
        assert (Hstart : startsWith
                  (sendpost.GetAllSubAccounts [("accountAuth", accountAPIKey e0)]%string)
                  (openingBanner ++ []
                   ++ [fmt.Println (LF ++ "=== Step 1: Listing All Sub-Accounts ===")%string;
                       fmt.Println "Retrieving all sub-accounts..."]) w1)
    end.
    { split; cbn [wire stdout boot app].
      - do 2 eexists. split; reflexivity.
      - exists []. reflexivity. }
    apply wp_respects with (R := grows).
    + frame_with grows_side.
    + intros _ e1 w1 H1. wp_simpl. apply wp_respects with (R := grows).
      * by_steps ltac:(idtac; any_step env).
      * intros _ e2 w2 H2. eapply startsWith_grows; [|exact H2].
        eapply startsWith_grows; [exact Hstart | exact H1].
      * intros e2 w2 H2. eapply startsWith_grows; [|exact H2].
        eapply startsWith_grows; [exact Hstart | exact H1].
    + intros e1 w1 H1. eapply startsWith_grows; [exact Hstart | exact H1].
Qed.

(** C4 as stated fails.  With the webhook URL empty and both API keys left
    at their placeholders the run is not stopped: it sends the first
    request of step 1, later the webhook request with the empty URL, and
    goes on to the end. *)
Lemma C4_counterexample :
  let env := mkEnv noWebhookURL noEnvironment (fun _ => emptyAccount) noon in
  let o := main env in
  webhookURL (constants env) = ""%string
  /\ keysArePlaceholders (NewESPExample env) = true
  /\ returned o = true
  /\ nth_error (requests (world o)) 0
     = Some (sendpost.GetAllSubAccounts [("accountAuth", "YOUR_ACCOUNT_API_KEY_HERE")%string])
  /\ (exists r, nth_error (requests (world o)) 1
                = Some (sendpost.CreateWebhook
                          [("accountAuth", "YOUR_ACCOUNT_API_KEY_HERE")%string] r)
                /\ CreateWebhookRequest.Url r = Some ""%string)
  /\ List.length (requests (world o)) = 12%nat.
Proof.
  vm_compute. repeat split. eexists. split; reflexivity.
Qed.

(** ** Errors without a response *)

(** The error block reads [resp.StatusCode] through a pointer it has not
    tested: with an error and no response it stops in a panic, after the
    headline. *)
Lemma failed_without_response headline err e w :
  failed headline None err e w
  = Panicked "runtime error: invalid memory address or nil pointer dereference" e
      (mkWorld (stdout w ++ [fmt.Printf headline []]) (wire w) (ticks w)).
Proof. reflexivity. Qed.

(** C3 fails on the code.  When the network is down the first request comes
    back with an error and no HTTP response; step 1 prints its failure
    headline and panics on [resp.StatusCode]; no later step runs and the
    closing banner is never printed. *)
Theorem C3_transport_failure_stops_the_run :
  let env := mkEnv shipped keysSet (fun _ => offline) noon in
  let o := main env in
  returned o = false
  /\ requests (world o) = [sendpost.GetAllSubAccounts [("accountAuth", "acct-key")%string]]
  /\ map sendpost.response (wire (world o)) = [None]
  /\ last (stdout (world o)) (fmt.Println "")
     = fmt.Printf ("✗ Failed to list sub-accounts:" ++ LF)%string []
  /\ ~ In (fmt.Println "║   Workflow Complete!                                          ║")
          (stdout (world o)).
Proof.
  vm_compute. repeat split. intuition discriminate.
Qed.

(** ** Errors with a response

    The other side of C3: the nil response is the only way an error stops
    the run.  With a client whose errors all carry a response (and whose
    listed sub-accounts all have an id, which step 1 prints through an
    untested pointer) every step returns and the run reaches its end. *)

#[export] Instance sameClient_Frame : Frame sameClient.
Proof. split; unfold sameClient; cbn; intros; congruence. Qed.

Lemma returns_ret {A} (a : A) : returns (ret a).
Proof. intros e w. reflexivity. Qed.

Lemma returns_bind {A B} (m : M A) (k : A -> M B) :
  returns m -> (forall a, returns (k a)) -> returns (bind m k).
Proof.
  intros Hm Hk e w. specialize (Hm e w). unfold bind.
  destruct (m e w); [apply Hk | discriminate].
Qed.

Lemma returns_Println s : returns (Println s).
Proof. intros e w. reflexivity. Qed.

Lemma returns_Printf f args : returns (Printf f args).
Proof. intros e w. reflexivity. Qed.

Lemma returns_this : returns this.
Proof. intros e w. reflexivity. Qed.

Lemma returns_assign f : returns (assign f).
Proof. intros e w. reflexivity. Qed.

Lemma returns_when c body : returns body -> returns (when c body).
Proof. destruct c; [exact (fun H => H) | intros _; apply returns_ret]. Qed.

Lemma returns_whenSome {A} (p : option A) body :
  (forall a, returns (body a)) -> returns (whenSome p body).
Proof. destruct p; [intros H; apply H | intros _; apply returns_ret]. Qed.

Lemma returns_forRange {A} (xs : list A) body :
  (forall x, In x xs -> returns (body x)) -> returns (forRange xs body).
Proof.
  induction xs as [|x xs IH]; intros Hb; cbn [forRange].
  - apply returns_ret.
  - apply returns_bind; [apply Hb; now left | intros _; apply IH].
    intros y Hy. apply Hb. now right.
Qed.

Lemma returns_forRangeAcc {A S} (xs : list A) (acc : S) body :
  (forall s x, returns (body s x)) -> returns (forRangeAcc xs acc body).
Proof.
  intros Hb. revert acc. induction xs as [|x xs IH]; intros acc; cbn [forRangeAcc].
  - apply returns_ret.
  - apply returns_bind; [apply Hb | intros acc'; apply IH].
Qed.

Lemma returns_banner top title : returns (banner top title).
Proof. intros e w. reflexivity. Qed.

(** With a response at hand the error block returns. *)
Lemma returns_failed headline r err : returns (failed headline (Some r) err).
Proof. intros e w. reflexivity. Qed.

(** Reading through a pointer that is not nil. *)
Lemma returns_deref {A} (a : A) : returns (deref (Some a)).
Proof. intros e w. reflexivity. Qed.

Ltac returns_auto :=
  repeat (cbv beta zeta;
    lazymatch goal with
    | |- returns (bind _ _) => apply returns_bind; [|intro]
    | |- returns (ret _) => apply returns_ret
    | |- returns (deref (Some _)) => apply returns_deref
    | |- returns (Println _) => apply returns_Println
    | |- returns (banner _ _) => apply returns_banner
    | |- returns (Printf _ _) => apply returns_Printf
    | |- returns this => apply returns_this
    | |- returns (assign _) => apply returns_assign
    | |- returns (when _ _) => apply returns_when
    | |- returns (whenSome _ _) => apply returns_whenSome; intro
    | |- returns (forRange _ _) => apply returns_forRange; intros ? _
    | |- returns (forRangeAcc _ _ _) => apply returns_forRangeAcc; intros
    | |- returns (match ?x with _ => _ end) => destruct x
    end).

Lemma safe_of_returns c {A} (m : M A) :
  returns m -> respects sameClient m -> safe c m.
Proof.
  intros Hm Hc e w He. split; [apply Hm|]. rewrite <- He. apply Hc.
Qed.

Lemma wp_safe c {A} (m : M A) e w Q E :
  safe c m -> client e = c ->
  (forall a e' w', client e' = c -> Q a e' w') ->
  wp m e w Q E.
Proof.
  intros Hm He HQ. destruct (Hm e w He) as [Hr Hc]. unfold wp.
  destruct (m e w); [apply HQ; exact Hc | discriminate].
Qed.

Ltac sameClient_side := intros; reflexivity.

(** What is left of a step once a request has come back, for a client that
    answers its errors. *)
Ltac answered_response :=
  lazymatch goal with
  | |- wp (let (_, _) := ?r in _) _ _ _ _ =>
      let Ha := fresh "Ha" in
      assert (Ha : answered r) by auto;
      let resp := fresh "resp" in
      let err := fresh "err" in
      destruct r as [[? resp] [err|]]; unfold answered in Ha; cbn [fst snd] in Ha;
      wp_simpl;
      [ destruct resp as [?|]; [|exfalso; apply Ha; [discriminate | reflexivity]];
        eapply wp_safe;
        [ apply safe_of_returns; [apply returns_failed | apply respects_failed; exact _]
        | reflexivity | intros; assumption ]
      | clear Ha ]
  end.

Ltac safe_tail :=
  eapply wp_safe;
  [ apply safe_of_returns; [solve [returns_auto] | solve [frame_with sameClient_side]]
  | reflexivity | intros; assumption ].

(** The same for a request that returns one object, for a client whose
    successful answers hold the object. *)
Ltac delivered_response :=
  lazymatch goal with
  | |- wp (let (_, _) := ?r in _) _ _ _ _ =>
      let Hd := fresh "Hd" in
      assert (Hd : delivered r) by auto;
      answered_response;
      unfold delivered in Hd; cbn [fst snd] in Hd;
      lazymatch type of Hd with
      | _ -> ?v <> None => destruct v; [clear Hd | exfalso; exact (Hd eq_refl eq_refl)]
      end
  end.

Lemma steps_safe env c (s : Step) : wellBehaved c -> complete c -> safe c (run env s).
Proof.
  intros W C e w He. subst c.
  destruct W as (W1 & Wid & W2 & W3 & W4 & W5 & W6 & W7 & W8 & W9 & W10 & W11 & W12
                 & W13 & W14).
  destruct C as (C1 & C2 & C3 & C4 & Cfrom & C5 & C6).
  apply (wp_returned (run env s) e w (fun e' _ => client e' = client e)).
  destruct s; cbn [run].
  - unfold ListSubAccounts. wp_run.
    match goal with
    | |- wp (let (_, _) := ?r in _) _ _ _ _ =>
        pose proof (Wid (wire w) (createAccountAuthContext e)) as Hids
    end.
    answered_response. cbn [fst] in Hids.
    apply wp_safe with (c := client e); [|reflexivity|intros; assumption].
    apply safe_of_returns; [|frame_with sameClient_side].
    apply returns_bind; [apply returns_Printf | intros _].
    apply returns_forRange. intros sa Hsa. specialize (Hids sa Hsa).
    destruct (SubAccount.Id sa); [|contradiction]. cbn [deref]. returns_auto.
  - unfold CreateSubAccount. wp_run. delivered_response. safe_tail.
  - unfold CreateWebhook. wp_run. delivered_response. safe_tail.
  - unfold ListWebhooks. wp_run. answered_response. safe_tail.
  - unfold AddDomain. wp_run. delivered_response. safe_tail.
  - unfold ListDomains. wp_run. answered_response. safe_tail.
  - unfold ListIPs. wp_run. answered_response. safe_tail.
  - unfold CreateIPPool. wp_run. answered_response.
    destruct (List.length l =? 0)%nat; wp_run; [reflexivity|].
    delivered_response. safe_tail.
  - unfold ListIPPools. wp_run. answered_response. safe_tail.
  - unfold SendTransactionalEmail. wp_run.
    destruct (nonEmpty (createdIPPoolName e)); wp_run; answered_response; safe_tail.
  - unfold SendMarketingEmail. wp_run.
    destruct (nonEmpty (createdIPPoolName e)); wp_run; answered_response; safe_tail.
  - unfold GetSubAccountStats. wp_run.
    destruct (createdSubAccountID e); wp_run; [|reflexivity].
    answered_response. safe_tail.
  - unfold GetAggregateStats. wp_run.
    destruct (createdSubAccountID e); wp_run; [|reflexivity].
    delivered_response. safe_tail.
  - unfold GetAccountStats. wp_run. answered_response. safe_tail.
  - unfold GetMessageDetails. wp_run.
    destruct (String.eqb (sentMessageID e) ""); wp_run; [reflexivity|].
    pose proof (Cfrom (wire w) (createAccountAuthContext e) (sentMessageID e)) as Hfrom.
    delivered_response. wp_run.
    specialize (Hfrom _ _ eq_refl). destruct (Message.From t); [|contradiction].
    safe_tail.
Qed.

Ltac safe_step env W C :=
  lazymatch goal with
  | |- safe _ (banner _ _) =>
      apply safe_of_returns; [solve [returns_auto] | solve [frame_with sameClient_side]]
  | |- safe _ this =>
      apply safe_of_returns; [solve [returns_auto] | solve [frame_with sameClient_side]]
  | |- safe _ (when _ _) =>
      apply safe_of_returns; [solve [returns_auto] | solve [frame_with sameClient_side]]
  | |- _ =>
      first
        [ apply (steps_safe env _ StepListSubAccounts W C)
        | apply (steps_safe env _ StepCreateWebhook W C)
        | apply (steps_safe env _ StepListWebhooks W C)
        | apply (steps_safe env _ StepAddDomain W C)
        | apply (steps_safe env _ StepListDomains W C)
        | apply (steps_safe env _ StepListIPs W C)
        | apply (steps_safe env _ StepCreateIPPool W C)
        | apply (steps_safe env _ StepListIPPools W C)
        | apply (steps_safe env _ StepSendTransactionalEmail W C)
        | apply (steps_safe env _ StepSendMarketingEmail W C)
        | apply (steps_safe env _ StepGetSubAccountStats W C)
        | apply (steps_safe env _ StepGetAggregateStats W C)
        | apply (steps_safe env _ StepGetAccountStats W C)
        | apply (steps_safe env _ StepGetMessageDetails W C) ]
  end.

(** X1.  When every error of the client comes with a response, every
    listed sub-account has an id, every successful call for one object
    returns the object and every message returned names its sender, the
    run returns, and the last thing it prints is the closing banner: no
    reported error ends it early. *)
Lemma run_completes_when_errors_carry_responses env :
  wellBehaved (client (NewESPExample env)) ->
  complete (client (NewESPExample env)) ->
  returned (main env) = true
  /\ exists pre, stdout (world (main env)) = pre ++ closingBanner.
Proof.
  intros W C. unfold main.
  apply (wp_returned (RunCompleteWorkflow env) (NewESPExample env) boot
           (fun _ w' => exists pre, stdout w' = pre ++ closingBanner)).
  unfold RunCompleteWorkflow.
  apply wp_bind. eapply wp_safe; [safe_step env W C | reflexivity | intros _ e' w' Hc].
  repeat (wp_simpl;
          lazymatch goal with |- wp (bind _ _) _ _ _ _ => apply wp_bind end;
          eapply wp_safe; [safe_step env W C | exact Hc | clear e' w' Hc; intros ? e' w' Hc]).
  unfold banner. wp_run.
  exists (stdout w'). rewrite <- !app_assoc. reflexivity.
Qed.

Lemma mailRefused_wellBehaved : wellBehaved mailRefused.
Proof.
  unfold wellBehaved, answered, mailRefused, fullAccount; cbn.
  repeat split; intros; try discriminate; try contradiction.
  destruct H as [<-|[]]. discriminate.
Qed.

Lemma mailRefused_complete : complete mailRefused.
Proof.
  unfold complete, delivered, mailRefused, fullAccount; cbn.
  repeat split; intros; try discriminate.
  injection H as <- _. discriminate.
Qed.

(** A run in which every step but one has something to ask: the two send
    requests are turned away with a status, the twelve other requests
    succeed, no message details are asked for, and the closing banner is
    printed. *)
Lemma run_completes_when_errors_carry_responses_witness :
  let env := mkEnv shipped keysSet (fun _ => mailRefused) noon in
  returned (main env) = true
  /\ List.length (requests (world (main env))) = 14%nat
  /\ List.length (filter (fun x => negb (isNil (sendpost.failure x)))
                    (wire (world (main env)))) = 2%nat
  /\ exists pre, stdout (world (main env)) = pre ++ closingBanner.
Proof.
  intros env.
  destruct (run_completes_when_errors_carry_responses env
              mailRefused_wellBehaved mailRefused_complete) as [Hret Hout].
  split; [exact Hret|]. split; [vm_compute; reflexivity|].
  split; [vm_compute; reflexivity | exact Hout].
Defined.

(** * Further properties of the steps *)

(** ** What a step writes *)

#[export] Instance keeps_Frame (s : Step) : Frame (keeps s).
Proof. split; unfold keeps; cbn; intros; congruence. Qed.

Ltac keeps_side := intros; reflexivity.

Lemma outside_credentials (s : Step) e :
  client (outside s e) = client e
  /\ accountAPIKey (outside s e) = accountAPIKey e
  /\ subAccountAPIKey (outside s e) = subAccountAPIKey e.
Proof. destruct s; repeat split. Qed.

Lemma steps_keep env (s : Step) : respects (keeps s) (run env s).
Proof. destruct s; cbn [run]; unfold_step; frame_with keeps_side. Qed.

Lemma steps_keep_credentials env (s : Step) e w :
  accountAPIKey (object (run env s e w)) = accountAPIKey e
  /\ subAccountAPIKey (object (run env s e w)) = subAccountAPIKey e.
Proof.
  pose proof (steps_keep env s e w) as H. unfold keeps in H.
  destruct (outside_credentials s (object (run env s e w))) as (_ & C2 & C3).
  destruct (outside_credentials s e) as (_ & D2 & D3).
  rewrite <- C2, <- C3, H. auto.
Qed.

(** X2.  Every step writes only its own fields. The listing steps, the three
    statistics steps and the message details write nothing at all: the
    object after them is the object before. The sub-account steps write the
    sub-account id and key, the webhook step the webhook id, the domain step
    the domain id, the pool step the pool id and name, the send steps the
    message id. No step touches the client or the two API keys. *)
Theorem steps_write_their_own_fields env (s : Step) e w :
  outside s (object (run env s e w)) = outside s e
  /\ client (object (run env s e w)) = client e
  /\ accountAPIKey (object (run env s e w)) = accountAPIKey e
  /\ subAccountAPIKey (object (run env s e w)) = subAccountAPIKey e.
Proof.
  pose proof (steps_keep env s e w) as H. unfold keeps in H. split; [exact H|].
  destruct (outside_credentials s (object (run env s e w))) as (C1 & C2 & C3).
  destruct (outside_credentials s e) as (D1 & D2 & D3).
  rewrite <- C1, <- C2, <- C3, H. auto.
Qed.

(** ** What a step sends *)

(** The requests of a step, once the tail after its last request is known
    to send nothing. *)
Ltac sent_so_far :=
  wp_simpl;
  apply wp_quiet; [first [apply respects_failed; exact _ | solve [frame_with sameWire_side]]|];
  let w' := fresh "w'" in
  let Hw := fresh "Hw" in
  intros w' Hw; cbn [wire exchanged] in Hw; repeat rewrite <- app_assoc in Hw;
  lazymatch type of Hw with
  | wire _ = wire ?w ++ ?xs => rewrite (issued_app w w' xs Hw)
  end.

Ltac nothing_sent :=
  lazymatch goal with
  | |- context [issued ?w ?w'] => rewrite (issued_same w w') by reflexivity
  end.

Lemma step_sends env (s : Step) e w :
  (exists rest,
     plan s = map (fun x => operation (sendpost.sent x)) (issued w (world (run env s e w)))
              ++ rest)
  /\ Forall (fun x => contextOf (sendpost.sent x) = scope s e)
            (issued w (world (run env s e w))).
Proof.
  apply (wp_outcome (run env s) e w
           (fun _ w' =>
              (exists rest,
                 plan s = map (fun x => operation (sendpost.sent x)) (issued w w') ++ rest)
              /\ Forall (fun x => contextOf (sendpost.sent x) = scope s e) (issued w w'))).
  destruct s; cbn [run plan scope].
  - unfold ListSubAccounts. wp_run.
    split_response; sent_so_far; (split; [now exists [] | repeat constructor]).
  - unfold CreateSubAccount. wp_run.
    split_response; sent_so_far; (split; [now exists [] | repeat constructor]).
  - unfold CreateWebhook. wp_run.
    split_response; sent_so_far; (split; [now exists [] | repeat constructor]).
  - unfold ListWebhooks. wp_run.
    split_response; sent_so_far; (split; [now exists [] | repeat constructor]).
  - unfold AddDomain. wp_run.
    split_response; sent_so_far; (split; [now exists [] | repeat constructor]).
  - unfold ListDomains. wp_run.
    split_response; sent_so_far; (split; [now exists [] | repeat constructor]).
  - unfold ListIPs. wp_run.
    split_response; sent_so_far; (split; [now exists [] | repeat constructor]).
  - unfold CreateIPPool. wp_run.
    lazymatch goal with
    | |- wp (let (_, _) := ?r in _) _ _ _ _ => destruct r as [[ips resp] [err|]]
    end; wp_simpl.
    + sent_so_far. split; [now exists [OpCreateIPPool] | repeat constructor].
    + destruct (List.length ips =? 0)%nat; wp_run.
      * rewrite (issued_app w _ [_]) by reflexivity.
        split; [now exists [OpCreateIPPool] | repeat constructor].
      * split_response; sent_so_far; (split; [now exists [] | repeat constructor]).
  - unfold ListIPPools. wp_run.
    split_response; sent_so_far; (split; [now exists [] | repeat constructor]).
  - unfold SendTransactionalEmail. wp_run.
    destruct (nonEmpty (createdIPPoolName e)); wp_run;
      split_response; sent_so_far; (split; [now exists [] | repeat constructor]).
  - unfold SendMarketingEmail. wp_run.
    destruct (nonEmpty (createdIPPoolName e)); wp_run;
      split_response; sent_so_far; (split; [now exists [] | repeat constructor]).
  - unfold GetSubAccountStats. wp_run.
    destruct (createdSubAccountID e); wp_run.
    + split_response; sent_so_far; (split; [now exists [] | repeat constructor]).
    + nothing_sent. split; [now eexists | constructor].
  - unfold GetAggregateStats. wp_run.
    destruct (createdSubAccountID e); wp_run.
    + split_response; sent_so_far; (split; [now exists [] | repeat constructor]).
    + nothing_sent. split; [now eexists | constructor].
  - unfold GetAccountStats. wp_run.
    split_response; sent_so_far; (split; [now exists [] | repeat constructor]).
  - unfold GetMessageDetails. wp_run.
    destruct (String.eqb (sentMessageID e) ""); wp_run.
    + nothing_sent. split; [now eexists | constructor].
    + split_response; sent_so_far; (split; [now exists [] | repeat constructor]).
Qed.

(** X3.  Every step sends its requests in the order of its plan and stops
    somewhere along it: at most one request, for the pool step at most the
    IP listing followed by the pool creation. Each request carries the
    context of the step's scope, built from the key the object holds when
    the step starts: the sub-account key for the domain and send steps, the
    account key for all others. *)
Theorem steps_send_along_their_plan env (s : Step) e w :
  let xs := issued w (world (run env s e w)) in
  (exists rest, plan s = map (fun x => operation (sendpost.sent x)) xs ++ rest)
  /\ Forall (fun x => contextOf (sendpost.sent x) = scope s e) xs
  /\ (List.length xs <= (if isCreateIPPoolStep s then 2 else 1))%nat.
Proof.
  intros xs. destruct (step_sends env s e w) as [[rest Hplan] Hctx]. fold xs in Hplan, Hctx.
  split; [now exists rest|]. split; [exact Hctx|].
  apply (f_equal (@List.length Operation)) in Hplan.
  rewrite length_app, length_map in Hplan.
  destruct s; cbn in Hplan |- *; lia.
Qed.

(** ** The order of the requests of a run *)

Lemma Subsequence_refl {A} (l : list A) : Subsequence l l.
Proof. induction l; constructor; assumption. Qed.

Lemma Subsequence_app {A} (xs ys l1 l2 : list A) :
  Subsequence xs l1 -> Subsequence ys l2 -> Subsequence (xs ++ ys) (l1 ++ l2).
Proof.
  intros H1 H2. induction H1 as [l|x xs l _ IH|y xs l _ IH]; cbn.
  - induction l as [|y l IH]; cbn; [exact H2 | now apply sub_skip].
  - now apply sub_take.
  - now apply sub_skip.
Qed.

Lemma Subsequence_of_prefix {A} (xs rest : list A) : Subsequence xs (xs ++ rest).
Proof.
  rewrite <- (app_nil_r xs) at 1. apply Subsequence_app; [apply Subsequence_refl | constructor].
Qed.

Lemma Subsequence_In {A} (xs l : list A) x : Subsequence xs l -> In x xs -> In x l.
Proof.
  intros H. induction H as [l|y xs l _ IH|y xs l _ IH]; cbn.
  - contradiction.
  - intros [->|Hin]; [now left | right; auto].
  - intros Hin. right. auto.
Qed.

Lemma within_bind l1 l2 {A B} (m : M A) (k : A -> M B) :
  respects (within l1) m -> (forall a, respects (within l2) (k a)) ->
  respects (within (l1 ++ l2)) (bind m k).
Proof.
  intros Hm Hk e w. specialize (Hm e w). unfold bind.
  destruct (m e w) as [a e' w'|msg e' w']; cbn [object world] in *.
  - destruct Hm as (xs & Hxs & Sxs). destruct (Hk a e' w') as (ys & Hys & Sys).
    exists (xs ++ ys). split.
    + rewrite Hys, Hxs, app_assoc. reflexivity.
    + rewrite map_app. now apply Subsequence_app.
  - destruct Hm as (xs & Hxs & Sxs). exists xs. split; [exact Hxs|].
    rewrite <- (app_nil_r (map _ xs)). apply Subsequence_app; [exact Sxs | constructor].
Qed.

Lemma within_silent {A} (m : M A) : respects sameWire m -> respects (within []) m.
Proof.
  intros H e w. exists []. split; [|constructor].
  rewrite app_nil_r. apply H.
Qed.

Lemma within_step env (s : Step) : respects (within (plan s)) (run env s).
Proof.
  intros e w. destruct (step_sends env s e w) as [[rest Hplan] _].
  exists (issued w (world (run env s e w))). split.
  - destruct (steps_grow env s e w) as [[xs Hxs] _].
    rewrite (issued_app _ _ _ Hxs). exact Hxs.
  - rewrite Hplan. apply Subsequence_of_prefix.
Qed.

(** X4.  Whatever the service answers and however the run ends, the requests
    of a run follow the fixed order of the workflow: they are what is left
    of the fifteen planned requests when some are left out. No request is
    sent out of turn or more often than planned, and no sub-account is ever
    created. *)
Theorem run_follows_the_workflow_order env :
  Subsequence (map operation (requests (world (main env))))
    [OpGetAllSubAccounts; OpCreateWebhook; OpGetAllWebhooks; OpSubaccountDomainPost;
     OpGetAllDomains; OpGetAllIps; OpGetAllIps; OpCreateIPPool; OpGetAllIPPools;
     OpSendEmail; OpSendEmail; OpSubaccountStat; OpSubaccountStatAggregate;
     OpGetAllAccountStats; OpGetMessageById]
  /\ ~ In OpCreateSubAccount (map operation (requests (world (main env)))).
Proof.
  assert (H : respects
            (within ([] ++ [] ++ []
                     ++ plan StepListSubAccounts ++ plan StepCreateWebhook
                     ++ plan StepListWebhooks ++ plan StepAddDomain
                     ++ plan StepListDomains ++ plan StepListIPs
                     ++ plan StepCreateIPPool ++ plan StepListIPPools
                     ++ plan StepSendTransactionalEmail ++ plan StepSendMarketingEmail
                     ++ plan StepGetSubAccountStats ++ plan StepGetAggregateStats
                     ++ plan StepGetAccountStats ++ plan StepGetMessageDetails ++ []))
            (RunCompleteWorkflow env)).
  { unfold RunCompleteWorkflow.
    apply within_bind; [apply within_silent, respects_banner; exact _ | intros _].
    apply within_bind; [apply within_silent, respects_this; exact _ | intros e].
    apply within_bind; [apply within_silent; frame_with sameWire_side | intros _].
    apply within_bind; [apply (within_step env StepListSubAccounts) | intros _].
    apply within_bind; [apply (within_step env StepCreateWebhook) | intros _].
    apply within_bind; [apply (within_step env StepListWebhooks) | intros _].
    apply within_bind; [apply (within_step env StepAddDomain) | intros _].
    apply within_bind; [apply (within_step env StepListDomains) | intros _].
    apply within_bind; [apply (within_step env StepListIPs) | intros _].
    apply within_bind; [apply (within_step env StepCreateIPPool) | intros _].
    apply within_bind; [apply (within_step env StepListIPPools) | intros _].
    apply within_bind; [apply (within_step env StepSendTransactionalEmail) | intros _].
    apply within_bind; [apply (within_step env StepSendMarketingEmail) | intros _].
    apply within_bind; [apply (within_step env StepGetSubAccountStats) | intros _].
    apply within_bind; [apply (within_step env StepGetAggregateStats) | intros _].
    apply within_bind; [apply (within_step env StepGetAccountStats) | intros _].
    apply within_bind; [apply (within_step env StepGetMessageDetails) | intros _].
    apply within_silent, respects_banner; exact _. }
  destruct (H (NewESPExample env) boot) as (xs & Hxs & Sxs).
  fold (main env) in Hxs. cbn [wire boot app] in Hxs.
  assert (Hops : map operation (requests (world (main env)))
                 = map (fun x => operation (sendpost.sent x)) xs).
  { unfold requests. rewrite Hxs, map_map. reflexivity. }
  rewrite Hops. split; [exact Sxs|].
  intros Hin. apply (Subsequence_In _ _ _ Sxs) in Hin.
  cbn in Hin. intuition discriminate.
Qed.

(** ** The sub-account listing *)

(** Stepping over a computation that only prints and always returns. *)
Lemma wp_prints {A} (m : M A) e w Q E :
  returns m -> respects unchanged m ->
  (forall a w', wire w' = wire w -> Q a e w') ->
  wp m e w Q E.
Proof.
  intros Hr Hu HQ. specialize (Hr e w). destruct (Hu e w) as [He Hw]. unfold wp.
  destruct (m e w); [|discriminate]. cbn in He, Hw. subst. auto.
Qed.

Ltac skip_print :=
  apply wp_bind, wp_prints;
  [solve [returns_auto] | solve [frame_with no_side] | intros ? ? ?].

(** The body of the loop of [ListSubAccounts], as in its definition. *)
Local Abbreviation listingBody :=
  (fun subAccount =>
        id <- deref (SubAccount.Id subAccount) ;;
        Printf ("  - ID: %d" ++ LF)%string [fmt.AInt id] ;;
        whenSome (SubAccount.Name subAccount) (fun name =>
          Printf ("    Name: %s" ++ LF)%string [fmt.AStr name]) ;;
        whenSome (SubAccount.ApiKey subAccount) (fun key =>
          Printf ("    API Key: %s" ++ LF)%string [fmt.AStr key]) ;;
        whenSome (SubAccount.Type_ subAccount) (fun ty =>
          let accountType := if ty =? 1 then "Plus" else "Regular" in
          Printf ("    Type: %s" ++ LF)%string [fmt.AStr accountType]) ;;
        whenSome (SubAccount.Blocked subAccount) (fun b =>
          let blocked := if b then "Yes" else "No" in
          Printf ("    Blocked: %s" ++ LF)%string [fmt.AStr blocked]) ;;
        whenSome (SubAccount.Created subAccount) (fun created =>
          Printf ("    Created: %d" ++ LF)%string [fmt.AInt created]) ;;
        Println "" ;;
        e <- this ;;
        when (isNil (createdSubAccountID e) && negb (isNil (SubAccount.Id subAccount)))
          (assign (set_createdSubAccountID (SubAccount.Id subAccount)) ;;
           whenSome (SubAccount.ApiKey subAccount) (fun key =>
             assign (set_createdSubAccountKey key)))).

Lemma listing_loop (subs : list SubAccount.t) :
  Forall (fun sa => SubAccount.Id sa <> None) subs ->
  forall e w (Q : unit -> ESPExample -> World -> Prop) E,
  (forall w', wire w' = wire w -> Q tt (adopted e subs) w') ->
  wp (forRange subs listingBody) e w Q E.
Proof.
  match goal with |- context [forRange _ ?b] => set (body := b) end.
  induction 1 as [|sa subs Hsa Hsubs IH]; intros e w Q E HQ.
  - cbn [forRange]. apply wp_ret.
    assert (Hn : adopted e [] = e)
      by (unfold adopted; destruct (createdSubAccountID e); reflexivity).
    specialize (HQ w eq_refl). rewrite Hn in HQ. exact HQ.
  - cbn [forRange]. apply wp_bind. unfold body at 1.
    destruct (SubAccount.Id sa) as [id|] eqn:Hid; [|contradiction].
    wp_run. do 5 skip_print. wp_run.
    assert (Hrest : forall e1 w1, wire w1 = wire w ->
              adopted e1 subs = adopted e (sa :: subs) ->
              wp (forRange subs body) e1 w1 Q E).
    { intros e1 w1 Hw1 Had. apply IH. intros w2 Hw2. rewrite Had. apply HQ. congruence. }
    destruct (createdSubAccountID e) as [old|] eqn:Hold; cbn [isNil andb negb]; wp_run.
    + apply Hrest; [cbn [wire] in *; congruence|].
      unfold adopted. rewrite Hold. reflexivity.
    + destruct (SubAccount.ApiKey sa) as [key|] eqn:Hkey; wp_run.
      * apply Hrest; [cbn [wire] in *; congruence|].
        unfold adopted. rewrite Hold, Hid, Hkey. cbn. reflexivity.
      * apply Hrest; [cbn [wire] in *; congruence|].
        unfold adopted. rewrite Hold, Hid, Hkey. cbn. reflexivity.
Qed.

(** X5.  A successful listing whose entries all have an id: the step
    returns; if no sub-account was selected before, the first entry is, with
    its key if it has one; later entries change nothing; a sub-account
    selected before the step stays. *)
Theorem listing_selects_the_first_sub_account e w subs resp :
  sendpost.SubAccountAPI_GetAllSubAccounts (client e) (wire w) (createAccountAuthContext e)
    = (subs, resp, None) ->
  Forall (fun sa => SubAccount.Id sa <> None) subs ->
  returned (ListSubAccounts e w) = true
  /\ object (ListSubAccounts e w) = adopted e subs
  /\ (createdSubAccountID e <> None -> object (ListSubAccounts e w) = e)
  /\ (createdSubAccountID e = None ->
      createdSubAccountID (object (ListSubAccounts e w))
      = match subs with sa :: _ => SubAccount.Id sa | [] => None end).
Proof.
  intros Hlist Hids.
  assert (H : returned (ListSubAccounts e w) = true
              /\ object (ListSubAccounts e w) = adopted e subs).
  { apply (wp_returned ListSubAccounts e w (fun e' _ => e' = adopted e subs)).
    unfold ListSubAccounts. wp_run. rewrite Hlist. wp_run.
    apply listing_loop; [exact Hids | reflexivity]. }
  destruct H as [Hret Hobj]. split; [exact Hret|]. split; [exact Hobj|].
  rewrite Hobj. unfold adopted. split.
  - destruct (createdSubAccountID e); [reflexivity | contradiction].
  - intros Hnone. rewrite Hnone. destruct subs as [|sa subs]; [exact Hnone|].
    inversion Hids as [|? ? Hsa _]; subst.
    destruct (SubAccount.Id sa); [|contradiction].
    destruct (SubAccount.ApiKey sa); reflexivity.
Qed.

Lemma listing_selects_the_first_sub_account_witness :
  let env := mkEnv shipped keysSet (fun _ => oneSubAccount) noon in
  let e := NewESPExample env in
  returned (ListSubAccounts e boot) = true
  /\ createdSubAccountID (object (ListSubAccounts e boot)) = Some 50441
  /\ createdSubAccountKey (object (ListSubAccounts e boot)) = "pR0YIuxYSbVwmQi2Y8Qs"%string.
Proof.
  intros env e.
  destruct (listing_selects_the_first_sub_account e boot
              [SubAccount.mk (Some 50441) (Some "API"%string)
                 (Some "pR0YIuxYSbVwmQi2Y8Qs"%string) (Some 0) (Some false)
                 (Some 1700000000)]
              (Some (http.mkResponse 200)) eq_refl) as (Hret & Hobj & _).
  - repeat constructor. discriminate.
  - split; [exact Hret|]. rewrite Hobj. split; reflexivity.
Defined.

Lemma listing_loop_panics (subs : list SubAccount.t) :
  Exists (fun sa => SubAccount.Id sa = None) subs ->
  forall e w (Q : unit -> ESPExample -> World -> Prop) (E : ESPExample -> World -> Prop),
  (forall e' w', wire w' = wire w -> E e' w') ->
  wp (forRange subs listingBody) e w Q E.
Proof.
  match goal with |- context [forRange _ ?b] => set (body := b) end.
  induction subs as [|sa subs IH]; intros Hnil e w Q E HE.
  - inversion Hnil.
  - cbn [forRange]. apply wp_bind. unfold body at 1.
    destruct (SubAccount.Id sa) as [id|] eqn:Hid.
    + assert (Hrest : Exists (fun sa => SubAccount.Id sa = None) subs).
      { inversion Hnil; subst; [congruence | assumption]. }
      wp_run. do 5 skip_print. wp_run.
      destruct (isNil (createdSubAccountID e)); cbn [isNil andb negb]; wp_run.
      * destruct (SubAccount.ApiKey sa); wp_run;
          (apply IH; [assumption|]); intros; apply HE; cbn [wire] in *; congruence.
      * (apply IH; [assumption|]); intros; apply HE; cbn [wire] in *; congruence.
    + exact (HE e w eq_refl).
Qed.

(** X6.  The loop prints [*subAccount.Id] before it tests the pointer: an
    entry without an id stops the step in a panic, although the listing
    itself succeeded. *)
Theorem listing_entry_without_id_panics e w subs resp :
  sendpost.SubAccountAPI_GetAllSubAccounts (client e) (wire w) (createAccountAuthContext e)
    = (subs, resp, None) ->
  Exists (fun sa => SubAccount.Id sa = None) subs ->
  returned (ListSubAccounts e w) = false
  /\ issued w (world (ListSubAccounts e w))
     = [sendpost.mkExchange (sendpost.GetAllSubAccounts (createAccountAuthContext e))
          resp None].
Proof.
  intros Hlist Hnil.
  assert (H : wp ListSubAccounts e w (fun _ _ _ => False)
                (fun _ w' => issued w w' = [sendpost.mkExchange
                   (sendpost.GetAllSubAccounts (createAccountAuthContext e)) resp None])).
  { unfold ListSubAccounts. wp_run. rewrite Hlist. wp_run.
    apply listing_loop_panics; [exact Hnil|].
    intros e' w' Hw'. cbn [wire] in Hw'. now apply issued_app. }
  unfold wp in H. destruct (ListSubAccounts e w); [contradiction|]. split; [reflexivity|exact H].
Qed.

Lemma listing_entry_without_id_panics_witness :
  let env := mkEnv shipped keysSet (fun _ => anonymousSubAccount) noon in
  let e := NewESPExample env in
  returned (ListSubAccounts e boot) = false
  /\ issued boot (world (ListSubAccounts e boot))
     = [sendpost.mkExchange (sendpost.GetAllSubAccounts (createAccountAuthContext e))
          (Some (http.mkResponse 200)) None].
Proof.
  intros env e.
  apply (listing_entry_without_id_panics e boot
           [SubAccount.mk (Some 7) None None None None None; SubAccount.zero]
           (Some (http.mkResponse 200)) eq_refl).
  right. left. reflexivity.
Defined.

(** ** The report of a failed request *)

Lemma endsWith_refl {A} (l : list A) : endsWith l l.
Proof. now exists []. Qed.

Lemma endsWith_cons {A} (a : A) (l suffix : list A) :
  endsWith l suffix -> endsWith (a :: l) suffix.
Proof. intros [pre ->]. now exists (a :: pre). Qed.

Lemma reported_quiet w ret w' xs :
  wire w' = wire w ++ xs ->
  forallb (fun x => isNil (sendpost.failure x)) xs = true ->
  reported w ret w'.
Proof.
  intros Hw Hall x err Hin Hf. rewrite (issued_app _ _ _ Hw) in Hin.
  rewrite forallb_forall in Hall. specialize (Hall x Hin).
  rewrite Hf in Hall. discriminate.
Qed.

Lemma reported_failure w w' pre x0 os r err0 :
  wire w' = wire w ++ pre ++ [x0] ->
  forallb (fun x => isNil (sendpost.failure x)) pre = true ->
  sendpost.failure x0 = Some err0 ->
  sendpost.response x0 = Some r ->
  stdout w' = stdout w ++ os ->
  endsWith os (failureReport r err0) ->
  reported w true w'.
Proof.
  intros Hw Hpre Hf0 Hr0 Hout Hos x err Hin Hf.
  rewrite (issued_app _ _ _ Hw) in Hin |- *. rewrite (printed_app _ _ _ Hout).
  apply in_app_or in Hin. destruct Hin as [Hin|[<-|[]]].
  - rewrite forallb_forall in Hpre. specialize (Hpre x Hin).
    rewrite Hf in Hpre. discriminate.
  - split; [now exists pre|]. rewrite Hr0. split; [reflexivity|].
    rewrite Hf0 in Hf. injection Hf as <-. exact Hos.
Qed.

Lemma reported_panic w w' pre x0 :
  wire w' = wire w ++ pre ++ [x0] ->
  forallb (fun x => isNil (sendpost.failure x)) pre = true ->
  sendpost.response x0 = None ->
  reported w false w'.
Proof.
  intros Hw Hpre Hr0 x err Hin Hf.
  rewrite (issued_app _ _ _ Hw) in Hin |- *.
  apply in_app_or in Hin. destruct Hin as [Hin|[<-|[]]].
  - rewrite forallb_forall in Hpre. specialize (Hpre x Hin).
    rewrite Hf in Hpre. discriminate.
  - split; [now exists pre|]. rewrite Hr0. reflexivity.
Qed.

Ltac ends_with_report :=
  cbn [app]; repeat first [apply endsWith_refl | apply endsWith_cons].

(** The error block after the request that failed, [pre] being the
    requests the step made before it. *)
Ltac report_failure pre :=
  wp_simpl; apply wp_failed;
  lazymatch goal with |- match ?o with _ => _ end => destruct o end;
  [ eapply (reported_failure _ _ pre);
    [ cbn [wire stdout exchanged]; repeat rewrite <- app_assoc; reflexivity
    | reflexivity | reflexivity | reflexivity
    | cbn [wire stdout exchanged]; repeat rewrite <- app_assoc; reflexivity
    | ends_with_report ]
  | eapply (reported_panic _ _ pre);
    [ cbn [wire stdout exchanged]; repeat rewrite <- app_assoc; reflexivity
    | reflexivity | reflexivity ] ].

(** The tail of a step after a request that succeeded. *)
Ltac report_nothing :=
  wp_simpl;
  apply wp_respects with (R := sameWire);
  [ solve [frame_with sameWire_side]
  | intros ? ? ? Hw; unfold sameWire in Hw; cbn [wire exchanged] in Hw;
    repeat rewrite <- app_assoc in Hw; eapply reported_quiet; [exact Hw | reflexivity]
  | intros ? ? Hw; unfold sameWire in Hw; cbn [wire exchanged] in Hw;
    repeat rewrite <- app_assoc in Hw; eapply reported_quiet; [exact Hw | reflexivity] ].

Ltac report_skipped :=
  eapply (reported_quiet _ _ _ []); [cbn [wire]; now rewrite app_nil_r | reflexivity].

Lemma step_reports env (s : Step) e w :
  wp (run env s) e w (fun _ _ w' => reported w true w') (fun _ w' => reported w false w').
Proof.
  destruct s; cbn [run].
  - unfold ListSubAccounts. wp_run.
    split_response; [report_failure (@nil sendpost.Exchange)|]. wp_run.
    apply wp_respects with (R := sameWire); [frame_with sameWire_side | |];
      intros; eapply reported_quiet; try eassumption; reflexivity.
  - unfold CreateSubAccount. wp_run.
    split_response; [report_failure (@nil sendpost.Exchange) | report_nothing].
  - unfold CreateWebhook. wp_run.
    split_response; [report_failure (@nil sendpost.Exchange) | report_nothing].
  - unfold ListWebhooks. wp_run.
    split_response; [report_failure (@nil sendpost.Exchange) | report_nothing].
  - unfold AddDomain. wp_run.
    split_response; [report_failure (@nil sendpost.Exchange) | report_nothing].
  - unfold ListDomains. wp_run.
    split_response; [report_failure (@nil sendpost.Exchange) | report_nothing].
  - unfold ListIPs. wp_run.
    split_response; [report_failure (@nil sendpost.Exchange) | report_nothing].
  - unfold CreateIPPool. wp_run.
    lazymatch goal with
    | |- wp (let (_, _) := ?r in _) _ _ _ _ => destruct r as [[ips resp] [err|]]
    end; [report_failure (@nil sendpost.Exchange)|]. wp_simpl.
    destruct (List.length ips =? 0)%nat; wp_run.
    + eapply (reported_quiet _ _ _ [_]); reflexivity.
    + split_response; [|report_nothing].
      report_failure [sendpost.mkExchange (sendpost.GetAllIps (createAccountAuthContext e))
                        resp None].
  - unfold ListIPPools. wp_run.
    split_response; [report_failure (@nil sendpost.Exchange) | report_nothing].
  - unfold SendTransactionalEmail. wp_run.
    destruct (nonEmpty (createdIPPoolName e)); wp_run;
      (split_response; [report_failure (@nil sendpost.Exchange) | report_nothing]).
  - unfold SendMarketingEmail. wp_run.
    destruct (nonEmpty (createdIPPoolName e)); wp_run;
      (split_response; [report_failure (@nil sendpost.Exchange) | report_nothing]).
  - unfold GetSubAccountStats. wp_run.
    destruct (createdSubAccountID e); wp_run; [|report_skipped].
    split_response; [report_failure (@nil sendpost.Exchange) | report_nothing].
  - unfold GetAggregateStats. wp_run.
    destruct (createdSubAccountID e); wp_run; [|report_skipped].
    split_response; [report_failure (@nil sendpost.Exchange) | report_nothing].
  - unfold GetAccountStats. wp_run.
    split_response; [report_failure (@nil sendpost.Exchange) | report_nothing].
  - unfold GetMessageDetails. wp_run.
    destruct (String.eqb (sentMessageID e) ""); wp_run; [report_skipped|].
    split_response; [report_failure (@nil sendpost.Exchange) | report_nothing].
Qed.

(** X7.  A request that comes back with an error is the last one its step
    makes. If the error comes with a response, the step returns and the last
    two lines it prints are the status code of that response and the error;
    if it comes without, the step does not return. *)
Theorem failed_request_ends_the_step env (s : Step) e w x err :
  In x (issued w (world (run env s e w))) ->
  sendpost.failure x = Some err ->
  endsWith (issued w (world (run env s e w))) [x]
  /\ match sendpost.response x with
     | Some r =>
         returned (run env s e w) = true
         /\ endsWith (printed w (world (run env s e w))) (failureReport r err)
     | None => returned (run env s e w) = false
     end.
Proof.
  intros Hin Hf. pose proof (step_reports env s e w) as H. unfold wp in H.
  destruct (run env s e w) as [a e' w'|msg e' w']; cbn [world returned] in *;
    exact (H x err Hin Hf).
Qed.

Lemma failed_request_ends_the_step_witness :
  let env := mkEnv shipped keysSet (fun _ => rateLimited) noon in
  let e := NewESPExample env in
  let w := world (ListIPs e boot) in
  let o := run env StepCreateIPPool e w in
  returned o = true
  /\ endsWith (printed w (world o))
       [fmt.Printf ("  Status code: %d" ++ LF)%string [fmt.AInt 429];
        fmt.Printf ("  Error: %v" ++ LF)%string [fmt.AErr "429 Too Many Requests"%string]].
Proof.
  intros env e w o.
  apply (failed_request_ends_the_step env StepCreateIPPool e w
           (sendpost.mkExchange (sendpost.GetAllIps (createAccountAuthContext e))
              (Some (http.mkResponse 429)) (Some "429 Too Many Requests"%string))
           "429 Too Many Requests"%string).
  - left. reflexivity.
  - reflexivity.
Defined.

(** ** Why a step stops *)

Lemma wp_returns {A} (m : M A) e w (E : ESPExample -> World -> Prop) :
  returns m -> wp m e w (fun _ _ _ => True) E.
Proof. intros H. specialize (H e w). unfold wp. destruct (m e w); [exact I | discriminate]. Qed.

(** The error block after the request [x0]. *)
Ltac stops_at_failure :=
  wp_simpl; apply wp_failed;
  lazymatch goal with |- match ?o with _ => _ end => destruct o end;
  [ exact I
  | eexists; split;
    [ cbn [wire stdout exchanged]; repeat rewrite <- app_assoc;
      erewrite issued_app by reflexivity;
      first [ apply endsWith_refl | apply endsWith_cons, endsWith_refl ]
    | left; split; [discriminate | reflexivity] ] ].

Ltac tail_returns := wp_simpl; apply wp_returns; solve [returns_auto].

(** The tail of a step that reads the answer to the request it has just
    made: it sends nothing more. *)
Ltac stops_at_answer :=
  let Hw := fresh "Hw" in
  wp_simpl;
  apply wp_respects with (R := sameWire);
  [ frame_with sameWire_side | exact (fun _ _ _ _ => I) | ];
  intros ? ? Hw; unfold sameWire in Hw; cbn [wire exchanged] in Hw;
  repeat rewrite <- app_assoc in Hw;
  eexists; split;
  [ rewrite (issued_app _ _ _ Hw);
    first [ apply endsWith_refl | apply endsWith_cons, endsWith_refl ]
  | right; split; reflexivity ].

Lemma step_stops env (s : Step) e w :
  wp (run env s) e w (fun _ _ _ => True) (fun _ w' => stopped s w w').
Proof.
  destruct s; cbn [run].
  - unfold ListSubAccounts. wp_run. split_response; [stops_at_failure | stops_at_answer].
  - unfold CreateSubAccount. wp_run. split_response; [stops_at_failure | stops_at_answer].
  - unfold CreateWebhook. wp_run. split_response; [stops_at_failure | stops_at_answer].
  - unfold ListWebhooks. wp_run. split_response; [stops_at_failure | tail_returns].
  - unfold AddDomain. wp_run. split_response; [stops_at_failure | stops_at_answer].
  - unfold ListDomains. wp_run. split_response; [stops_at_failure | tail_returns].
  - unfold ListIPs. wp_run. split_response; [stops_at_failure | tail_returns].
  - unfold CreateIPPool. wp_run.
    lazymatch goal with
    | |- wp (let (_, _) := ?r in _) _ _ _ _ => destruct r as [[ips resp] [err|]]
    end; [stops_at_failure|]. wp_simpl.
    destruct (List.length ips =? 0)%nat; wp_run; [exact I|].
    split_response; [stops_at_failure | stops_at_answer].
  - unfold ListIPPools. wp_run. split_response; [stops_at_failure | tail_returns].
  - unfold SendTransactionalEmail. wp_run.
    destruct (nonEmpty (createdIPPoolName e)); wp_run;
      (split_response; [stops_at_failure | tail_returns]).
  - unfold SendMarketingEmail. wp_run.
    destruct (nonEmpty (createdIPPoolName e)); wp_run;
      (split_response; [stops_at_failure | tail_returns]).
  - unfold GetSubAccountStats. wp_run.
    destruct (createdSubAccountID e); wp_run; [|exact I].
    split_response; [stops_at_failure | tail_returns].
  - unfold GetAggregateStats. wp_run.
    destruct (createdSubAccountID e); wp_run; [|exact I].
    split_response; [stops_at_failure | stops_at_answer].
  - unfold GetAccountStats. wp_run. split_response; [stops_at_failure | tail_returns].
  - unfold GetMessageDetails. wp_run.
    destruct (String.eqb (sentMessageID e) ""); wp_run; [exact I|].
    split_response; [stops_at_failure | stops_at_answer].
Qed.



(** ** The keys of a run *)

#[export] Instance authenticated_Frame : Frame authenticated.
Proof.
  split; unfold authenticated; cbn.
  - intros. repeat split. exists []. split; [now rewrite app_nil_r | constructor].
  - intros e1 w1 e2 w2 e3 w3 (A1 & S1 & xs & Hx & Fx) (A2 & S2 & xs' & Hx' & Fx').
    split; [congruence|]. split; [congruence|]. exists (xs ++ xs'). split.
    + rewrite app_assoc. congruence.
    + rewrite A1, S1 in Fx'. apply Forall_app. split; assumption.
  - intros. repeat split. exists []. split; [now rewrite app_nil_r | constructor].
  - intros. repeat split. exists []. split; [now rewrite app_nil_r | constructor].
Qed.

Lemma scope_credential (s : Step) e op :
  In op (plan s) -> scope s e = credential op (accountAPIKey e) (subAccountAPIKey e).
Proof. destruct s; cbn; intuition subst; reflexivity. Qed.

Lemma step_authenticated env (s : Step) : respects authenticated (run env s).
Proof.
  intros e w. destruct (steps_keep_credentials env s e w) as [HA HS].
  split; [exact HA|]. split; [exact HS|].
  exists (issued w (world (run env s e w))). split.
  - destruct (steps_grow env s e w) as [[xs Hxs] _].
    rewrite (issued_app _ _ _ Hxs). exact Hxs.
  - destruct (step_sends env s e w) as [[rest Hplan] Hctx].
    rewrite Forall_forall in Hctx |- *. intros x Hin. unfold authenticates.
    rewrite (Hctx x Hin). apply scope_credential.
    rewrite Hplan. apply in_or_app. left.
    apply (in_map (fun x => operation (sendpost.sent x))). exact Hin.
Qed.

Lemma workflow_authenticated env : respects authenticated (RunCompleteWorkflow env).
Proof.
  unfold RunCompleteWorkflow.
  by_steps ltac:(first
    [ apply (step_authenticated env StepListSubAccounts)
    | apply (step_authenticated env StepCreateWebhook)
    | apply (step_authenticated env StepListWebhooks)
    | apply (step_authenticated env StepAddDomain)
    | apply (step_authenticated env StepListDomains)
    | apply (step_authenticated env StepListIPs)
    | apply (step_authenticated env StepCreateIPPool)
    | apply (step_authenticated env StepListIPPools)
    | apply (step_authenticated env StepSendTransactionalEmail)
    | apply (step_authenticated env StepSendMarketingEmail)
    | apply (step_authenticated env StepGetSubAccountStats)
    | apply (step_authenticated env StepGetAggregateStats)
    | apply (step_authenticated env StepGetAccountStats)
    | apply (step_authenticated env StepGetMessageDetails) ]).
Qed.

(** X9.  The two keys are fixed when the program starts: each is the value
    of its environment variable, or the placeholder when the variable is
    unset or empty, so neither is ever empty. Every request of a run carries
    one of them, whatever the service answers: the sub-account key for the
    domain and mail requests, the account key for all others. The key stored
    with the sub-account the listing selects has no part in it. *)
Theorem run_authenticates_with_the_configured_keys env :
  let account := accountAPIKey (NewESPExample env) in
  let sub := subAccountAPIKey (NewESPExample env) in
  account <> ""%string /\ sub <> ""%string
  /\ (Getenv env "SENDPOST_ACCOUNT_API_KEY" <> ""%string ->
      account = Getenv env "SENDPOST_ACCOUNT_API_KEY")
  /\ (Getenv env "SENDPOST_SUB_ACCOUNT_API_KEY" <> ""%string ->
      sub = Getenv env "SENDPOST_SUB_ACCOUNT_API_KEY")
  /\ (Getenv env "SENDPOST_ACCOUNT_API_KEY" = ""%string ->
      account = "YOUR_ACCOUNT_API_KEY_HERE"%string)
  /\ (Getenv env "SENDPOST_SUB_ACCOUNT_API_KEY" = ""%string ->
      sub = "YOUR_SUB_ACCOUNT_API_KEY_HERE"%string)
  /\ Forall (authenticates account sub) (requests (world (main env)))
  /\ accountAPIKey (object (main env)) = account
  /\ subAccountAPIKey (object (main env)) = sub.
Proof.
  intros account sub. subst account sub.
  assert (HA : accountAPIKey (NewESPExample env)
               = if String.eqb (Getenv env "SENDPOST_ACCOUNT_API_KEY") ""
                 then "YOUR_ACCOUNT_API_KEY_HERE"%string
                 else Getenv env "SENDPOST_ACCOUNT_API_KEY") by reflexivity.
  assert (HS : subAccountAPIKey (NewESPExample env)
               = if String.eqb (Getenv env "SENDPOST_SUB_ACCOUNT_API_KEY") ""
                 then "YOUR_SUB_ACCOUNT_API_KEY_HERE"%string
                 else Getenv env "SENDPOST_SUB_ACCOUNT_API_KEY") by reflexivity.
  split; [|split; [|split; [|split; [|split; [|split]]]]].
  - rewrite HA. destruct (String.eqb_spec (Getenv env "SENDPOST_ACCOUNT_API_KEY") "");
      [discriminate | assumption].
  - rewrite HS. destruct (String.eqb_spec (Getenv env "SENDPOST_SUB_ACCOUNT_API_KEY") "");
      [discriminate | assumption].
  - intros Hset. rewrite HA.
    destruct (String.eqb_spec (Getenv env "SENDPOST_ACCOUNT_API_KEY") "");
      [contradiction | reflexivity].
  - intros Hset. rewrite HS.
    destruct (String.eqb_spec (Getenv env "SENDPOST_SUB_ACCOUNT_API_KEY") "");
      [contradiction | reflexivity].
  - intros Hunset. rewrite HA, Hunset. reflexivity.
  - intros Hunset. rewrite HS, Hunset. reflexivity.
  - destruct (workflow_authenticated env (NewESPExample env) boot)
      as (KA & KS & xs & Hxs & Fxs).
    fold (main env) in KA, KS, Hxs. cbn [wire boot app] in Hxs.
    split; [|split; assumption].
    unfold requests. rewrite Hxs. rewrite Forall_map. exact Fxs.
Qed.

(** ** The totals of the sub-account statistics *)

Lemma int64_add a b : int64 (int64 a + int64 b) = int64 (a + b).
Proof.
  unfold int64.
  rewrite (Z.mod_eq (a + 2 ^ 63) (2 ^ 64)), (Z.mod_eq (b + 2 ^ 63) (2 ^ 64)) by lia.
  set (ka := (a + 2 ^ 63) / 2 ^ 64). set (kb := (b + 2 ^ 63) / 2 ^ 64).
  replace (a + 2 ^ 63 - 2 ^ 64 * ka - 2 ^ 63 + (b + 2 ^ 63 - 2 ^ 64 * kb - 2 ^ 63) + 2 ^ 63)
    with (a + b + 2 ^ 63 + (- ka - kb) * 2 ^ 64) by ring.
  rewrite Z_mod_plus_full. reflexivity.
Qed.

Lemma int64_add_r a b : int64 (int64 a + b) = int64 (a + b).
Proof.
  unfold int64.
  rewrite (Z.mod_eq (a + 2 ^ 63) (2 ^ 64)) by lia.
  set (ka := (a + 2 ^ 63) / 2 ^ 64).
  replace (a + 2 ^ 63 - 2 ^ 64 * ka - 2 ^ 63 + b + 2 ^ 63)
    with (a + b + 2 ^ 63 + (- ka) * 2 ^ 64) by ring.
  rewrite Z_mod_plus_full. reflexivity.
Qed.

Lemma outGrew_refl w : outGrew w w.
Proof. exists []. now rewrite app_nil_r. Qed.

Lemma outGrew_trans w1 w2 w3 : outGrew w1 w2 -> outGrew w2 w3 -> outGrew w1 w3.
Proof. intros [os H] [os' H']. exists (os ++ os'). rewrite app_assoc, <- H. exact H'. Qed.

Lemma outGrew_out w out o wi t :
  outGrew w (mkWorld out wi t) -> outGrew w (mkWorld (out ++ [o]) wi t).
Proof. intros H. apply (outGrew_trans _ _ _ H). now exists [o]. Qed.

Lemma outGrew_same w w1 w2 : stdout w2 = stdout w1 -> outGrew w w1 -> outGrew w w2.
Proof. intros H [os Hos]. exists os. congruence. Qed.

(** Stepping over a computation that only prints and always returns,
    when what matters is the console. *)
Lemma wp_chatter {A} (m : M A) e w Q E :
  returns m -> respects unchanged m -> respects grows m ->
  (forall a w', outGrew w w' -> Q a e w') ->
  wp m e w Q E.
Proof.
  intros Hr Hu Hg HQ. specialize (Hr e w). destruct (Hu e w) as [He _].
  destruct (Hg e w) as [_ Hout]. unfold wp.
  destruct (m e w); [|discriminate]. cbn in He, Hout. subst. apply HQ. exact Hout.
Qed.

Ltac skip_chatter :=
  apply wp_bind, wp_chatter;
  [solve [returns_auto] | solve [frame_with no_side] | solve [frame_with grows_side]
  | intros ? ? ?].

Ltac out_grew :=
  lazymatch goal with
  | |- outGrew ?a ?a => apply outGrew_refl
  | H : outGrew ?a ?b |- outGrew ?a ?b => exact H
  | |- outGrew ?a (mkWorld (?out ++ [?o]) ?wi ?t) =>
      apply (outGrew_out a out o wi t); out_grew
  | |- outGrew ?a (mkWorld (stdout ?w) _ _) =>
      apply (outGrew_same a w); [reflexivity | out_grew]
  | H : outGrew ?b ?c |- outGrew ?a ?c => apply (outGrew_trans a b c); [out_grew | exact H]
  end.

(** The body of the loop of [GetSubAccountStats], as in its definition. *)
Local Abbreviation totalsBody :=
  (fun (totals : Z * Z) stat =>
              let '(totalProcessed, totalDelivered) := totals in
              whenSome (Stat.Date stat) (fun d =>
                Printf (LF ++ "  Date: %s" ++ LF)%string [fmt.AStr d]) ;;
              match Stat.Stat stat with
              | None => ret (totalProcessed, totalDelivered)
              | Some statData =>
                  totalProcessed <-
                    match StatStats.Processed statData with
                    | Some v =>
                        Printf ("    Processed: %d" ++ LF)%string [fmt.AInt v] ;;
                        ret (int64 (totalProcessed + int64 v))
                    | None => ret totalProcessed
                    end ;;
                  totalDelivered <-
                    match StatStats.Delivered statData with
                    | Some v =>
                        Printf ("    Delivered: %d" ++ LF)%string [fmt.AInt v] ;;
                        ret (int64 (totalDelivered + int64 v))
                    | None => ret totalDelivered
                    end ;;
                  whenSome (StatStats.Dropped statData) (fun v =>
                    Printf ("    Dropped: %d" ++ LF)%string [fmt.AInt v]) ;;
                  whenSome (StatStats.HardBounced statData) (fun v =>
                    Printf ("    Hard Bounced: %d" ++ LF)%string [fmt.AInt v]) ;;
                  whenSome (StatStats.SoftBounced statData) (fun v =>
                    Printf ("    Soft Bounced: %d" ++ LF)%string [fmt.AInt v]) ;;
                  whenSome (StatStats.Unsubscribed statData) (fun v =>
                    Printf ("    Unsubscribed: %d" ++ LF)%string [fmt.AInt v]) ;;
                  whenSome (StatStats.Spam statData) (fun v =>
                    Printf ("    Spam: %d" ++ LF)%string [fmt.AInt v]) ;;
                  ret (totalProcessed, totalDelivered)
              end).

Lemma totals_loop (stats : list Stat.t) :
  forall P D e w w0 (Q : Z * Z -> ESPExample -> World -> Prop) E,
  outGrew w0 w ->
  (forall w', outGrew w0 w' ->
     Q (int64 (P + total processedOf stats), int64 (D + total deliveredOf stats)) e w') ->
  wp (forRangeAcc stats (int64 P, int64 D) totalsBody) e w Q E.
Proof.
  match goal with |- context [forRangeAcc _ _ ?b] => set (body := b) end.
  induction stats as [|stat stats IH]; intros P D e w w0 Q E Hw HQ.
  - cbn [forRangeAcc]. apply wp_ret. unfold total in HQ. cbn in HQ.
    rewrite !Z.add_0_r in HQ. apply HQ. exact Hw.
  - cbn [forRangeAcc]. apply wp_bind. unfold body at 1. cbv beta iota.
    assert (Hnext : forall w1, outGrew w0 w1 ->
              wp (forRangeAcc stats
                    (int64 (P + processedOf stat), int64 (D + deliveredOf stat)) body)
                 e w1 Q E).
    { intros w1 Hw1. apply (IH _ _ e w1 w0); [exact Hw1|].
      intros w' Hw'. specialize (HQ w' Hw'). unfold total in *. cbn [map fold_right] in HQ.
      rewrite !Z.add_assoc in HQ. exact HQ. }
    skip_chatter.
    unfold processedOf, deliveredOf in Hnext.
    destruct (Stat.Stat stat) as [statData|].
    + destruct (StatStats.Processed statData) as [p|],
               (StatStats.Delivered statData) as [d|]; wp_run;
        do 5 skip_chatter; wp_run;
        rewrite ?int64_add; rewrite ?Z.add_0_r in Hnext; apply Hnext; out_grew.
    + wp_run. rewrite !Z.add_0_r in Hnext. apply Hnext. out_grew.
Qed.

Lemma endsWith_printed w w' (suffix : list fmt.Output) :
  (exists w1, outGrew w w1 /\ stdout w' = stdout w1 ++ suffix) ->
  endsWith (printed w w') suffix.
Proof.
  intros (w1 & [os Hos] & Hw'). exists os.
  apply printed_app. rewrite Hw', Hos, app_assoc. reflexivity.
Qed.

(** X10.  When the statistics request succeeds the step returns, and the
    last three lines it prints are the summary with the two totals: the sum
    of the processed counts and the sum of the delivered counts over the
    records that have one, each wrapped to 64 bits once, however the running
    totals wrapped on the way. *)
Theorem stats_summary_is_the_sum env e w id stats resp :
  createdSubAccountID e = Some id ->
  (let toDate := Now env (ticks w) in
   sendpost.StatsAPI_AccountSubaccountStatSubaccountIdGet (client e) (wire w)
     (createAccountAuthContext e) (int64 id)
     (time.Format (time.AddDate toDate 0 0 (-7))) (time.Format toDate)
   = (stats, resp, None)) ->
  returned (GetSubAccountStats env e w) = true
  /\ endsWith (printed w (world (GetSubAccountStats env e w)))
       (summary (int64 (total processedOf stats)) (int64 (total deliveredOf stats))).
Proof.
  intros Hid Hstats. cbv zeta in Hstats.
  apply (wp_returned (GetSubAccountStats env) e w
           (fun _ w' => endsWith (printed w w')
              (summary (int64 (total processedOf stats))
                 (int64 (total deliveredOf stats))))).
  unfold GetSubAccountStats. wp_run. rewrite Hid. wp_run. rewrite Hstats. wp_run.
  apply wp_bind.
  change (0, 0) with (int64 0, int64 0).
  match goal with |- wp _ _ ?w1 _ _ => apply (totals_loop stats 0 0 e w1 w) end.
  - out_grew.
  - intros w' Hw'. wp_run. apply endsWith_printed. exists w'. split; [exact Hw'|].
    cbn [stdout]. rewrite <- !app_assoc. reflexivity.
Qed.

Lemma stats_summary_is_the_sum_witness :
  let env := mkEnv shipped keysSet (fun _ => twoDays) noon in
  let e := set_createdSubAccountID (Some 50441) (NewESPExample env) in
  returned (GetSubAccountStats env e boot) = true
  /\ endsWith (printed boot (world (GetSubAccountStats env e boot))) (summary 15 9).
Proof.
  intros env e.
  apply (stats_summary_is_the_sum env e boot 50441
           [Stat.mk (Some "2024-03-03"%string)
              (Some (StatStats.mk (Some 10) (Some 9) (Some 1) None None None None));
            Stat.mk (Some "2024-03-04"%string)
              (Some (StatStats.mk (Some 5) None None None None None None));
            Stat.mk None None]
           (Some (http.mkResponse 200))); reflexivity.
Defined.

(** ** The pool request and the mail *)

(** X11.  Of the IPs its listing returns the pool step uses the first and no
    other: the pool request holds the public address of the first IP, or no
    IP at all when that address is empty, whatever follows in the list. The
    pool is named after the Unix time of the step's clock reading; routing
    strategy, warm-up interval and overflow strategy are fixed. *)
Theorem pool_request_takes_the_first_ip env e w ip0 rest resp :
  sendpost.IPAPI_GetAllIps (client e) (wire w) (createAccountAuthContext e)
    = (ip0 :: rest, resp, None) ->
  exists x,
    issued w (world (CreateIPPool env e w))
    = [sendpost.mkExchange (sendpost.GetAllIps (createAccountAuthContext e)) resp None; x]
    /\ sendpost.sent x
       = sendpost.CreateIPPool (createAccountAuthContext e)
           (IPPoolCreateRequest.mk
              (Some (fmt.Sprintf "Marketing Pool %d"
                       [fmt.AInt (time.Unix (Now env (ticks w)))]))
              (Some 0)
              (Some (if nonEmpty (IP.PublicIP ip0) then [EIP.mk (IP.PublicIP ip0)] else []))
              (Some 24) (Some 0)).
Proof.
  intros Hips.
  apply (wp_outcome (CreateIPPool env) e w
           (fun e' w' => exists x, issued w w' = [_; x] /\ sendpost.sent x = _)).
  unfold CreateIPPool. wp_run. rewrite Hips. wp_run.
  change (List.length (ip0 :: rest) =? 0)%nat with false. wp_run.
  destruct (nonEmpty (IP.PublicIP ip0)); cbn [app]; wp_run;
    (split_response; wp_simpl;
     (apply wp_quiet; [first [apply respects_failed; exact _ | frame_with sameWire_side]|]);
     intros w' Hw; cbn [wire exchanged] in Hw; eexists; (split;
       [apply issued_app; rewrite Hw, <- app_assoc; reflexivity | reflexivity])).
Qed.

Lemma pool_request_takes_the_first_ip_witness :
  let env := mkEnv shipped keysSet (fun _ => unaddressedIP) noon in
  let e := NewESPExample env in
  exists x,
    issued boot (world (CreateIPPool env e boot))
    = [sendpost.mkExchange (sendpost.GetAllIps (createAccountAuthContext e))
         (Some (http.mkResponse 200)) None; x]
    /\ sendpost.sent x
       = sendpost.CreateIPPool (createAccountAuthContext e)
           (IPPoolCreateRequest.mk
              (Some (fmt.Sprintf "Marketing Pool %d"
                       [fmt.AInt (time.Unix (Now env (ticks boot)))]))
              (Some 0) (Some []) (Some 24) (Some 0)).
Proof.
  intros env e.
  apply (pool_request_takes_the_first_ip env e boot (IP.mk 1 ""%string None 0) [theIP]
           (Some (http.mkResponse 200))).
  reflexivity.
Defined.

Lemma send_step_mail env (s : Step) e w :
  isSendStep s = true ->
  Forall (fun x => exists m,
            sendpost.sent x = sendpost.SendEmail (createSubAccountAuthContext e) m
            /\ addressed env (poolOf e) m)
    (issued w (world (run env s e w))).
Proof.
  intros Hs.
  apply (wp_outcome (run env s) e w
           (fun _ w' => Forall (fun x => exists m,
              sendpost.sent x = sendpost.SendEmail (createSubAccountAuthContext e) m
              /\ addressed env (poolOf e) m) (issued w w'))).
  destruct s; try discriminate Hs; cbn [run]; unfold poolOf.
  - unfold SendTransactionalEmail. wp_run.
    destruct (nonEmpty (createdIPPoolName e)); wp_run;
      split_response; sent_so_far;
      (constructor; [|constructor]); eexists; (split; [reflexivity|]);
      repeat split.
  - unfold SendMarketingEmail. wp_run.
    destruct (nonEmpty (createdIPPoolName e)); wp_run;
      split_response; sent_so_far;
      (constructor; [|constructor]); eexists; (split; [reflexivity|]);
      repeat split.
Qed.

(** X12.  Whatever a send step sends is one mail request under the
    sub-account key: from the configured sender to the configured recipient
    and no one else, with open and click tracking on. The message names an
    IP pool exactly when the object holds a pool name, and then that one. *)
Theorem send_steps_address_the_configured_recipient env (s : Step) e w x :
  isSendStep s = true ->
  In x (issued w (world (run env s e w))) ->
  issued w (world (run env s e w)) = [x]
  /\ exists m, sendpost.sent x = sendpost.SendEmail (createSubAccountAuthContext e) m
               /\ addressed env (poolOf e) m.
Proof.
  intros Hs Hin. pose proof (send_step_mail env s e w Hs) as Hmail.
  destruct (step_sends env s e w) as [[rest Hplan] _].
  rewrite Forall_forall in Hmail. split; [|exact (Hmail x Hin)].
  destruct (issued w (world (run env s e w))) as [|x1 [|x2 xs]].
  - contradiction.
  - destruct Hin as [->|[]]. reflexivity.
  - destruct s; try discriminate Hs; discriminate Hplan.
Qed.

Lemma send_steps_address_the_configured_recipient_witness :
  let env := mkEnv shipped keysSet (fun _ => emptyAccount) noon in
  let e := set_createdIPPoolName "Marketing Pool" (NewESPExample env) in
  let o := run env StepSendMarketingEmail e boot in
  let x := nth 0 (wire (world o)) (sendpost.mkExchange (sendpost.GetAllIps []) None None) in
  issued boot (world o) = [x]
  /\ exists m, sendpost.sent x = sendpost.SendEmail [("subAccountAuth", "sub-key")%string] m
               /\ addressed env (Some "Marketing Pool"%string) m.
Proof.
  intros env e o x.
  apply (send_steps_address_the_configured_recipient env StepSendMarketingEmail e boot x
           eq_refl).
  left. vm_compute. reflexivity.
Defined.

(** ** Where the ids and the pool name come from *)

Section ProvenanceFacts.

Variable V : Type.
Variable field : ESPExample -> option V.
Variable source : sendpost.APIClient -> list sendpost.Exchange -> V -> Prop.
Variable use : sendpost.Call -> option V.
Hypothesis source_mono : forall c h ys v, source c h v -> source c (h ++ ys) v.

#[export] Instance traced_Frame : Frame (traced field source use).
Proof.
  split; unfold traced; cbn.
  - intros e w [Hk Ha]. auto.
  - intros e1 w1 e2 w2 e3 w3 H12 H23 H1.
    destruct (H12 H1) as (C2 & K2 & A2). destruct (H23 (conj K2 A2)) as (C3 & K3 & A3).
    split; [congruence | auto].
  - intros e w o [Hk Ha]. auto.
  - intros e w [Hk Ha]. auto.
Qed.

Lemma answers_app c h xs :
  answers source use c h ->
  (forall pre' x post, xs = pre' ++ x :: post ->
   forall v, use (sendpost.sent x) = Some v -> source c (h ++ pre') v) ->
  answers source use c (h ++ xs).
Proof.
  intros Ha Hxs pre x post Hsplit v Hv.
  symmetry in Hsplit. apply app_eq_app in Hsplit.
  destruct Hsplit as [l [[Hpre Hl] | [Hh Hl]]].
  - subst pre. apply (Hxs l x post Hl v Hv).
  - destruct l as [|y l]; cbn in Hl.
    + rewrite app_nil_r in Hh. subst h. rewrite <- (app_nil_r pre).
      apply (Hxs [] x post); [symmetry; exact Hl | exact Hv].
    + injection Hl as <- Hl. apply (Ha pre x l Hh v Hv).
Qed.

(** What a piece of the run has to do to stay traced: keep the client,
    only add to the wire, leave the field or put there what the service
    handed out, and send no value but the one the field held. *)
Lemma traced_outcome e w e' w' xs :
  client e' = client e -> wire w' = wire w ++ xs ->
  (field e' = field e \/ forall v, field e' = Some v -> source (client e) (wire w') v) ->
  Forall (fun x => forall v, use (sendpost.sent x) = Some v -> field e = Some v) xs ->
  traced field source use e w e' w'.
Proof.
  intros Hc Hw Hf Hu [Hk Ha]. split; [exact Hc|]. unfold known. rewrite Hc. split.
  - destruct Hf as [Hf|Hf]; [|exact Hf].
    rewrite Hf. intros v Hv. rewrite Hw. apply source_mono. exact (Hk v Hv).
  - rewrite Hw. apply answers_app; [exact Ha|].
    intros pre' x post Hxs v Hv. rewrite Forall_forall in Hu.
    apply source_mono, Hk. apply (Hu x); [|exact Hv].
    rewrite Hxs. apply in_or_app. right. left. reflexivity.
Qed.

End ProvenanceFacts.

Lemma returnedBy_mono c h ys id : returnedBy c h id -> returnedBy c (h ++ ys) id.
Proof.
  intros (pre & x & post & ctx & m & r & rest & resp & -> & H).
  exists pre, x, (post ++ ys), ctx, m, r, rest, resp.
  split; [|exact H]. rewrite <- app_assoc. reflexivity.
Qed.

Lemma pooledBy_mono c h ys name : pooledBy c h name -> pooledBy c (h ++ ys) name.
Proof.
  intros (pre & x & post & ctx & r & ipPool & resp & -> & H).
  exists pre, x, (post ++ ys), ctx, r, ipPool, resp.
  split; [|exact H]. rewrite <- app_assoc. reflexivity.
Qed.

Lemma listedBy_mono c h ys v : listedBy c h v -> listedBy c (h ++ ys) v.
Proof.
  intros (pre & x & post & ctx & sa & subs & resp & id & -> & H).
  exists pre, x, (post ++ ys), ctx, sa, subs, resp, id.
  split; [|exact H]. rewrite <- app_assoc. reflexivity.
Qed.

Lemma steps_keep_client env (s : Step) e w : client (object (run env s e w)) = client e.
Proof.
  pose proof (steps_keep env s e w) as H. unfold keeps in H.
  destruct (outside_credentials s (object (run env s e w))) as (C1 & _).
  destruct (outside_credentials s e) as (D1 & _).
  rewrite <- C1, <- D1, H. reflexivity.
Qed.

Lemma step_wire env (s : Step) e w :
  wire (world (run env s e w)) = wire w ++ issued w (world (run env s e w)).
Proof.
  destruct (steps_grow env s e w) as [[xs Hxs] _].
  rewrite (issued_app _ _ _ Hxs). exact Hxs.
Qed.

(** A step sends no request of an operation that is not on its plan. *)
Lemma not_planned env (s : Step) e w op :
  ~ In op (plan s) ->
  Forall (fun x => operation (sendpost.sent x) <> op) (issued w (world (run env s e w))).
Proof.
  intros Hop. destruct (step_sends env s e w) as [[rest Hplan] _].
  rewrite Forall_forall. intros x Hin Heq. apply Hop. rewrite Hplan.
  apply in_or_app. left. rewrite <- Heq.
  apply (in_map (fun x => operation (sendpost.sent x))). exact Hin.
Qed.

Ltac keep_response v H :=
  lazymatch goal with
  | |- wp (let (_, _) := ?r in _) _ _ _ _ => destruct r as [[v ?] [?|]] eqn:H
  end.

Ltac tail_keeps :=
  wp_simpl;
  apply wp_unchanged;
  [first [apply respects_failed; exact _ | solve [frame_with no_side]] | intros ? ?].

(** A send step leaves the message id, or takes one the service returned
    to its own request. *)
Lemma send_step_takes_an_id env (s : Step) e w :
  isSendStep s = true ->
  sentMessageID (object (run env s e w)) = sentMessageID e
  \/ returnedBy (client e) (wire (world (run env s e w)))
       (sentMessageID (object (run env s e w))).
Proof.
  intros Hs.
  apply (wp_outcome (run env s) e w
           (fun e' w' => sentMessageID e' = sentMessageID e
                         \/ returnedBy (client e) (wire w') (sentMessageID e'))).
  destruct s; try discriminate Hs; cbn [run].
  - unfold SendTransactionalEmail. wp_run.
    destruct (nonEmpty (createdIPPoolName e)); wp_run;
      keep_response responses Hsend; try (tail_keeps; left; reflexivity).
    all: wp_simpl; destruct responses as [|r rest]; wp_run; [left; reflexivity|].
    all: destruct (EmailResponse.MessageId r) as [id|] eqn:Hid; wp_run;
      tail_keeps; [|left; reflexivity].
    all: right; cbn [wire] in *; unfold returnedBy;
      exists (wire w); eexists; exists []; do 5 eexists;
      split; [eassumption|]; split; [reflexivity|]; split; [exact Hsend | exact Hid].
  - unfold SendMarketingEmail. wp_run.
    destruct (nonEmpty (createdIPPoolName e)); wp_run;
      keep_response responses Hsend; try (tail_keeps; left; reflexivity).
    all: wp_simpl; destruct responses as [|r rest]; wp_run; [left; reflexivity|].
    all: destruct (String.eqb (sentMessageID e) ""); wp_run;
      [|tail_keeps; left; reflexivity].
    all: destruct (EmailResponse.MessageId r) as [id|] eqn:Hid; wp_run;
      tail_keeps; [|left; reflexivity].
    all: right; cbn [wire] in *; unfold returnedBy;
      exists (wire w); eexists; exists []; do 5 eexists;
      split; [eassumption|]; split; [reflexivity|]; split; [exact Hsend | exact Hid].
Qed.

(** The details step asks for the message id the object holds, and only
    when there is one. *)
Lemma details_request e w :
  Forall (fun x => askedMessage (sendpost.sent x) = Some (sentMessageID e)
                   /\ sentMessageID e <> ""%string)
    (issued w (world (GetMessageDetails e w))).
Proof.
  apply (wp_outcome GetMessageDetails e w
           (fun _ w' => Forall (fun x => askedMessage (sendpost.sent x)
                                         = Some (sentMessageID e)
                                         /\ sentMessageID e <> ""%string) (issued w w'))).
  unfold GetMessageDetails. wp_run.
  destruct (String.eqb_spec (sentMessageID e) ""); wp_run.
  - nothing_sent. constructor.
  - split_response; sent_so_far; repeat constructor; assumption.
Qed.

Lemma asked_is_details c v : askedMessage c = Some v -> operation c = OpGetMessageById.
Proof. destruct c; cbn; intros H; try discriminate H; reflexivity. Qed.

Lemma held_message e v : heldMessage e = Some v -> v = sentMessageID e /\ v <> ""%string.
Proof.
  unfold heldMessage, nonEmpty. destruct (String.eqb_spec (sentMessageID e) "");
    cbn; intros H; [discriminate H|]. injection H as <-. auto.
Qed.

Lemma step_traced_message env (s : Step) :
  respects (traced heldMessage returnedBy askedMessage) (run env s).
Proof.
  intros e w.
  apply (traced_outcome _ heldMessage returnedBy askedMessage returnedBy_mono
           e w _ _ (issued w (world (run env s e w)))).
  - apply steps_keep_client.
  - apply step_wire.
  - destruct (isSendStep s) eqn:Hs.
    + destruct (send_step_takes_an_id env s e w Hs) as [H|H].
      * left. unfold heldMessage. rewrite H. reflexivity.
      * right. intros v Hv. apply held_message in Hv. destruct Hv as [-> _]. exact H.
    + left. pose proof (steps_keep env s e w) as H. unfold keeps in H.
      apply (f_equal heldMessage) in H. destruct s; try discriminate Hs; exact H.
  - destruct s;
      try (apply (Forall_impl _ (P := fun x => operation (sendpost.sent x)
                                              <> OpGetMessageById));
           [ intros x Hx v Hv; apply asked_is_details in Hv; contradiction
           | apply not_planned; cbn; intuition discriminate ]).
    cbn [run]. apply (Forall_impl _ (P := fun x =>
        askedMessage (sendpost.sent x) = Some (sentMessageID e)
        /\ sentMessageID e <> ""%string)); [|apply details_request].
    intros x [Hx Hne] v Hv. rewrite Hx in Hv. injection Hv as <-.
    unfold heldMessage, nonEmpty.
    destruct (String.eqb_spec (sentMessageID e) ""); [contradiction | reflexivity].
Qed.

Lemma workflow_traced_message env :
  respects (traced heldMessage returnedBy askedMessage) (RunCompleteWorkflow env).
Proof.
  unfold RunCompleteWorkflow.
  by_steps ltac:(first
    [ apply (step_traced_message env StepListSubAccounts)
    | apply (step_traced_message env StepCreateWebhook)
    | apply (step_traced_message env StepListWebhooks)
    | apply (step_traced_message env StepAddDomain)
    | apply (step_traced_message env StepListDomains)
    | apply (step_traced_message env StepListIPs)
    | apply (step_traced_message env StepCreateIPPool)
    | apply (step_traced_message env StepListIPPools)
    | apply (step_traced_message env StepSendTransactionalEmail)
    | apply (step_traced_message env StepSendMarketingEmail)
    | apply (step_traced_message env StepGetSubAccountStats)
    | apply (step_traced_message env StepGetAggregateStats)
    | apply (step_traced_message env StepGetAccountStats)
    | apply (step_traced_message env StepGetMessageDetails) ]).
Qed.

(** X13.  Whatever the service answers, a run asks for the details of no
    message but its own: the id of a details request is one the service
    returned, as the message id of the first entry of its answer and without
    an error, to a send request the run made before. *)
Theorem details_ask_for_a_message_of_this_run env pre x post ctx id :
  wire (world (main env)) = pre ++ x :: post ->
  sendpost.sent x = sendpost.GetMessageById ctx id ->
  returnedBy (client (NewESPExample env)) pre id.
Proof.
  intros Hwire Hx.
  destruct (workflow_traced_message env (NewESPExample env) boot) as (Hc & _ & Ha).
  - split; [intros v Hv; discriminate Hv|].
    intros pre0 x0 post0 H0. destruct pre0; discriminate H0.
  - fold (main env) in Hc, Ha. rewrite Hc in Ha.
    apply (Ha pre x post Hwire id). rewrite Hx. reflexivity.
Qed.

Lemma details_ask_for_a_message_of_this_run_witness :
  let env := mkEnv shipped keysSet (fun _ => emptyAccount) noon in
  returnedBy emptyAccount (firstn 11 (wire (world (main env)))) "msg-1".
Proof.
  intros env.
  apply (details_ask_for_a_message_of_this_run env
           (firstn 11 (wire (world (main env))))
           (sendpost.mkExchange
              (sendpost.GetMessageById [("accountAuth", "acct-key")%string] "msg-1")
              (Some (http.mkResponse 200)) None)
           [] [("accountAuth", "acct-key")%string] "msg-1").
  - vm_compute. reflexivity.
  - reflexivity.
Defined.

(** The pool step leaves the pool name, or takes one the service returned
    to its own request. *)
Lemma pool_step_takes_a_name env e w :
  createdIPPoolName (object (CreateIPPool env e w)) = createdIPPoolName e
  \/ pooledBy (client e) (wire (world (CreateIPPool env e w)))
       (createdIPPoolName (object (CreateIPPool env e w))).
Proof.
  apply (wp_outcome (CreateIPPool env) e w
           (fun e' w' => createdIPPoolName e' = createdIPPoolName e
                         \/ pooledBy (client e) (wire w') (createdIPPoolName e'))).
  unfold CreateIPPool. wp_run.
  keep_response ips Hips; [tail_keeps; left; reflexivity|]. wp_simpl.
  destruct (List.length ips =? 0)%nat; wp_run; [left; reflexivity|].
  keep_response ipPool Hpool; [tail_keeps; left; reflexivity|]. wp_simpl.
  destruct ipPool as [ipPool|]; wp_run; [|left; reflexivity].
  destruct (IPPool.Id ipPool) as [id|], (IPPool.Name ipPool) as [name|] eqn:Hname; wp_run;
    tail_keeps; try (left; reflexivity).
  all: right; cbn [wire] in *; unfold pooledBy;
    eexists; eexists; exists []; do 4 eexists;
    split; [eassumption|]; split; [reflexivity|]; split; [exact Hpool | exact Hname].
Qed.

Lemma named_is_mail c v : namedPool c = Some v -> operation c = OpSendEmail.
Proof. destruct c; cbn; intros H; try discriminate H; reflexivity. Qed.

Lemma pool_of e v : poolOf e = Some v -> v = createdIPPoolName e.
Proof.
  unfold poolOf. destruct (nonEmpty (createdIPPoolName e)); intros H;
    [injection H as <-; reflexivity | discriminate H].
Qed.

Lemma step_traced_pool env (s : Step) :
  respects (traced poolOf pooledBy namedPool) (run env s).
Proof.
  intros e w.
  apply (traced_outcome _ poolOf pooledBy namedPool pooledBy_mono
           e w _ _ (issued w (world (run env s e w)))).
  - apply steps_keep_client.
  - apply step_wire.
  - destruct (isCreateIPPoolStep s) eqn:Hs.
    + destruct s; try discriminate Hs. cbn [run].
      destruct (pool_step_takes_a_name env e w) as [H|H].
      * left. unfold poolOf. rewrite H. reflexivity.
      * right. intros v Hv. apply pool_of in Hv. subst v. exact H.
    + left. pose proof (steps_keep env s e w) as H. unfold keeps in H.
      apply (f_equal poolOf) in H. destruct s; try discriminate Hs; exact H.
  - destruct (isSendStep s) eqn:Hs.
    + apply (Forall_impl _ (P := fun x => exists m,
          sendpost.sent x = sendpost.SendEmail (createSubAccountAuthContext e) m
          /\ addressed env (poolOf e) m)); [|now apply send_step_mail].
      intros x (m & Hx & Hpool & _) v Hv. rewrite Hx in Hv. cbn [namedPool] in Hv.
      rewrite <- Hpool. exact Hv.
    + apply (Forall_impl _ (P := fun x => operation (sendpost.sent x) <> OpSendEmail)).
      * intros x Hx v Hv. apply named_is_mail in Hv. contradiction.
      * apply not_planned. destruct s; try discriminate Hs; cbn; intuition discriminate.
Qed.

Lemma workflow_traced_pool env :
  respects (traced poolOf pooledBy namedPool) (RunCompleteWorkflow env).
Proof.
  unfold RunCompleteWorkflow.
  by_steps ltac:(first
    [ apply (step_traced_pool env StepListSubAccounts)
    | apply (step_traced_pool env StepCreateWebhook)
    | apply (step_traced_pool env StepListWebhooks)
    | apply (step_traced_pool env StepAddDomain)
    | apply (step_traced_pool env StepListDomains)
    | apply (step_traced_pool env StepListIPs)
    | apply (step_traced_pool env StepCreateIPPool)
    | apply (step_traced_pool env StepListIPPools)
    | apply (step_traced_pool env StepSendTransactionalEmail)
    | apply (step_traced_pool env StepSendMarketingEmail)
    | apply (step_traced_pool env StepGetSubAccountStats)
    | apply (step_traced_pool env StepGetAggregateStats)
    | apply (step_traced_pool env StepGetAccountStats)
    | apply (step_traced_pool env StepGetMessageDetails) ]).
Qed.

(** X14.  Whatever the service answers, a mail of a run names no pool but
    one the run created: the pool a send request names is one the service
    returned, as the name of the pool and without an error, to a
    pool-creation request the run made before. *)
Theorem mail_names_a_pool_of_this_run env pre x post ctx m name :
  wire (world (main env)) = pre ++ x :: post ->
  sendpost.sent x = sendpost.SendEmail ctx m ->
  EmailMessageObject.Ippool m = Some name ->
  pooledBy (client (NewESPExample env)) pre name.
Proof.
  intros Hwire Hx Hname.
  destruct (workflow_traced_pool env (NewESPExample env) boot) as (Hc & _ & Ha).
  - split; [intros v Hv; discriminate Hv|].
    intros pre0 x0 post0 H0. destruct pre0; discriminate H0.
  - fold (main env) in Hc, Ha. rewrite Hc in Ha.
    apply (Ha pre x post Hwire name). rewrite Hx. exact Hname.
Qed.

Lemma mail_names_a_pool_of_this_run_witness :
  let env := mkEnv shipped keysSet (fun _ => oneIP) noon in
  pooledBy oneIP (firstn 9 (wire (world (main env)))) "Marketing Pool".
Proof.
  intros env.
  apply (mail_names_a_pool_of_this_run env
           (firstn 9 (wire (world (main env))))
           (nth 9 (wire (world (main env)))
              (sendpost.mkExchange (sendpost.GetAllIps []) None None))
           (skipn 10 (wire (world (main env))))
           [("subAccountAuth", "sub-key")%string]
           (match nth 9 (requests (world (main env))) (sendpost.GetAllIps []) with
            | sendpost.SendEmail _ m => m
            | _ => EmailMessageObject.NewEmailMessageObject
            end)).
  - vm_compute. reflexivity.
  - vm_compute. reflexivity.
  - vm_compute. reflexivity.
Defined.

(** Whatever the entries are and wherever the loop stops, the listing loop
    leaves the sub-account id alone or, when it was unset, takes the id of
    the first entry. *)
Lemma listing_loop_first (subs : list SubAccount.t) :
  forall e w (Q : unit -> ESPExample -> World -> Prop) (E : ESPExample -> World -> Prop),
  (forall e' w', wire w' = wire w -> firstTaken e subs e' -> Q tt e' w') ->
  (forall e' w', wire w' = wire w -> firstTaken e subs e' -> E e' w') ->
  wp (forRange subs listingBody) e w Q E.
Proof.
  match goal with |- context [forRange _ ?b] => set (body := b) end.
  induction subs as [|sa subs IH]; intros e w Q E HQ HE.
  - cbn [forRange]. apply wp_ret. apply HQ; [reflexivity | left; reflexivity].
  - cbn [forRange]. apply wp_bind. unfold body at 1.
    destruct (SubAccount.Id sa) as [id|] eqn:Hid.
    + wp_run. do 5 skip_print. wp_run.
      destruct (createdSubAccountID e) as [old|] eqn:Hold; cbn [isNil andb negb]; wp_run.
      * assert (Hkeep : forall e', firstTaken e subs e' -> firstTaken e (sa :: subs) e').
        { intros e' [Hx|[Hx _]]; [left; exact Hx | congruence]. }
        apply IH; intros e2 w2 Hw2 Hft; [apply HQ | apply HE];
          solve [cbn [wire] in *; congruence | apply Hkeep; exact Hft].
      * assert (Htake : forall e1 e', createdSubAccountID e1 = Some id ->
                  firstTaken e1 subs e' -> firstTaken e (sa :: subs) e').
        { intros e1 e' Hx1 [Hx|[Hx _]]; [|congruence].
          right. split; [exact Hold|]. exists sa, subs, id.
          split; [reflexivity|]. split; [exact Hid | congruence]. }
        destruct (SubAccount.ApiKey sa); wp_run;
          (apply IH; intros e2 w2 Hw2 Hft; [apply HQ | apply HE];
           solve [cbn [wire] in *; congruence
                 | eapply Htake; [|exact Hft]; reflexivity]).
    + refine (HE e w eq_refl _). left. reflexivity.
Qed.

(** The listing step leaves the sub-account id, or takes the id of the
    first entry the service listed on its own request. *)
Lemma listing_takes_the_first e w :
  heldSubAccount (object (ListSubAccounts e w)) = heldSubAccount e
  \/ forall v, heldSubAccount (object (ListSubAccounts e w)) = Some v ->
               listedBy (client e) (wire (world (ListSubAccounts e w))) v.
Proof.
  apply (wp_outcome ListSubAccounts e w
           (fun e' w' => heldSubAccount e' = heldSubAccount e
                         \/ forall v, heldSubAccount e' = Some v ->
                                      listedBy (client e) (wire w') v)).
  unfold ListSubAccounts. wp_run.
  lazymatch goal with
  | |- wp (let (_, _) := ?r in _) _ _ _ _ => destruct r as [[subs resp] [err|]] eqn:Hlist
  end; [tail_keeps; left; reflexivity|]. wp_run.
  assert (H : forall e' w',
            wire w' = wire w ++ [sendpost.mkExchange
                                   (sendpost.GetAllSubAccounts (createAccountAuthContext e))
                                   resp None] ->
            firstTaken e subs e' ->
            heldSubAccount e' = heldSubAccount e
            \/ forall v, heldSubAccount e' = Some v -> listedBy (client e) (wire w') v).
  { intros e' w' Hw' [Hft|(_ & sa & rest & id & -> & Hid & Hft)].
    - left. unfold heldSubAccount. rewrite Hft. reflexivity.
    - right. intros v Hv. unfold heldSubAccount in Hv. rewrite Hft in Hv.
      injection Hv as <-.
      exists (wire w), (sendpost.mkExchange
                          (sendpost.GetAllSubAccounts (createAccountAuthContext e)) resp None),
        [], (createAccountAuthContext e), sa, rest, resp, id.
      repeat split; assumption. }
  apply listing_loop_first; intros e' w' Hw'; apply H; exact Hw'.
Qed.

(** The two sub-account statistics steps ask for the sub-account the
    object holds. *)
Lemma stats_request env (s : Step) e w :
  s = StepGetSubAccountStats \/ s = StepGetAggregateStats ->
  Forall (fun x => forall v, askedSubAccount (sendpost.sent x) = Some v ->
                             heldSubAccount e = Some v)
    (issued w (world (run env s e w))).
Proof.
  intros Hs.
  apply (wp_outcome (run env s) e w
           (fun _ w' => Forall (fun x => forall v,
              askedSubAccount (sendpost.sent x) = Some v -> heldSubAccount e = Some v)
              (issued w w'))).
  unfold heldSubAccount. destruct Hs as [-> | ->]; cbn [run].
  - unfold GetSubAccountStats. wp_run.
    destruct (createdSubAccountID e) as [id|]; wp_run.
    + split_response; sent_so_far; (constructor; [|constructor]);
        intros v Hv; cbn in Hv |- *; exact Hv.
    + nothing_sent. constructor.
  - unfold GetAggregateStats. wp_run.
    destruct (createdSubAccountID e) as [id|]; wp_run.
    + split_response; sent_so_far; (constructor; [|constructor]);
        intros v Hv; cbn in Hv |- *; exact Hv.
    + nothing_sent. constructor.
Qed.

Lemma asked_is_stats c v :
  askedSubAccount c = Some v ->
  operation c = OpSubaccountStat \/ operation c = OpSubaccountStatAggregate.
Proof. destruct c; cbn; intros H; try discriminate H; auto. Qed.

Lemma step_traced_sub_account env (s : Step) :
  s <> StepCreateSubAccount ->
  respects (traced heldSubAccount listedBy askedSubAccount) (run env s).
Proof.
  intros Hs e w.
  apply (traced_outcome _ heldSubAccount listedBy askedSubAccount listedBy_mono
           e w _ _ (issued w (world (run env s e w)))).
  - apply steps_keep_client.
  - apply step_wire.
  - destruct s; try solve [exfalso; apply Hs; reflexivity];
      try (left;
           match goal with
           | |- context [run env ?s e w] => pose proof (steps_keep env s e w) as H
           end;
           unfold keeps in H; apply (f_equal heldSubAccount) in H; exact H).
    cbn [run]. apply listing_takes_the_first.
  - destruct s; try solve [exfalso; apply Hs; reflexivity];
      try solve [apply stats_request; auto];
      (apply Forall_forall; intros x Hin v Hv; exfalso;
       apply asked_is_stats in Hv;
       match type of Hin with
       | context [run env ?s e w] =>
           pose proof (not_planned env s e w OpSubaccountStat) as N1;
           pose proof (not_planned env s e w OpSubaccountStatAggregate) as N2
       end;
       rewrite Forall_forall in N1, N2;
       destruct Hv as [Hv|Hv];
       [ eapply N1; [cbn; intuition discriminate | exact Hin | exact Hv]
       | eapply N2; [cbn; intuition discriminate | exact Hin | exact Hv] ]).
Qed.

Lemma workflow_traced_sub_account env :
  respects (traced heldSubAccount listedBy askedSubAccount) (RunCompleteWorkflow env).
Proof.
  unfold RunCompleteWorkflow.
  by_steps ltac:(first
    [ apply (step_traced_sub_account env StepListSubAccounts); discriminate
    | apply (step_traced_sub_account env StepCreateWebhook); discriminate
    | apply (step_traced_sub_account env StepListWebhooks); discriminate
    | apply (step_traced_sub_account env StepAddDomain); discriminate
    | apply (step_traced_sub_account env StepListDomains); discriminate
    | apply (step_traced_sub_account env StepListIPs); discriminate
    | apply (step_traced_sub_account env StepCreateIPPool); discriminate
    | apply (step_traced_sub_account env StepListIPPools); discriminate
    | apply (step_traced_sub_account env StepSendTransactionalEmail); discriminate
    | apply (step_traced_sub_account env StepSendMarketingEmail); discriminate
    | apply (step_traced_sub_account env StepGetSubAccountStats); discriminate
    | apply (step_traced_sub_account env StepGetAggregateStats); discriminate
    | apply (step_traced_sub_account env StepGetAccountStats); discriminate
    | apply (step_traced_sub_account env StepGetMessageDetails); discriminate ]).
Qed.

(** X15.  Whatever the service answers, the sub-account statistics of a run
    are those of the first listed sub-account: the id of a statistics or
    aggregate statistics request is the id, as an int64, of the first entry
    of a list the service returned, without an error, to a sub-account
    listing the run made before. *)
Theorem statistics_ask_for_the_first_listed_sub_account env pre x post v :
  wire (world (main env)) = pre ++ x :: post ->
  askedSubAccount (sendpost.sent x) = Some v ->
  listedBy (client (NewESPExample env)) pre v.
Proof.
  intros Hwire Hx.
  destruct (workflow_traced_sub_account env (NewESPExample env) boot) as (Hc & _ & Ha).
  - split; [intros v0 Hv0; discriminate Hv0|].
    intros pre0 x0 post0 H0. destruct pre0; discriminate H0.
  - fold (main env) in Hc, Ha. rewrite Hc in Ha.
    apply (Ha pre x post Hwire v Hx).
Qed.

Lemma statistics_ask_for_the_first_listed_sub_account_witness :
  let env := mkEnv shipped keysSet (fun _ => oneSubAccount) noon in
  listedBy oneSubAccount (firstn 10 (wire (world (main env)))) 50441.
Proof.
  intros env.
  apply (statistics_ask_for_the_first_listed_sub_account env
           (firstn 10 (wire (world (main env))))
           (nth 10 (wire (world (main env)))
              (sendpost.mkExchange (sendpost.GetAllIps []) None None))
           (skipn 11 (wire (world (main env)))) 50441).
  - vm_compute. reflexivity.
  - vm_compute. reflexivity.
Defined.
